(** * The Star Wars ingestion pipeline: a shallow embedding

    This development embeds [starwars/utils/starwars_api_helper.py]
    (classes [StarwarsEtl] and [StarWarsLookup]) together with the
    [Metadata] model of [starwars/models.py], and states the properties
    of the specification over the embedded code.

    The Python code is effectful: it talks to a remote HTTP API
    ([requests.get]), to the Django table behind [Metadata.objects] and
    to the file system (through [petl]).  These are kept in an explicit
    [World]; the methods of [StarwarsEtl] are computations in a small
    state-and-exception monad over it.  The library calls of the source
    ([datetime.strptime], [petl.join], ...) are modelled by executable
    functions whose comments say which library behaviour they follow. *)

From Stdlib Require Import ZArith Ascii String List Lia Permutation DecimalString.
From Stdlib Require Import Sorting.Sorted Structures.OrderedTypeEx.
From stdpp Require Import base strings gmap list.

Local Open Scope Z_scope.

(** ** Python exceptions and results *)

(** The exception classes the embedded code can meet.  [RemoteApiError]
    is the name used by the specification for a failed status check; no
    statement of the source raises it. *)
Inductive exn : Type :=
| RuntimeError (msg : string)
| DoesNotExist
| IntegrityError (msg : string)
| ValueError (msg : string)
| TypeError (msg : string)
| AttributeError (msg : string)
| FieldSelectionError (field : string)
| FileNotFoundError (path : string)
| PermissionError (path : string)
| StopIteration
| ConnectionError (msg : string)
| JSONDecodeError (msg : string)
| RemoteApiError (status : Z).

(** [str(e)], as used by the f-string of [save_data_to_csv]; the texts
    of the library messages are abridged. *)
Definition exn_str (e : exn) : string :=
  match e with
  | RuntimeError m => m
  | DoesNotExist => "Metadata matching query does not exist."
  | IntegrityError m => m
  | ValueError m => m
  | TypeError m => m
  | AttributeError m => m
  | FieldSelectionError f => "selection is not a field or valid field index: " +:+ f
  | FileNotFoundError p => "[Errno 2] No such file or directory: " +:+ p
  | PermissionError p => "[Errno 13] Permission denied: " +:+ p
  | StopIteration => ""
  | ConnectionError m => m
  | JSONDecodeError m => m
  | RemoteApiError s => NilZero.string_of_int (Z.to_int s)
  end.

(** A pure computation that returns or raises. *)
Inductive result (A : Type) : Type :=
| Ok (a : A)
| Raise (e : exn).
Arguments Ok {A} a.
Arguments Raise {A} e.

Definition rbind {A B} (r : result A) (k : A -> result B) : result B :=
  match r with
  | Ok a => k a
  | Raise e => Raise e
  end.

Definition rmap {A B} (f : A -> B) (r : result A) : result B :=
  rbind r (fun a => Ok (f a)).

(** ** Characters and strings *)

Module PyStr.

Definition in_range (lo hi c : ascii) : bool :=
  (N_of_ascii lo <=? N_of_ascii c)%N && (N_of_ascii c <=? N_of_ascii hi)%N.

Definition is_digit (c : ascii) : bool := in_range "0" "9" c.

Definition is_char (x c : ascii) : bool := Ascii.eqb c x.

(** Case-insensitive literal (the pattern of [strptime] is compiled
    with [re.IGNORECASE]). *)
Definition is_char_ci (upper lower c : ascii) : bool :=
  Ascii.eqb c upper || Ascii.eqb c lower.


(** The characters a group of the timestamp pattern can hold. *)
Definition plain (c : ascii) : bool := is_digit c || is_char " " c.

Definition digit_val (c : ascii) : Z := Z.of_N (N_of_ascii c) - 48.

Fixpoint digits_val (acc : Z) (s : string) : Z :=
  match s with
  | EmptyString => acc
  | String c s' => digits_val (10 * acc + digit_val c) s'
  end.

(** [int(s)] on the strings the timestamp pattern lets through: decimal
    digits, with the leading blank of a space-padded day skipped. *)
Definition int (s : string) : Z :=
  match s with
  | String c s' => if is_char " " c then digits_val 0 s' else digits_val 0 s
  | EmptyString => 0
  end.

Fixpoint all_chars (p : ascii -> bool) (s : string) : bool :=
  match s with
  | EmptyString => true
  | String c s' => p c && all_chars p s'
  end.

(** The text before the first character satisfying [sep], and the text
    after it. *)
Fixpoint split_at (sep : ascii -> bool) (s : string) : option (string * string) :=
  match s with
  | EmptyString => None
  | String c s' =>
      if sep c then Some (EmptyString, s')
      else match split_at sep s' with
           | Some (a, b) => Some (String c a, b)
           | None => None
           end
  end.

Definition digit_char (n : Z) : ascii := ascii_of_N (Z.to_N (48 + n mod 10)).

(** [str(n)] for an integer. *)
Definition of_Z (n : Z) : string := NilZero.string_of_int (Z.to_int n).

(** [" ".join(xs)]. *)
Fixpoint join (sep : string) (xs : list string) : string :=
  match xs with
  | [] => ""
  | [x] => x
  | x :: xs' => x +:+ sep +:+ join sep xs'
  end.

Definition lower_char (c : ascii) : ascii :=
  if in_range "A" "Z" c then ascii_of_N (N_of_ascii c + 32) else c.

Fixpoint lower (s : string) : string :=
  match s with
  | EmptyString => EmptyString
  | String c s' => String (lower_char c) (lower s')
  end.

End PyStr.

(** ** [datetime.strptime] and [strftime]

    [convert_datetime] is two library calls.  [strptime] turns the format
    ["%Y-%m-%dT%H:%M:%S.%fZ"] into the regular expression

    [(\d\d\d\d)-(1[0-2]|0[1-9]|[1-9])-(3[0-1]|[1-2]\d|0[1-9]|[1-9]| [1-9])T]
    [(2[0-3]|[0-1]\d|\d):([0-5]\d|\d):(6[0-1]|[0-5]\d|\d)\.([0-9]{1,6})Z]

    (case-insensitive), requires it to cover the whole text, converts the
    groups with [int] and builds a [datetime], which validates the
    calendar date and the time of day.  Every failure is a [ValueError].
    No group can contain the literal that follows it, so each group is
    the text up to the first occurrence of that literal: the model
    splits there and checks the group against its own alternatives.
    Digits are the ASCII digits. *)

Module Datetime.
Import PyStr.

Record datetime : Type := mkdatetime {
  year : Z; month : Z; day : Z;
  hour : Z; minute : Z; second : Z; microsecond : Z
}.

(** [%Y]: [\d\d\d\d] *)
Definition re_Y (s : string) : bool :=
  match s with
  | String a (String b (String c (String d EmptyString))) =>
      is_digit a && is_digit b && is_digit c && is_digit d
  | _ => false
  end.

(** [%m]: [1[0-2]|0[1-9]|[1-9]] *)
Definition re_m (s : string) : bool :=
  match s with
  | String a (String b EmptyString) =>
      (is_char "1" a && in_range "0" "2" b) || (is_char "0" a && in_range "1" "9" b)
  | String a EmptyString => in_range "1" "9" a
  | _ => false
  end.

(** [%d]: [3[0-1]|[1-2]\d|0[1-9]|[1-9]| [1-9]] *)
Definition re_d (s : string) : bool :=
  match s with
  | String a (String b EmptyString) =>
      (is_char "3" a && in_range "0" "1" b)
      || (in_range "1" "2" a && is_digit b)
      || (is_char "0" a && in_range "1" "9" b)
      || (is_char " " a && in_range "1" "9" b)
  | String a EmptyString => in_range "1" "9" a
  | _ => false
  end.

(** [%H]: [2[0-3]|[0-1]\d|\d] *)
Definition re_H (s : string) : bool :=
  match s with
  | String a (String b EmptyString) =>
      (is_char "2" a && in_range "0" "3" b) || (in_range "0" "1" a && is_digit b)
  | String a EmptyString => is_digit a
  | _ => false
  end.

(** [%M]: [[0-5]\d|\d] *)
Definition re_M (s : string) : bool :=
  match s with
  | String a (String b EmptyString) => in_range "0" "5" a && is_digit b
  | String a EmptyString => is_digit a
  | _ => false
  end.

(** [%S]: [6[0-1]|[0-5]\d|\d] *)
Definition re_S (s : string) : bool :=
  match s with
  | String a (String b EmptyString) =>
      (is_char "6" a && in_range "0" "1" b) || (in_range "0" "5" a && is_digit b)
  | String a EmptyString => is_digit a
  | _ => false
  end.

(** [%f]: [[0-9]{1,6}] *)
Definition re_f (s : string) : bool :=
  all_chars is_digit s
  && (1 <=? String.length s)%nat && (String.length s <=? 6)%nat.

(** The seven groups of a text the pattern covers. *)
Record groups : Type := mkgroups {
  gY : string; gm : string; gd : string;
  gH : string; gM : string; gS : string; gf : string
}.

Definition groups_ok (g : groups) : bool :=
  re_Y (gY g) && re_m (gm g) && re_d (gd g)
  && re_H (gH g) && re_M (gM g) && re_S (gS g) && re_f (gf g).

(** Cut the text at the six literals and at the final [Z]; nothing may
    follow the [Z]. *)
Definition split_groups (s : string) : option groups :=
  '(y, r1) ← split_at (is_char "-") s;
  '(mo, r2) ← split_at (is_char "-") r1;
  '(d, r3) ← split_at (is_char_ci "T" "t") r2;
  '(hh, r4) ← split_at (is_char ":") r3;
  '(mi, r5) ← split_at (is_char ":") r4;
  '(ss, r6) ← split_at (is_char ".") r5;
  '(f, r7) ← split_at (is_char_ci "Z" "z") r6;
  match r7 with
  | EmptyString => Some (mkgroups y mo d hh mi ss f)
  | _ => None
  end.

Definition regex_match (s : string) : option groups :=
  g ← split_groups s;
  if groups_ok g then Some g else None.

Definition is_leap (y : Z) : bool :=
  (y mod 4 =? 0) && (negb (y mod 100 =? 0) || (y mod 400 =? 0)).

Definition days_in_month (y m : Z) : Z :=
  if m =? 2 then (if is_leap y then 29 else 28)
  else if (m =? 4) || (m =? 6) || (m =? 9) || (m =? 11) then 30
  else 31.

(** [%f] pads the fraction on the right to six digits. *)
Definition fraction (f : string) : Z :=
  digits_val 0 f * 10 ^ Z.of_nat (6 - String.length f).

Definition of_groups (g : groups) : datetime :=
  mkdatetime (int (gY g)) (int (gm g)) (int (gd g))
             (int (gH g)) (int (gM g)) (int (gS g)) (fraction (gf g)).

(** The range checks of [datetime.date] and [datetime.datetime] that
    the pattern does not already enforce. *)
Definition validate (t : datetime) : result datetime :=
  if year t <? 1 then Raise (ValueError "year 0 is out of range")
  else if days_in_month (year t) (month t) <? day t
  then Raise (ValueError "day is out of range for month")
  else if 59 <? second t then Raise (ValueError "second must be in 0..59")
  else Ok t.

Definition strptime (s : string) : result datetime :=
  match regex_match s with
  | None => Raise (ValueError "time data does not match format")
  | Some g => validate (of_groups g)
  end.

Definition two_digits (n : Z) : string :=
  String (digit_char (n / 10)) (String (digit_char n) EmptyString).

(** [%Y] as the C library prints it: the decimal year, not padded. *)
Definition strftime_Y (y : Z) : string :=
  if y <? 10 then String (digit_char y) EmptyString
  else if y <? 100 then two_digits y
  else if y <? 1000 then String (digit_char (y / 100)) (two_digits y)
  else String (digit_char (y / 1000)) (String (digit_char (y / 100)) (two_digits y)).

(** [dt.strftime("%Y-%m-%d")] *)
Definition strftime_date (t : datetime) : string :=
  strftime_Y (year t) +:+ "-" +:+ two_digits (month t) +:+ "-" +:+ two_digits (day t).

End Datetime.

(** [StarwarsEtl.convert_datetime] *)
Definition convert_datetime (date : string) : result string :=
  rmap Datetime.strftime_date (Datetime.strptime date).

(** ** petl tables

    A petl table is a header and data rows.  petl's transformations are
    lazy views: nothing is read or computed until a consumer ([tocsv],
    [print], [len]) iterates the view, and a view over [fromcsv] reads
    the file each time.  A [view] is therefore a function of the files
    present when it is iterated, returning the table or the exception the
    iteration raises. *)

Module Petl.

(** Scalar field values: [None], [str], [int]. *)
Inductive value : Type :=
| VNone
| VStr (s : string)
| VInt (n : Z).

#[global] Instance value_eq_dec : EqDecision value.
Proof. solve_decision. Defined.

Definition value_eqb (a b : value) : bool := bool_decide (a = b).

(** A JSON object of scalars, keys in document order. *)
Definition record : Type := list (string * value).

Definition row : Type := list value.

Record table : Type := mktable {
  header : list string;
  rows : list row
}.

(** The text of a CSV file: its lines, split in fields, header first. *)
Definition csv : Type := list (list string).

Definition view : Type := gmap string csv -> result table.

Definition vbind (v : view) (k : table -> result table) : view :=
  fun fs => rbind (v fs) k.

(** *** Field selection: [asindices] *)

Fixpoint index_of (f : string) (hdr : list string) : option nat :=
  match hdr with
  | [] => None
  | h :: hdr' => if String.eqb h f then Some 0%nat
                 else S <$> index_of f hdr'
  end.

Definition asindex (hdr : list string) (f : string) : result nat :=
  match index_of f hdr with
  | Some i => Ok i
  | None => Raise (FieldSelectionError f)
  end.

Fixpoint asindices (hdr : list string) (spec : list string) : result (list nat) :=
  match spec with
  | [] => Ok []
  | f :: spec' =>
      rbind (asindex hdr f) (fun i =>
      rbind (asindices hdr spec') (fun ixs => Ok (i :: ixs)))
  end.

(** A field of a row; a row shorter than the header yields [None]. *)
Definition field (i : nat) (r : row) : value := nth i r VNone.

Fixpoint remove_nth {A} (i : nat) (l : list A) : list A :=
  match l, i with
  | [], _ => []
  | _ :: l', O => l'
  | x :: l', S i' => x :: remove_nth i' l'
  end.

(** *** Ordering of values ([petl.comparison.Comparable]):
    [None] first, then numbers, then text by code points. *)
Definition value_cmp (a b : value) : comparison :=
  match a, b with
  | VNone, VNone => Eq
  | VNone, _ => Lt
  | _, VNone => Gt
  | VInt x, VInt y => Z.compare x y
  | VInt _, VStr _ => Lt
  | VStr _, VInt _ => Gt
  | VStr x, VStr y => String.compare x y
  end.

Definition value_leb (a b : value) : bool :=
  match value_cmp a b with Gt => false | _ => true end.

(** Rows compare as tuples do. *)
Fixpoint row_leb (a b : row) : bool :=
  match a, b with
  | [], _ => true
  | _ :: _, [] => false
  | x :: a', y :: b' =>
      match value_cmp x y with
      | Lt => true
      | Gt => false
      | Eq => row_leb a' b'
      end
  end.

(** *** [sort]: a stable sort on a key *)
Section Sort.
Context {A K : Type} (key : A -> K) (leb : K -> K -> bool).

Fixpoint insert_sorted (x : A) (l : list A) : list A :=
  match l with
  | [] => [x]
  | y :: l' => if leb (key x) (key y) then x :: l
               else y :: insert_sorted x l'
  end.

Definition sort_by (l : list A) : list A := foldr insert_sorted [] l.

(** The order a sort on [key] establishes. *)
Definition key_le (a b : A) : Prop := leb (key a) (key b) = true.
End Sort.

(** *** Sources *)

Definition keys_of (o : record) : list string := map fst o.

Fixpoint add_new (hdr : list string) (ks : list string) : list string :=
  match ks with
  | [] => hdr
  | k :: ks' =>
      if bool_decide (k ∈ hdr) then add_new hdr ks'
      else add_new (hdr ++ [k]) ks'
  end.

Definition dict_get (o : record) (f : string) : value :=
  match find (fun kv => String.eqb (fst kv) f) o with
  | Some kv => snd kv
  | None => VNone
  end.

(** [etl.fromdicts(data)]: the fields are those of the first 1000
    dicts, in order of first appearance; an absent field reads [None].
    (The pipeline selects the columns of such a table by name, so the
    order of its fields does not reach any snapshot.) *)
Definition fromdicts_table (data : list record) : table :=
  let hdr := foldl (fun h o => add_new h (keys_of o)) [] (take 1000 data) in
  mktable hdr (map (fun o => map (dict_get o) hdr) data).

Definition fromdicts (data : list record) : view :=
  fun _ => Ok (fromdicts_table data).

(** [etl.fromcsv(path)]: every value is text. *)
Definition fromcsv (path : string) : view :=
  fun fs =>
    match fs !! path with
    | None => Raise (FileNotFoundError path)
    | Some [] => Raise (RuntimeError "generator raised StopIteration")
    | Some (h :: ls) => Ok (mktable h (map (map VStr) ls))
    end.

(** What [csv.writer] writes for a value. *)
Definition csv_text (v : value) : string :=
  match v with
  | VNone => ""
  | VStr s => s
  | VInt n => PyStr.of_Z n
  end.

Definition to_csv (t : table) : csv :=
  header t :: map (map csv_text) (rows t).

(** *** Transformations *)

(** [etl.cut(table, *fields)] *)
Definition cut_table (fields : list string) (t : table) : result table :=
  rbind (asindices (header t) fields) (fun ixs =>
  Ok (mktable fields (map (fun r => map (fun i => field i r) ixs) (rows t)))).

Definition cut (v : view) (fields : list string) : view :=
  vbind v (cut_table fields).

(** [etl.cutout(table, field)] *)
Definition cutout_table (f : string) (t : table) : result table :=
  rbind (asindex (header t) f) (fun i =>
  Ok (mktable (remove_nth i (header t)) (map (remove_nth i) (rows t)))).

Definition cutout (v : view) (f : string) : view :=
  vbind v (cutout_table f).

Definition rename_field (spec : list (string * string)) (f : string) : string :=
  match find (fun kv => String.eqb (fst kv) f) spec with
  | Some kv => snd kv
  | None => f
  end.

Fixpoint check_fields (hdr : list string) (fs : list string) : result unit :=
  match fs with
  | [] => Ok tt
  | f :: fs' => if bool_decide (f ∈ hdr) then check_fields hdr fs'
                else Raise (FieldSelectionError f)
  end.

(** [etl.rename(table, {old: new, ...})], strict: every old name must
    be a field; every field of that name is renamed. *)
Definition rename_table (spec : list (string * string)) (t : table) : result table :=
  rbind (check_fields (header t) (map fst spec)) (fun _ =>
  Ok (mktable (map (rename_field spec) (header t)) (rows t))).

Definition rename (v : view) (spec : list (string * string)) : view :=
  vbind v (rename_table spec).

Fixpoint update_nth {A} (i : nat) (f : A -> A) (l : list A) : list A :=
  match l, i with
  | [], _ => []
  | x :: l', O => f x :: l'
  | x :: l', S i' => x :: update_nth i' f l'
  end.

(** [etl.convert(table, field, f)] with petl's default
    [failonerror=False]: a value on which [f] raises becomes [None]. *)
Definition convert_table (f : string) (conv : value -> result value)
    (t : table) : result table :=
  rbind (asindex (header t) f) (fun i =>
  Ok (mktable (header t)
        (map (update_nth i (fun x => match conv x with
                                     | Ok y => y
                                     | Raise _ => VNone
                                     end)) (rows t)))).

Definition convert (v : view) (f : string) (conv : value -> result value) : view :=
  vbind v (convert_table f conv).

Fixpoint sequence {A} (l : list (result A)) : result (list A) :=
  match l with
  | [] => Ok []
  | r :: l' => rbind r (fun a => rbind (sequence l') (fun as_ => Ok (a :: as_)))
  end.

(** [etl.addfield(table, name, f)]: the new field comes last and is
    computed from the row as it was. *)
Definition addfield_table (name : string) (f : row -> result value)
    (t : table) : result table :=
  rbind (sequence (map (fun r => rmap (fun x => r ++ [x]) (f r)) (rows t)))
    (fun rs => Ok (mktable (header t ++ [name]) rs)).

Definition addfield (v : view) (name : string) (f : row -> result value) : view :=
  vbind v (addfield_table name f).

(** [itertools.groupby] followed by [len]: runs of equal keys. *)
Fixpoint group_count (ks : list value) : list (value * Z) :=
  match ks with
  | [] => []
  | k :: ks' =>
      match group_count ks' with
      | (k', n) :: g => if value_eqb k k' then (k, n + 1) :: g
                        else (k, 1) :: (k', n) :: g
      | [] => [(k, 1)]
      end
  end.

(** How often a key occurs in a list of keys. *)
Definition occurrences (k : value) (ks : list value) : Z :=
  Z.of_nat (count_occ value_eq_dec ks k).

(** [etl.aggregate(table, key, len)]: the table is sorted on the key
    and each run of equal keys gives one row [(key, count)] under the
    header [(key, "value")]. *)
Definition aggregate_len_table (key : string) (t : table) : result table :=
  rbind (asindex (header t) key) (fun i =>
  Ok (mktable [key; "value"]
        (map (fun kn => [fst kn; VInt (snd kn)])
             (group_count (map (field i) (sort_by (field i) value_leb (rows t))))))).

Definition aggregate_len (v : view) (key : string) : view :=
  vbind v (aggregate_len_table key).

(** [left.join(right, lkey=..., rkey=...)]: petl sorts both tables on
    their keys (stable) and merges the runs of equal keys; a run of left
    rows meets the run of right rows of the same key, left row by left
    row.  The result lists, for the left rows in key order, the right
    rows of equal key in their order; the key field of the right table
    is left out. *)
Definition join_tables (lkey rkey : string) (l r : table) : result table :=
  rbind (asindex (header l) lkey) (fun li =>
  rbind (asindex (header r) rkey) (fun ri =>
  let rsorted := sort_by (field ri) value_leb (rows r) in
  Ok (mktable (header l ++ remove_nth ri (header r))
        (flat_map (fun lr =>
           map (fun rr => lr ++ remove_nth ri rr)
               (List.filter (fun rr => value_eqb (field li lr) (field ri rr)) rsorted))
           (sort_by (field li) value_leb (rows l)))))).

Definition join (l r : view) (lkey rkey : string) : view :=
  fun fs => rbind (l fs) (fun tl => rbind (r fs) (fun tr => join_tables lkey rkey tl tr)).

Fixpoint drop_repeats (l : list row) : list row :=
  match l with
  | [] => []
  | x :: l' =>
      match l' with
      | y :: _ => if bool_decide (x = y) then drop_repeats l'
                  else x :: drop_repeats l'
      | [] => [x]
      end
  end.

(** [etl.distinct(table)]: sort on the whole row, keep one row of each
    run of equal rows. *)
Definition distinct_table (t : table) : result table :=
  Ok (mktable (header t) (drop_repeats (sort_by id row_leb (rows t)))).

Definition distinct (v : view) : view := vbind v distinct_table.

End Petl.

(** ** The world of the pipeline *)

(** [starwars.models.Metadata]; [date] is filled by [auto_now_add]. *)
Record Metadata : Type := mkMetadata {
  file_name : string;
  file_path : string;
  date : Z;
  etag : string;
  table_info_type : string
}.

Record Request : Type := mkRequest {
  url : string;
  request_headers : list (string * string)
}.

(** The JSON document of a listing page: [{"results": [...], "next": ...}]. *)
Record Page : Type := mkPage {
  results : list Petl.record;
  next : option string
}.

Record Response : Type := mkResponse {
  status_code : Z;
  headers : list (string * string);
  json : result Page
}.

(** The remote API answers a request knowing every request sent before
    it; [sent] is the log of the requests made so far.  [db] is the
    [Metadata] table in insertion order, [clock] the time the next row
    is stamped with, [files] the CSV files on disk and [writable] tells
    which paths can be opened for writing. *)
Record World : Type := mkWorld {
  remote : list Request -> result Response;
  sent : list Request;
  db : list Metadata;
  clock : Z;
  files : gmap string Petl.csv;
  writable : string -> bool
}.

Definition with_sent (h : list Request) (w : World) : World :=
  mkWorld (remote w) h (db w) (clock w) (files w) (writable w).

Definition with_files (fs : gmap string Petl.csv) (w : World) : World :=
  mkWorld (remote w) (sent w) (db w) (clock w) fs (writable w).

Definition with_row (m : Metadata) (w : World) : World :=
  mkWorld (remote w) (sent w) (db w ++ [m]) (clock w + 1) (files w) (writable w).

(** ** Computations: state, exceptions, and a bound on loop iterations *)

Inductive outcome (A : Type) : Type :=
| Returns (a : A)
| Raises (e : exn)
| OutOfFuel.
Arguments Returns {A} a.
Arguments Raises {A} e.
Arguments OutOfFuel {A}.

Definition M (A : Type) : Type := World -> outcome A * World.

Definition ret {A} (a : A) : M A := fun w => (Returns a, w).

Definition raise {A} (e : exn) : M A := fun w => (Raises e, w).

Definition bind {A B} (c : M A) (k : A -> M B) : M B :=
  fun w =>
    match c w with
    | (Returns a, w') => k a w'
    | (Raises e, w') => (Raises e, w')
    | (OutOfFuel, w') => (OutOfFuel, w')
    end.

Notation "x <- c ;; k" := (bind c (fun x => k))
  (at level 100, c at next level, right associativity).
Notation "c ;;; k" := (bind c (fun _ => k))
  (at level 100, right associativity).

(** [try: c  except Exception as e: h e] *)
Definition try_except {A} (c : M A) (h : exn -> M A) : M A :=
  fun w =>
    match c w with
    | (Raises e, w') => h e w'
    | r => r
    end.

Definition of_result {A} (r : result A) : M A :=
  match r with
  | Ok a => ret a
  | Raise e => raise e
  end.

(** ** Collaborators: [requests], [Metadata.objects], the file system *)

(** [requests.get(url, headers=hs)] *)
Definition requests_get (u : string) (hs : list (string * string)) : M Response :=
  fun w =>
    let h := sent w ++ [mkRequest u hs] in
    match remote w h with
    | Ok r => (Returns r, with_sent h w)
    | Raise e => (Raises e, with_sent h w)
    end.

(** [response.headers.get(name)]: header names are case-insensitive; an
    absent header gives [None]. *)
Definition headers_get (hs : list (string * string)) (name : string) : option string :=
  snd <$> find (fun kv => String.eqb (PyStr.lower (fst kv)) (PyStr.lower name)) hs.

(** [Metadata.objects.filter(table_info_type=query)] *)
Definition objects_filter (query : string) (ms : list Metadata) : list Metadata :=
  List.filter (fun m => String.eqb (table_info_type m) query) ms.

(** [.latest("date")] on a list of rows: a row of greatest date (the
    last inserted one among equals), if there is any row. *)
Definition latest_row (ms : list Metadata) : option Metadata :=
  foldl (fun best m =>
           match best with
           | None => Some m
           | Some b => if date b <=? date m then Some m else Some b
           end) None ms.

Definition objects_latest (query : string) : M Metadata :=
  fun w =>
    match latest_row (objects_filter query (db w)) with
    | Some m => (Returns m, w)
    | None => (Raises DoesNotExist, w)
    end.

(** [Metadata.objects.create(...)].  The columns are [NOT NULL]
    ([CharField] without [null=True]), so a [None] validator is refused
    by the database; [max_length] is not checked by [create] and is left
    out.  The row is stamped with the current time. *)
Definition objects_create (name path kind : string) (tag : option string) : M unit :=
  fun w =>
    match tag with
    | None => (Raises (IntegrityError "NOT NULL constraint failed: starwars_metadata.etag"), w)
    | Some e => (Returns tt, with_row (mkMetadata name path (clock w) e kind) w)
    end.

(** [table.tocsv(path)]: the file is opened for writing (and emptied),
    then the view is iterated and its rows are written. *)
Definition tocsv (v : Petl.view) (path : string) : M unit :=
  fun w =>
    if writable w path then
      let emptied := <[path := []]> (files w) in
      match v emptied with
      | Ok t => (Returns tt, with_files (<[path := Petl.to_csv t]> (files w)) w)
      | Raise e => (Raises e, with_files emptied w)
      end
    else (Raises (PermissionError path), w).

(** [print(table)] iterates the view. *)
Definition print_table (v : Petl.view) : M unit :=
  fun w =>
    match v (files w) with
    | Ok _ => (Returns tt, w)
    | Raise e => (Raises e, w)
    end.

(** Truth value of [x["table"]]: [None] is false; a petl table is true
    when its length, header included, is not zero. *)
Definition table_truth (t : option Petl.view) : M bool :=
  match t with
  | None => ret false
  | Some v =>
      fun w =>
        match v (files w) with
        | Ok t => (Returns (0 <? 1 + Z.of_nat (length (Petl.rows t))), w)
        | Raise e => (Raises e, w)
        end
  end.

(** ** [starwars.utils.default_args.DefaultArgs] *)
Module DefaultArgs.
Definition API_URL : string := "https://swapi.dev/api".
Definition CSV_FILE_NAME_PREFIX : string := "starwars_data_".
Definition DEFAULT_FILE_DIR : string := "starwars/downloaded_data/".
Definition PEOPLE_QUERY : string := "people".
Definition PLANETS_QUERY : string := "planets".
End DefaultArgs.

(** ** class [StarwarsEtl] *)

Record StarwarsEtl : Type := mkStarwarsEtl {
  API_URL : string;
  CSV_FILE_NAME : string;
  CSV_FILE_PATH : string;
  people_query : string;
  planets_query : string
}.

Definition endpoint (self : StarwarsEtl) (query : string) : string :=
  API_URL self +:+ "/" +:+ query.

Definition get_latest_etags (query : string) : M string :=
  meta <- try_except (m <- objects_latest query ;; ret (Some m))
                     (fun e => match e with
                               | DoesNotExist => ret None
                               | _ => raise e
                               end) ;;
  ret (match meta with
       | Some m => etag m
       | None => ""
       end).

Definition check_for_updates (self : StarwarsEtl) (query latest_etag : string) : M bool :=
  response <- requests_get (endpoint self query) [("If-None-Match", latest_etag)] ;;
  if status_code response =? 304 then ret false
  else if negb (status_code response =? 200)
  then raise (RuntimeError "No active exception to reraise")
  else ret true.

Definition get_current_etag (target : string) : M (option string) :=
  response <- requests_get target [] ;;
  ret (headers_get (headers response) "ETag").

(** The loop [while url: ...] of [get_latest_data]; [next] is [None] or
    a string, and both [None] and the empty string end the loop. *)
Fixpoint fetch_pages (fuel : nat) (target : option string) (data : list Petl.record)
  : M (list Petl.record) :=
  match target with
  | None => ret data
  | Some "" => ret data
  | Some u =>
      match fuel with
      | O => fun w => (OutOfFuel, w)
      | S fuel' =>
          response <- requests_get u [] ;;
          json_data <- of_result (json response) ;;
          fetch_pages fuel' (next json_data) (data ++ results json_data)
      end
  end.

Definition get_latest_data (fuel : nat) (self : StarwarsEtl) (query : string)
  : M (option string * option Petl.view) :=
  let target := endpoint self query in
  current_etag <- get_current_etag target ;;
  latest_etag <- get_latest_etags query ;;
  updated <- check_for_updates self query latest_etag ;;
  if updated then
    data <- fetch_pages fuel (Some target) [] ;;
    ret (current_etag, Some (Petl.fromdicts data))
  else ret (current_etag, None).

Definition _log_new_metadata (name path : string) (tag : option string)
    (kind : string) : M unit :=
  objects_create name path kind tag.

Definition save_data_to_csv (table : Petl.view) (name path kind : string)
    (tag : option string) : M string :=
  try_except
    (tocsv table path ;;;
     _log_new_metadata name path tag kind ;;;
     ret (name +:+ " saved successfully "))
    (fun e => ret ("An error occurred while trying to save CSV file " +:+ exn_str e)).

Definition get_planets_data (fuel : nat) (self : StarwarsEtl) : M Petl.view :=
  let query := planets_query self in
  planets_data <- get_latest_data fuel self query ;;
  fresh <- table_truth (snd planets_data) ;;
  match fresh, snd planets_data with
  | true, Some table =>
      let planets_table :=
        Petl.rename (Petl.cut table ["name"; "url"]) [("name", "homeworld_name")] in
      save_data_to_csv planets_table "planets_info.csv"
        (DefaultArgs.DEFAULT_FILE_DIR +:+ "planets_info.csv") query (fst planets_data) ;;;
      ret planets_table
  | _, _ =>
      meta <- objects_latest query ;;
      ret (Petl.fromcsv (file_path meta))
  end.

(** [self.convert_datetime] as the converter handed to [etl.convert]:
    [strptime] refuses anything but text. *)
Definition convert_datetime_value (v : Petl.value) : result Petl.value :=
  match v with
  | Petl.VStr s => rmap Petl.VStr (convert_datetime s)
  | _ => Raise (TypeError "strptime() argument 1 must be str")
  end.

Definition people_columns : list string :=
  ["name"; "height"; "mass"; "hair_color"; "skin_color"; "eye_color";
   "birth_year"; "edited"; "homeworld_name"].

(** The table expression of [fix_planets_info_and_columns]. *)
Definition joined_people (people planets : Petl.view) : Petl.view :=
  let people_table := Petl.join people planets "homeworld" "url" in
  let people_table := Petl.cut people_table people_columns in
  let people_table := Petl.convert people_table "edited" convert_datetime_value in
  Petl.rename people_table [("edited", "date"); ("homeworld_name", "homeworld")].

Definition fix_planets_info_and_columns (fuel : nat) (self : StarwarsEtl)
    (people_info : option string * option Petl.view) : M Petl.view :=
  planets_table <- get_planets_data fuel self ;;
  match snd people_info with
  | Some table => ret (joined_people table planets_table)
  | None => raise (AttributeError "'NoneType' object has no attribute 'join'")
  end.

Definition get_people_data (fuel : nat) (self : StarwarsEtl) : M string :=
  let query := people_query self in
  people_info <- get_latest_data fuel self query ;;
  fresh <- table_truth (snd people_info) ;;
  if fresh then
    sw_data <- fix_planets_info_and_columns fuel self people_info ;;
    print_table sw_data ;;;
    save_data_to_csv sw_data (CSV_FILE_NAME self) (CSV_FILE_PATH self) query
      (fst people_info)
  else
    meta <- objects_latest query ;;
    _log_new_metadata (CSV_FILE_NAME self) (file_path meta) (fst people_info) query ;;;
    ret "Nothing has been updated".

Definition start_starwars_data_ingestion (fuel : nat) (self : StarwarsEtl) : M string :=
  get_people_data fuel self.

(** ** class [StarWarsLookup] *)

Definition get_table_detailed_view (path : string) : Petl.view :=
  Petl.fromcsv path.

Fixpoint texts (r : Petl.row) : option (list string) :=
  match r with
  | [] => Some []
  | Petl.VStr s :: r' => cons s <$> texts r'
  | _ :: _ => None
  end.

(** [lambda row: " ".join(row)] *)
Definition concatenate (r : Petl.row) : result Petl.value :=
  match texts r with
  | Some ss => Ok (Petl.VStr (PyStr.join " " ss))
  | None => Raise (TypeError "sequence item: expected str instance")
  end.

Definition get_calcualted_table (path : string) (columns : list string) : Petl.view :=
  let table := Petl.fromcsv path in
  let table := Petl.addfield (Petl.cut table columns) "concatenated" concatenate in
  let concate := Petl.aggregate_len table "concatenated" in
  let final_table := Petl.join table concate "concatenated" "concatenated" in
  let final_table := Petl.cutout final_table "concatenated" in
  Petl.distinct (Petl.rename final_table [("value", "count")]).

(** ** The views ([starwars/views.py]) *)

Module PySplit.

(** [s.split(sep)] for a separator that is not empty: [s] is cut at the
    occurrences of [sep] met from the left, none overlapping the one
    before.  [skip] counts the characters of the occurrence just met
    that are still to be passed over, [piece] is the piece being read. *)
Fixpoint split_from (sep s : string) (skip : nat) (piece : string) : list string :=
  match s with
  | EmptyString => [piece]
  | String c s' =>
      match skip with
      | S k => split_from sep s' k piece
      | O =>
          if String.prefix sep s
          then piece :: split_from sep s' (String.length sep - 1) EmptyString
          else split_from sep s' 0 (piece +:+ String c EmptyString)
      end
  end.

Definition split (sep s : string) : list string := split_from sep s 0 EmptyString.

End PySplit.

(** [request.GET], a Django [QueryDict]: the pairs of the query string
    in the order given.  Item access and [get] return the last value
    given for a key. *)
Definition QueryDict : Type := list (string * string).

Definition querydict_contains (q : QueryDict) (key : string) : bool :=
  existsb (fun kv => String.eqb (fst kv) key) q.

Definition querydict_get (q : QueryDict) (key default : string) : string :=
  match last (List.filter (fun kv => String.eqb (fst kv) key) q) with
  | Some kv => snd kv
  | None => default
  end.

(** *** [DownloadDataView.get] *)

(** [now.strftime('%Y%m%d-%H%M%S')] *)
Definition strftime_stamp (t : Datetime.datetime) : string :=
  Datetime.strftime_Y (Datetime.year t) +:+ Datetime.two_digits (Datetime.month t)
  +:+ Datetime.two_digits (Datetime.day t) +:+ "-"
  +:+ Datetime.two_digits (Datetime.hour t) +:+ Datetime.two_digits (Datetime.minute t)
  +:+ Datetime.two_digits (Datetime.second t).

(** The view, given what [datetime.datetime.now()] returns: the message
    handed to [messages.success], if any, and the [datasets] handed to
    the template. *)
Definition download_data_view_get (now : Datetime.datetime) (fuel : nat) (GET : QueryDict)
  : M (option string * list Metadata) :=
  message <-
    (if querydict_contains GET "download_data"
        && String.eqb (querydict_get GET "download_data" "") "true"
     then
       let CSV_FILE_NAME :=
         DefaultArgs.CSV_FILE_NAME_PREFIX +:+ strftime_stamp now +:+ ".csv" in
       let ETL :=
         mkStarwarsEtl DefaultArgs.API_URL CSV_FILE_NAME
           (DefaultArgs.DEFAULT_FILE_DIR +:+ CSV_FILE_NAME)
           DefaultArgs.PEOPLE_QUERY DefaultArgs.PLANETS_QUERY in
       message <- start_starwars_data_ingestion fuel ETL ;;
       ret (Some message)
     else ret None) ;;
  fun w => (Returns (message, objects_filter "people" (db w)), w).

(** *** [DatasetDetailView.get_context_data] *)







(** ** Notions used by the properties *)

(** *** Timestamps *)

Module Timestamp.
Import PyStr Datetime.

(** The text made of seven groups and the literals between them. *)
Definition text (t z : ascii) (g : groups) : string :=
  gY g +:+ "-" +:+ gm g +:+ "-" +:+ gd g +:+ String t (
  gH g +:+ ":" +:+ gM g +:+ ":" +:+ gS g +:+ "." +:+ gf g +:+ String z EmptyString).


Definition two_digit (s : string) : bool :=
  match s with
  | String a (String b EmptyString) => is_digit a && is_digit b
  | _ => false
  end.

(** The ISO-8601 shape [YYYY-MM-DDTHH:MM:SS.f...Z] with one to six
    digits of fraction. *)
Definition iso_shape (g : groups) : bool :=
  re_Y (gY g) && two_digit (gm g) && two_digit (gd g)
  && two_digit (gH g) && two_digit (gM g) && two_digit (gS g) && re_f (gf g).

(** The groups name a date and a time of day that exist. *)
Definition names_instant (g : groups) : bool :=
  let t := of_groups g in
  (1 <=? month t) && (month t <=? 12)
  && (1 <=? day t) && (day t <=? days_in_month (year t) (month t))
  && (hour t <=? 23) && (minute t <=? 59) && (second t <=? 59).

Definition iso_text (g : groups) : string := text "T" "Z" g.


(** The calendar-date prefix of a timestamp. *)
Definition date_prefix (s : string) : string := substring 0 10 s.

End Timestamp.

(** *** The remote API *)

(** The validator the [Metadata] table holds for a kind: what
    [get_latest_etags] reads. *)
Definition stored_validator (query : string) (ms : list Metadata) : string :=
  match latest_row (objects_filter query ms) with
  | Some m => etag m
  | None => ""
  end.

(** The remote honours [If-None-Match]: having just reported the
    validator [e] for a resource, it answers 304 to a request for that
    resource which carries [e]. *)
Definition honours_validators (rem : list Request -> result Response) : Prop :=
  forall h u e r,
    rem (h ++ [mkRequest u []]) = Ok r ->
    headers_get (headers r) "ETag" = Some e ->
    exists r', rem ((h ++ [mkRequest u []]) ++ [mkRequest u [("If-None-Match", e)]]) = Ok r'
               /\ status_code r' = 304.

(** Whenever the remote answers a plain request for [u], the validator
    it reports is [e]. *)
Definition current_validator (rem : list Request -> result Response)
    (u e : string) : Prop :=
  forall h r, rem (h ++ [mkRequest u []]) = Ok r ->
              headers_get (headers r) "ETag" = Some e.

(** Starting after the requests [h], the remote serves the listing that
    begins at [u] as the given pages: each page but the last links to
    the next one, the last has a null link.  [h'] is the log once the
    last page has been requested. *)
Inductive serves_pages (rem : list Request -> result Response)
  : list Request -> string -> list (list Petl.record) -> list Request -> Prop :=
| serves_last h u st hd rs :
    u <> "" ->
    rem (h ++ [mkRequest u []]) = Ok (mkResponse st hd (Ok (mkPage rs None))) ->
    serves_pages rem h u [rs] (h ++ [mkRequest u []])
| serves_next h u st hd rs u' rest h' :
    u <> "" ->
    rem (h ++ [mkRequest u []]) = Ok (mkResponse st hd (Ok (mkPage rs (Some u')))) ->
    serves_pages rem (h ++ [mkRequest u []]) u' rest h' ->
    serves_pages rem h u (rs :: rest) h'.

(** The rows of a kind. *)
Definition rows_of_kind (kind : string) (w : World) : list Metadata :=
  objects_filter kind (db w).

(** A computation keeps an invariant of the world, whatever its
    outcome. *)
Definition keeps {A} (I : World -> Prop) (c : M A) : Prop :=
  forall w, I w -> I (snd (c w)).

(** The remote is [rem] and the rows of [kind] are [ms]. *)
Definition kind_rows_are (rem : list Request -> result Response) (kind : string)
    (ms : list Metadata) (w : World) : Prop :=
  remote w = rem /\ rows_of_kind kind w = ms.

(** Invariants that do not look at the request log, at the files, or at
    the rows of a given kind. *)
Definition sent_blind (I : World -> Prop) : Prop :=
  forall w h, I w -> I (with_sent h w).

Definition files_blind (I : World -> Prop) : Prop :=
  forall w fs, I w -> I (with_files fs w).

Definition row_blind (kind : string) (I : World -> Prop) : Prop :=
  forall w m, table_info_type m = kind -> I w -> I (with_row m w).

(** *** Tables *)

(** Every row has one value per field. *)
Definition rectangular (t : Petl.table) : Prop :=
  Forall (fun r => length r = length (Petl.header t)) (Petl.rows t).

(** The value of a named field in a row of a table with header [hdr]. *)
Definition named (hdr : list string) (f : string) (r : Petl.row) : Petl.value :=
  match Petl.index_of f hdr with
  | Some i => Petl.field i r
  | None => Petl.VNone
  end.

(** The row of the people snapshot made from a person and a planet. *)
Definition snapshot_row (hdr : list string) (person planet : Petl.row) : Petl.row :=
  [named hdr "name" person; named hdr "height" person; named hdr "mass" person;
   named hdr "hair_color" person; named hdr "skin_color" person;
   named hdr "eye_color" person; named hdr "birth_year" person;
   match convert_datetime_value (named hdr "edited" person) with
   | Ok d => d
   | Raise _ => Petl.VNone
   end;
   Petl.field 0 planet].

(** The same row, from the person's record as the API returned it. *)
Definition person_row (person : Petl.record) (planet : Petl.row) : Petl.row :=
  [Petl.dict_get person "name"; Petl.dict_get person "height";
   Petl.dict_get person "mass"; Petl.dict_get person "hair_color";
   Petl.dict_get person "skin_color"; Petl.dict_get person "eye_color";
   Petl.dict_get person "birth_year";
   match convert_datetime_value (Petl.dict_get person "edited") with
   | Ok d => d
   | Raise _ => Petl.VNone
   end;
   Petl.field 0 planet].

Definition snapshot_header : list string :=
  ["name"; "height"; "mass"; "hair_color"; "skin_color"; "eye_color";
   "birth_year"; "date"; "homeworld"].

(** The values of a row joined with single spaces, when all are text. *)
Definition joined_text (r : Petl.row) : option string :=
  PyStr.join " " <$> texts r.

(** A selected row with its synthetic key appended. *)
Definition keyed (r r1 : Petl.row) : Prop :=
  exists s, joined_text r = Some s /\ r1 = r ++ [Petl.VStr s].

(** The fields of a person the snapshot is made from. *)
Definition needed_fields : list string :=
  ["name"; "height"; "mass"; "hair_color"; "skin_color"; "eye_color";
   "birth_year"; "edited"; "homeworld"].

(** How many of the rows have the same space-joined text as [r]. *)
Definition same_text_count (rs : list Petl.row) (r : Petl.row) : Z :=
  Z.of_nat (length (List.filter
     (fun r' => bool_decide (joined_text r' = joined_text r)) rs)).

(** *** What a computation leaves alone, and what it appends *)

(** Only the request log differs between [w] and [w'], and it has grown. *)
Definition only_requests (w w' : World) : Prop :=
  remote w' = remote w /\ db w' = db w /\ clock w' = clock w
  /\ files w' = files w /\ writable w' = writable w
  /\ exists more, sent w' = sent w ++ more.

(** Every row was stamped before the current time. *)
Definition dates_below_clock (w : World) : Prop :=
  Forall (fun m => date m < clock w) (db w).

(** From [w] to [w'] the table of metadata has only grown, by the rows
    [new], each stamped during the step. *)
Definition journal_grows (w w' : World) (new : list Metadata) : Prop :=
  db w' = db w ++ new
  /\ clock w' = clock w + Z.of_nat (length new)
  /\ Forall (fun m => clock w <= date m < clock w') new.

(** Whatever its outcome, the computation only appends rows to the
    table, and the rows it appends satisfy [P]. *)
Definition journals {A} (P : list Metadata -> Prop) (c : M A) : Prop :=
  forall w, exists new, journal_grows w (snd (c w)) new /\ P new.

(** No row, or one row of the given kind. *)
Definition at_most_one (kind : string) (new : list Metadata) : Prop :=
  (length new <= 1)%nat /\ Forall (fun m => table_info_type m = kind) new.

(** *** The planets table *)

(** The row of the planets file made from a planet's record. *)
Definition planet_row (planet : Petl.record) : Petl.row :=
  [Petl.dict_get planet "name"; Petl.dict_get planet "url"].

(** The planets table made from the fetched planet records. *)
Definition planets_table_of (data : list Petl.record) : Petl.table :=
  Petl.mktable ["homeworld_name"; "url"] (map planet_row data).

Definition planets_file_name : string := "planets_info.csv".

Definition planets_file_path : string :=
  DefaultArgs.DEFAULT_FILE_DIR +:+ planets_file_name.

(** The table expression of [get_planets_data]. *)
Definition planets_view (data : list Petl.record) : Petl.view :=
  Petl.rename (Petl.cut (Petl.fromdicts data) ["name"; "url"]) [("name", "homeworld_name")].

(** *** The grouped count, step by step *)

(** The steps of [get_calcualted_table] that follow the addition of the
    synthetic key, on the table they start from. *)
Definition grouped_from_keyed (t : Petl.table) : result Petl.table :=
  rbind (rbind (rbind (rbind (Petl.aggregate_len_table "concatenated" t)
                         (Petl.join_tables "concatenated" "concatenated" t))
                  (Petl.cutout_table "concatenated"))
           (Petl.rename_table [("value", "count")]))
    Petl.distinct_table.

(** The rows are in strictly increasing order. *)
Definition strictly_increasing (rs : list Petl.row) : Prop :=
  StronglySorted (fun a b => Petl.row_leb a b = true /\ a <> b) rs.


(** ** A small remote and a few worlds, for the examples *)

Module Demo.
Import Petl.

Definition person (name home edited : string) : record :=
  [("name", VStr name); ("height", VStr "172"); ("mass", VStr "77");
   ("hair_color", VStr "blond"); ("skin_color", VStr "fair");
   ("eye_color", VStr "blue"); ("birth_year", VStr "19BBY");
   ("homeworld", VStr home); ("edited", VStr edited); ("url", VStr name)].

Definition luke : record := person "Luke" "u1" "2014-12-20T21:17:56.891000Z".
Definition leia : record := person "Leia" "u2" "2014-12-20T21:17:50.315000Z".
Definition tatooine : record :=
  [("name", VStr "Tatooine"); ("url", VStr "u1"); ("climate", VStr "arid")].

Definition ok_page (rs : list record) (nxt : option string) : result Response :=
  Ok (mkResponse 200 [("ETag", "E1")] (Ok (mkPage rs nxt))).

Definition no_body : result Page := Raise (JSONDecodeError "Expecting value").

(** Answers by the last request alone: 304 to a request carrying the
    validator [E1], the listings otherwise (people on two pages). *)
Definition remote (h : list Request) : result Response :=
  match last h with
  | None => Raise (ConnectionError "no request")
  | Some rq =>
      match request_headers rq with
      | [(_, tag)] =>
          if String.eqb tag "E1" then Ok (mkResponse 304 [("ETag", "E1")] no_body)
          else ok_page [] None
      | _ =>
          if String.eqb (url rq) "api/people" then ok_page [luke] (Some "api/people/?page=2")
          else if String.eqb (url rq) "api/people/?page=2" then ok_page [leia] None
          else ok_page [tatooine] None
      end
  end.

(** The same remote without validators. *)
Definition remote_no_etag (h : list Request) : result Response :=
  match remote h with
  | Ok r => Ok (mkResponse (status_code r) [("Content-Type", "application/json")] (json r))
  | Raise e => Raise e
  end.

(** A remote in trouble. *)
Definition remote_500 (h : list Request) : result Response :=
  Ok (mkResponse 500 [] no_body).

Definition etl : StarwarsEtl :=
  mkStarwarsEtl "api" "out.csv" "dir/out.csv"
    DefaultArgs.PEOPLE_QUERY DefaultArgs.PLANETS_QUERY.

Definition planets_file : csv := [ ["homeworld_name"; "url"]; ["Tatooine"; "u1"] ].

Definition earlier_rows : list Metadata :=
  [mkMetadata "planets_info.csv" "dir/planets_info.csv" 0 "E1" "planets";
   mkMetadata "old.csv" "dir/old.csv" 1 "E1" "people"].

Definition world (rem : list Request -> result Response) (ms : list Metadata) : World :=
  mkWorld rem [] ms 2 (<["dir/planets_info.csv" := planets_file]> ∅) (fun _ => true).

Definition first_run : World := world remote [].
Definition later_run : World := world remote earlier_rows.

Definition planets_table : table :=
  mktable ["homeworld_name"; "url"] [[VStr "Tatooine"; VStr "u1"]].


(** Two rows whose fields differ and whose space-joined texts agree. *)
Definition ambiguous_file : csv :=
  [ ["a"; "b"; "c"]; ["a b"; "c"; "x"]; ["a"; "b c"; "y"]; ["q"; "r"; "z"] ].

(** A file with a column called like the synthetic key. *)
Definition clashing_file : csv :=
  [ ["concatenated"; "x"]; ["k"; "1"]; ["k"; "2"] ].

Definition disk (content : csv) : gmap string csv := <["f.csv" := content]> ∅.

(** The columns [a], [b] of [ambiguous_file], and their grouped count. *)
Definition ambiguous_selection : table :=
  mktable ["a"; "b"]
    [[VStr "a b"; VStr "c"]; [VStr "a"; VStr "b c"]; [VStr "q"; VStr "r"]].

Definition ambiguous_grouped : table :=
  mktable ["a"; "b"; "count"]
    [[VStr "a"; VStr "b c"; VInt 2]; [VStr "a b"; VStr "c"; VInt 2];
     [VStr "q"; VStr "r"; VInt 1]].

(** Both columns of [clashing_file], and what the grouped count gives. *)
Definition clashing_selection : table :=
  mktable ["concatenated"; "x"] [[VStr "k"; VStr "1"]; [VStr "k"; VStr "2"]].

Definition clashing_grouped : table :=
  mktable ["x"; "concatenated"; "count"]
    [[VStr "1"; VStr "k 1"; VInt 2]; [VStr "2"; VStr "k 2"; VInt 2]].

End Demo.

(** More remotes, worlds and files. *)
Module Cases.
Import Petl.

(** A remote that answers every conditional request with 304, and
    serves the listings of [Demo.remote] otherwise. *)
Definition remote_unchanged (h : list Request) : result Response :=
  match last h with
  | Some rq =>
      match request_headers rq with
      | [] => Demo.remote h
      | _ => Ok (mkResponse 304 [("ETag", "E1")] Demo.no_body)
      end
  | None => Demo.remote h
  end.

(** A remote for which the planets never change and the people always
    do. *)
Definition remote_planets_unchanged (h : list Request) : result Response :=
  match last h with
  | Some rq =>
      if String.eqb (url rq) "api/planets" then remote_unchanged h else Demo.remote h
  | None => Demo.remote h
  end.

(** A listing whose only page links to itself. *)
Definition remote_cycle (h : list Request) : result Response :=
  Demo.ok_page [Demo.tatooine] (Some "api/loop").

(** The planets were stored once, and their file is gone. *)
Definition lost_planets_file : World :=
  Demo.world Demo.remote [mkMetadata "planets_info.csv" "dir/gone.csv" 0 "E1" "planets"].

(** The planets file cannot be written. *)
Definition read_only_planets : World :=
  mkWorld Demo.remote [] [] 2 ∅
    (fun path => negb (String.eqb path "starwars/downloaded_data/planets_info.csv")).

Definition people_pages : list (list record) := [[Demo.luke]; [Demo.leia]].

Definition planets_pages : list (list record) := [[Demo.tatooine]].

(** A person whose [edited] is no timestamp. *)
Definition undated : record := Demo.person "Luke" "u1" "yesterday".

(** [Demo.ambiguous_file] with its lines in another order. *)
Definition shuffled_file : csv :=
  [ ["a"; "b"; "c"]; ["q"; "r"; "z"]; ["a"; "b c"; "y"]; ["a b"; "c"; "x"] ].





End Cases.

(** * Proofs *)

(** ** Timestamps *)

Module DatetimeFacts.
Import PyStr Datetime Timestamp.

Lemma is_char_N x c : is_char x c = (N_of_ascii c =? N_of_ascii x)%N.
Proof.
  unfold is_char. destruct (Ascii.eqb_spec c x) as [->|Hne].
  - symmetry. apply N.eqb_refl.
  - symmetry. apply N.eqb_neq. intros Heq. apply Hne.
    rewrite <- (ascii_N_embedding c), <- (ascii_N_embedding x). now f_equal.
Qed.

Lemma is_char_ci_N u l c :
  is_char_ci u l c = ((N_of_ascii c =? N_of_ascii u) || (N_of_ascii c =? N_of_ascii l))%N.
Proof. unfold is_char_ci. now rewrite <- !is_char_N. Qed.



Lemma split_at_complete sep a c b :
  all_chars (fun x => negb (sep x)) a = true -> sep c = true ->
  split_at sep (a +:+ String c b) = Some (a, b).
Proof.
  intros Ha Hc. induction a as [|x a IH]; simpl in *.
  - now rewrite Hc.
  - apply andb_true_iff in Ha as [Hx Ha].
    apply negb_true_iff in Hx. rewrite Hx, (IH Ha). reflexivity.
Qed.

Ltac char_consts :=
  change (N_of_ascii "0") with 48%N in *; change (N_of_ascii "1") with 49%N in *;
  change (N_of_ascii "2") with 50%N in *; change (N_of_ascii "3") with 51%N in *;
  change (N_of_ascii "5") with 53%N in *; change (N_of_ascii "6") with 54%N in *;
  change (N_of_ascii "9") with 57%N in *; change (N_of_ascii " ") with 32%N in *;
  change (N_of_ascii "-") with 45%N in *; change (N_of_ascii ":") with 58%N in *;
  change (N_of_ascii ".") with 46%N in *; change (N_of_ascii "T") with 84%N in *;
  change (N_of_ascii "t") with 116%N in *; change (N_of_ascii "Z") with 90%N in *;
  change (N_of_ascii "z") with 122%N in *.

Ltac char_N :=
  unfold plain, is_digit, in_range in *;
  rewrite ?is_char_ci_N, ?is_char_N in *; char_consts.

Ltac bool_N :=
  repeat match goal with
    | H : context [(?a <=? ?b)%N] |- _ => destruct (N.leb_spec a b)
    | H : context [(?a =? ?b)%N] |- _ => destruct (N.eqb_spec a b)
    | |- context [(?a <=? ?b)%N] => destruct (N.leb_spec a b)
    | |- context [(?a =? ?b)%N] => destruct (N.eqb_spec a b)
    end;
  simpl in *; try discriminate; try reflexivity; try lia.

Lemma all_chars_impl (p q : ascii -> bool) s :
  (forall c, p c = true -> q c = true) ->
  all_chars p s = true -> all_chars q s = true.
Proof.
  intros Hpq. induction s as [|c s IH]; simpl; [auto|].
  rewrite !andb_true_iff. intros [Hc Hs]. auto.
Qed.

Lemma plain_not_sep c :
  plain c = true ->
  negb (is_char "-" c) = true /\ negb (is_char_ci "T" "t" c) = true
  /\ negb (is_char ":" c) = true /\ negb (is_char "." c) = true
  /\ negb (is_char_ci "Z" "z" c) = true.
Proof. intros H. char_N. repeat split; bool_N. Qed.

Ltac split_bools :=
  repeat match goal with
    | H : (_ && _) = true |- _ => apply andb_true_iff in H as [? ?]
    | H : (_ || _) = true |- _ => apply orb_true_iff in H as [H|H]
    end.

(* a fact about one character from a hypothesis about that character *)
Ltac one_char c :=
  repeat match goal with
    | H : _ |- _ => lazymatch type of H with
                    | context [c] => fail
                    | _ => clear H
                    end
    end;
  char_N; bool_N.

Ltac chars_plain :=
  simpl; rewrite ?andb_true_iff; repeat split;
  match goal with |- plain ?c = true => one_char c | |- true = true => reflexivity end.

Lemma re_Y_plain s : re_Y s = true -> all_chars plain s = true.
Proof.
  destruct s as [|a [|b [|c [|d [|]]]]]; simpl; try discriminate.
  intros H. split_bools. chars_plain.
Qed.

Lemma re_m_plain s : re_m s = true -> all_chars plain s = true.
Proof.
  destruct s as [|a [|b [|]]]; simpl; try discriminate;
    intros H; split_bools; chars_plain.
Qed.

Lemma re_d_plain s : re_d s = true -> all_chars plain s = true.
Proof.
  destruct s as [|a [|b [|]]]; simpl; try discriminate;
    intros H; split_bools; chars_plain.
Qed.

Lemma re_H_plain s : re_H s = true -> all_chars plain s = true.
Proof.
  destruct s as [|a [|b [|]]]; simpl; try discriminate;
    intros H; split_bools; chars_plain.
Qed.

Lemma re_M_plain s : re_M s = true -> all_chars plain s = true.
Proof.
  destruct s as [|a [|b [|]]]; simpl; try discriminate;
    intros H; split_bools; chars_plain.
Qed.

Lemma re_S_plain s : re_S s = true -> all_chars plain s = true.
Proof.
  destruct s as [|a [|b [|]]]; simpl; try discriminate;
    intros H; split_bools; chars_plain.
Qed.

Lemma re_f_plain s : re_f s = true -> all_chars plain s = true.
Proof.
  unfold re_f. intros H. split_bools.
  eapply all_chars_impl; [|eassumption].
  intros c Hc. unfold plain. now rewrite Hc.
Qed.

Lemma split_plain sep a c b :
  (forall x, plain x = true -> negb (sep x) = true) ->
  all_chars plain a = true -> sep c = true ->
  split_at sep (a +:+ String c b) = Some (a, b).
Proof.
  intros Hsep Ha Hc. apply split_at_complete; [|assumption].
  eapply all_chars_impl; [|eassumption]. exact Hsep.
Qed.

Lemma text_eq t z g :
  text t z g =
  gY g +:+ String "-" (gm g +:+ String "-" (gd g +:+ String t (
  gH g +:+ String ":" (gM g +:+ String ":" (gS g +:+ String "." (
  gf g +:+ String z EmptyString)))))).
Proof. reflexivity. Qed.

Lemma regex_match_complete g t z :
  groups_ok g = true -> is_char_ci "T" "t" t = true -> is_char_ci "Z" "z" z = true ->
  regex_match (text t z g) = Some g.
Proof.
  intros Hg Ht Hz. unfold regex_match, split_groups. rewrite text_eq.
  destruct g as [y mo d hh mi ss f]. unfold groups_ok in Hg. simpl in *.
  split_bools.
  rewrite (split_plain (is_char "-") y); [|apply plain_not_sep|now apply re_Y_plain|reflexivity].
  simpl.
  rewrite (split_plain (is_char "-") mo); [|apply plain_not_sep|now apply re_m_plain|reflexivity].
  simpl.
  rewrite (split_plain (is_char_ci "T" "t") d); [|apply plain_not_sep|now apply re_d_plain|assumption].
  simpl.
  rewrite (split_plain (is_char ":") hh); [|apply plain_not_sep|now apply re_H_plain|reflexivity].
  simpl.
  rewrite (split_plain (is_char ":") mi); [|apply plain_not_sep|now apply re_M_plain|reflexivity].
  simpl.
  rewrite (split_plain (is_char ".") ss); [|apply plain_not_sep|now apply re_S_plain|reflexivity].
  simpl.
  rewrite (split_plain (is_char_ci "Z" "z") f); [|apply plain_not_sep|now apply re_f_plain|assumption].
  simpl. unfold groups_ok. simpl.
  repeat match goal with H : _ = true |- _ => rewrite H end. reflexivity.
Qed.



Lemma digit_val_range a : is_digit a = true -> 0 <= digit_val a <= 9.
Proof. intros H. unfold digit_val. char_N. bool_N. Qed.

Lemma digit_not_blank a : is_digit a = true -> is_char " " a = false.
Proof. intros H. char_N. bool_N. Qed.

Lemma int2 a b :
  is_digit a = true ->
  int (String a (String b EmptyString)) = 10 * digit_val a + digit_val b.
Proof.
  intros Ha. unfold int. rewrite (digit_not_blank a Ha). simpl. lia.
Qed.

Lemma int4 a b c d :
  is_digit a = true ->
  int (String a (String b (String c (String d EmptyString))))
  = 1000 * digit_val a + 100 * digit_val b + 10 * digit_val c + digit_val d.
Proof.
  intros Ha. unfold int. rewrite (digit_not_blank a Ha). simpl. lia.
Qed.

Lemma digit_char_val a n :
  is_digit a = true -> n mod 10 = digit_val a -> digit_char n = a.
Proof.
  intros Ha Hn. unfold digit_char. rewrite Hn.
  rewrite <- (ascii_N_embedding a) at 2. f_equal.
  unfold digit_val. char_N. bool_N.
Qed.

Lemma two_digits_val a b :
  is_digit a = true -> is_digit b = true ->
  two_digits (10 * digit_val a + digit_val b) = String a (String b EmptyString).
Proof.
  intros Ha Hb. pose proof (digit_val_range a Ha). pose proof (digit_val_range b Hb).
  unfold two_digits. f_equal; [|f_equal].
  - apply digit_char_val; [assumption|]. Z.div_mod_to_equations. lia.
  - apply digit_char_val; [assumption|]. Z.div_mod_to_equations. lia.
Qed.

Lemma strftime_Y_val a b c d :
  is_digit a = true -> is_digit b = true -> is_digit c = true -> is_digit d = true ->
  1000 <= 1000 * digit_val a + 100 * digit_val b + 10 * digit_val c + digit_val d ->
  strftime_Y (1000 * digit_val a + 100 * digit_val b + 10 * digit_val c + digit_val d)
  = String a (String b (String c (String d EmptyString))).
Proof.
  intros Ha Hb Hc Hd Hy.
  pose proof (digit_val_range a Ha). pose proof (digit_val_range b Hb).
  pose proof (digit_val_range c Hc). pose proof (digit_val_range d Hd).
  unfold strftime_Y.
  repeat match goal with |- context [?x <? ?y] => destruct (Z.ltb_spec x y); [lia|] end.
  unfold two_digits. repeat f_equal.
  all: apply digit_char_val; [assumption|]; Z.div_mod_to_equations; lia.
Qed.

Lemma days_in_month_le y m : days_in_month y m <= 31.
Proof.
  unfold days_in_month.
  repeat match goal with |- context [if ?b then _ else _] => destruct b end; lia.
Qed.

Ltac field_arith :=
  unfold digit_val in *; char_N; bool_N.

Lemma re_m_of a b :
  is_digit a = true -> is_digit b = true ->
  1 <= 10 * digit_val a + digit_val b <= 12 ->
  re_m (String a (String b EmptyString)) = true.
Proof. intros Ha Hb Hv. simpl. field_arith. Qed.

Lemma re_d_of a b :
  is_digit a = true -> is_digit b = true ->
  1 <= 10 * digit_val a + digit_val b <= 31 ->
  re_d (String a (String b EmptyString)) = true.
Proof. intros Ha Hb Hv. simpl. field_arith. Qed.

Lemma re_H_of a b :
  is_digit a = true -> is_digit b = true ->
  10 * digit_val a + digit_val b <= 23 ->
  re_H (String a (String b EmptyString)) = true.
Proof. intros Ha Hb Hv. simpl. field_arith. Qed.

Lemma re_M_of a b :
  is_digit a = true -> is_digit b = true ->
  10 * digit_val a + digit_val b <= 59 ->
  re_M (String a (String b EmptyString)) = true.
Proof. intros Ha Hb Hv. simpl. field_arith. Qed.

Lemma re_S_of a b :
  is_digit a = true -> is_digit b = true ->
  10 * digit_val a + digit_val b <= 59 ->
  re_S (String a (String b EmptyString)) = true.
Proof. intros Ha Hb Hv. simpl. field_arith. Qed.

Lemma append_String c s t : String c s +:+ t = String c (s +:+ t).
Proof. reflexivity. Qed.


Lemma two_digit_inv s :
  two_digit s = true ->
  exists a b, s = String a (String b EmptyString)
              /\ is_digit a = true /\ is_digit b = true.
Proof.
  destruct s as [|a [|b [|]]]; simpl; try discriminate.
  intros H. apply andb_true_iff in H as [? ?]. eauto.
Qed.

Lemma re_Y_inv s :
  re_Y s = true ->
  exists a b c d, s = String a (String b (String c (String d EmptyString)))
    /\ is_digit a = true /\ is_digit b = true /\ is_digit c = true /\ is_digit d = true.
Proof.
  destruct s as [|a [|b [|c [|d [|]]]]]; simpl; try discriminate.
  intros H. split_bools. exists a, b, c, d. auto.
Qed.

(** A timestamp of the ISO shape naming an existing instant is parsed,
    and printed back as its own first ten characters. *)
Lemma convert_iso g :
  iso_shape g = true -> names_instant g = true -> 1000 <= year (of_groups g) ->
  convert_datetime (iso_text g) = Ok (date_prefix (iso_text g)).
Proof.
  intros Hshape Hinst Hyear.
  destruct g as [y mo d hh mi ss f]. unfold iso_shape in Hshape. simpl in Hshape.
  split_bools.
  destruct (re_Y_inv y) as (y1 & y2 & y3 & y4 & -> & Hy1 & Hy2 & Hy3 & Hy4); [assumption|].
  destruct (two_digit_inv mo) as (m1 & m2 & -> & Hm1 & Hm2); [assumption|].
  destruct (two_digit_inv d) as (d1 & d2 & -> & Hd1 & Hd2); [assumption|].
  destruct (two_digit_inv hh) as (h1 & h2 & -> & Hh1 & Hh2); [assumption|].
  destruct (two_digit_inv mi) as (i1 & i2 & -> & Hi1 & Hi2); [assumption|].
  destruct (two_digit_inv ss) as (s1 & s2 & -> & Hs1 & Hs2); [assumption|].
  unfold names_instant, of_groups in Hinst. cbn [year month day hour minute second gY gm gd gH gM gS gf] in Hinst.
  unfold of_groups in Hyear. cbn [year gY] in Hyear.
  rewrite int4 in Hinst, Hyear by assumption.
  rewrite !int2 in Hinst by assumption.
  repeat (apply andb_true_iff in Hinst as [Hinst ?]).
  repeat match goal with H : (_ <=? _) = true |- _ => apply Z.leb_le in H end.
  apply Z.leb_le in Hinst.
  match goal with H : _ <= days_in_month _ _ |- _ => pose proof (days_in_month_le
    (1000 * digit_val y1 + 100 * digit_val y2 + 10 * digit_val y3 + digit_val y4)
    (10 * digit_val m1 + digit_val m2)) end.
  assert (Hok : groups_ok (mkgroups (String y1 (String y2 (String y3 (String y4 EmptyString))))
                 (String m1 (String m2 EmptyString)) (String d1 (String d2 EmptyString))
                 (String h1 (String h2 EmptyString)) (String i1 (String i2 EmptyString))
                 (String s1 (String s2 EmptyString)) f) = true).
  { unfold groups_ok. cbn [gY gm gd gH gM gS gf].
    rewrite re_m_of, re_d_of, re_H_of, re_M_of, re_S_of by (assumption || lia).
    repeat match goal with
           | H : re_Y _ = true |- _ => rewrite H
           | H : re_f _ = true |- _ => rewrite H
           end.
    reflexivity. }
  unfold convert_datetime, strptime, iso_text.
  rewrite (regex_match_complete _ "T" "Z" Hok) by reflexivity.
  unfold validate, of_groups. cbn [year month day hour minute second gY gm gd gH gM gS gf].
  rewrite int4 by assumption. rewrite !int2 by assumption.
  repeat match goal with |- context [?x <? ?y] => destruct (Z.ltb_spec x y); [lia|] end.
  unfold rmap, rbind, strftime_date. cbn [year month day].
  rewrite strftime_Y_val by assumption. rewrite !two_digits_val by assumption.
  reflexivity.
Qed.



End DatetimeFacts.

Example convert_datetime_sample :
  convert_datetime "2014-12-09T13:50:51.644000Z" = Ok "2014-12-09".
Proof. reflexivity. Qed.




(** ** The pipeline *)

(** ** Running the computations step by step *)

Lemma bind_returns {A B} (c : M A) (k : A -> M B) w a w' :
  c w = (Returns a, w') -> bind c k w = k a w'.
Proof. intros H. unfold bind. now rewrite H. Qed.

Lemma bind_raises {A B} (c : M A) (k : A -> M B) w e w' :
  c w = (Raises e, w') -> bind c k w = (Raises e, w').
Proof. intros H. unfold bind. now rewrite H. Qed.

Lemma requests_get_ok u hs w r :
  remote w (sent w ++ [mkRequest u hs]) = Ok r ->
  requests_get u hs w = (Returns r, with_sent (sent w ++ [mkRequest u hs]) w).
Proof. intros H. unfold requests_get. now rewrite H. Qed.

Lemma requests_get_fails u hs w e :
  remote w (sent w ++ [mkRequest u hs]) = Raise e ->
  requests_get u hs w = (Raises e, with_sent (sent w ++ [mkRequest u hs]) w).
Proof. intros H. unfold requests_get. now rewrite H. Qed.

Lemma get_latest_etags_eq query w :
  get_latest_etags query w = (Returns (stored_validator query (db w)), w).
Proof.
  unfold get_latest_etags, stored_validator, bind, try_except, objects_latest, ret.
  destruct (latest_row (objects_filter query (db w))); reflexivity.
Qed.

Lemma check_for_updates_eq self query tag w r :
  remote w (sent w ++ [mkRequest (endpoint self query) [("If-None-Match", tag)]]) = Ok r ->
  check_for_updates self query tag w =
  ((if status_code r =? 304 then Returns false
    else if status_code r =? 200 then Returns true
    else Raises (RuntimeError "No active exception to reraise")),
   with_sent (sent w ++ [mkRequest (endpoint self query) [("If-None-Match", tag)]]) w).
Proof.
  intros H. unfold check_for_updates.
  rewrite (bind_returns _ _ _ _ _ (requests_get_ok _ _ _ _ H)).
  destruct (status_code r =? 304); [reflexivity|].
  destruct (status_code r =? 200); reflexivity.
Qed.

Lemma get_current_etag_ok target w r :
  remote w (sent w ++ [mkRequest target []]) = Ok r ->
  get_current_etag target w =
  (Returns (headers_get (headers r) "ETag"), with_sent (sent w ++ [mkRequest target []]) w).
Proof.
  intros H. unfold get_current_etag.
  now rewrite (bind_returns _ _ _ _ _ (requests_get_ok _ _ _ _ H)).
Qed.

Lemma endpoint_not_empty self query : endpoint self query <> "".
Proof. unfold endpoint. destruct (API_URL self); discriminate. Qed.

Lemma fetch_pages_done fuel data : fetch_pages fuel None data = ret data.
Proof. destruct fuel; reflexivity. Qed.

Lemma fetch_pages_serves rem h u pages h' :
  serves_pages rem h u pages h' ->
  forall fuel w data,
    remote w = rem -> sent w = h -> (length pages <= fuel)%nat ->
    fetch_pages fuel (Some u) data w = (Returns (data ++ concat pages), with_sent h' w).
Proof.
  induction 1 as [h u st hd rs Hu Hrem | h u st hd rs u' rest h' Hu Hrem Hrest IH];
    intros fuel w data Hw Hh Hfuel.
  - destruct u as [|c u]; [contradiction|].
    destruct fuel as [|fuel]; [simpl in Hfuel; lia|].
    cbn [fetch_pages]. subst rem h.
    rewrite (bind_returns _ _ _ _ _ (requests_get_ok _ _ _ _ Hrem)).
    cbn [json of_result bind ret next results]. rewrite fetch_pages_done.
    cbn. rewrite app_nil_r. reflexivity.
  - destruct u as [|c u]; [contradiction|].
    destruct fuel as [|fuel]; [simpl in Hfuel; lia|].
    cbn [fetch_pages]. subst rem h.
    rewrite (bind_returns _ _ _ _ _ (requests_get_ok _ _ _ _ Hrem)).
    cbn [json of_result bind ret next results].
    rewrite (IH fuel _ (data ++ rs)); [| reflexivity | reflexivity | simpl in Hfuel; lia].
    cbn. rewrite <- app_assoc. reflexivity.
Qed.

(** The outcome of [get_latest_data] when the remote says "not modified". *)
Lemma get_latest_data_not_modified fuel self query w r1 r2 :
  let target := endpoint self query in
  let h1 := sent w ++ [mkRequest target []] in
  let h2 := h1 ++ [mkRequest target [("If-None-Match", stored_validator query (db w))]] in
  remote w h1 = Ok r1 -> remote w h2 = Ok r2 -> status_code r2 = 304 ->
  get_latest_data fuel self query w =
  (Returns (headers_get (headers r1) "ETag", None), with_sent h2 w).
Proof.
  intros target h1 h2 H1 H2 H304. unfold get_latest_data.
  rewrite (bind_returns _ _ _ _ _ (get_current_etag_ok _ _ _ H1)).
  rewrite (bind_returns _ _ _ _ _ (get_latest_etags_eq _ _)).
  rewrite (bind_returns _ _ _ false (with_sent h2 w)); [reflexivity|].
  rewrite (check_for_updates_eq self query _ _ r2) by exact H2.
  rewrite H304. reflexivity.
Qed.

(** The whole run when the people listing is not modified. *)
Lemma get_people_data_not_modified fuel self w r1 r2 e prior :
  let query := people_query self in
  let target := endpoint self query in
  let h1 := sent w ++ [mkRequest target []] in
  let h2 := h1 ++ [mkRequest target [("If-None-Match", stored_validator query (db w))]] in
  remote w h1 = Ok r1 -> headers_get (headers r1) "ETag" = Some e ->
  remote w h2 = Ok r2 -> status_code r2 = 304 ->
  latest_row (objects_filter query (db w)) = Some prior ->
  get_people_data fuel self w =
  (Returns "Nothing has been updated",
   mkWorld (remote w) h2
     (db w ++ [mkMetadata (CSV_FILE_NAME self) (file_path prior) (clock w) e query])
     (clock w + 1) (files w) (writable w)).
Proof.
  intros query target h1 h2 H1 He H2 H304 Hprior. unfold get_people_data.
  rewrite (bind_returns _ _ _ _ _
             (get_latest_data_not_modified fuel self query w r1 r2 H1 H2 H304)).
  cbn [snd fst table_truth]. unfold bind at 1. cbn [ret].
  unfold bind, objects_latest, _log_new_metadata, objects_create, ret.
  cbn [db with_sent]. fold query. rewrite Hprior, He. reflexivity.
Qed.

(** ** Invariants kept by the computations *)

Section Keeps.
Context (I : World -> Prop).

Lemma keeps_ret {A} (a : A) : keeps I (ret a).
Proof. intros w Hw. exact Hw. Qed.

Lemma keeps_raise {A} e : keeps I (@raise A e).
Proof. intros w Hw. exact Hw. Qed.

Lemma keeps_bind {A B} (c : M A) (k : A -> M B) :
  keeps I c -> (forall a, keeps I (k a)) -> keeps I (bind c k).
Proof.
  intros Hc Hk w Hw. unfold bind. specialize (Hc w Hw).
  destruct (c w) as [[a| |] w']; simpl in *; try assumption.
  now apply Hk.
Qed.

Lemma keeps_try {A} (c : M A) (h : exn -> M A) :
  keeps I c -> (forall e, keeps I (h e)) -> keeps I (try_except c h).
Proof.
  intros Hc Hh w Hw. unfold try_except. specialize (Hc w Hw).
  destruct (c w) as [[a| |] w']; simpl in *; try assumption.
  now apply Hh.
Qed.

Lemma keeps_of_result {A} (r : result A) : keeps I (of_result r).
Proof. destruct r; [apply keeps_ret | apply keeps_raise]. Qed.

Lemma keeps_objects_latest query : keeps I (objects_latest query).
Proof.
  intros w Hw. unfold objects_latest.
  destruct (latest_row _); exact Hw.
Qed.

Lemma keeps_print_table v : keeps I (print_table v).
Proof. intros w Hw. unfold print_table. destruct (v _); exact Hw. Qed.

Lemma keeps_table_truth t : keeps I (table_truth t).
Proof.
  destruct t as [v|]; [|apply keeps_ret].
  intros w Hw. simpl. destruct (v _); exact Hw.
Qed.

Lemma keeps_get_latest_etags query : keeps I (get_latest_etags query).
Proof. intros w Hw. now rewrite get_latest_etags_eq. Qed.

Section Requests.
Hypothesis Hsent : sent_blind I.

Lemma keeps_requests_get u hs : keeps I (requests_get u hs).
Proof.
  intros w Hw. unfold requests_get.
  destruct (remote w _); simpl; now apply Hsent.
Qed.

Lemma keeps_fetch_pages fuel target data : keeps I (fetch_pages fuel target data).
Proof.
  revert target data. induction fuel as [|fuel IH]; intros [[|c u]|] data;
    try apply keeps_ret.
  - intros w Hw. exact Hw.
  - cbn [fetch_pages]. apply keeps_bind; [apply keeps_requests_get|].
    intros r. apply keeps_bind; [apply keeps_of_result|].
    intros p. apply IH.
Qed.

Lemma keeps_check_for_updates self query tag :
  keeps I (check_for_updates self query tag).
Proof.
  unfold check_for_updates. apply keeps_bind; [apply keeps_requests_get|].
  intros r. destruct (_ =? 304); [apply keeps_ret|].
  destruct (negb _); [apply keeps_raise | apply keeps_ret].
Qed.

Lemma keeps_get_current_etag target : keeps I (get_current_etag target).
Proof.
  unfold get_current_etag. apply keeps_bind; [apply keeps_requests_get|].
  intros r. apply keeps_ret.
Qed.

Lemma keeps_get_latest_data fuel self query :
  keeps I (get_latest_data fuel self query).
Proof.
  unfold get_latest_data.
  apply keeps_bind; [apply keeps_get_current_etag|]. intros tag.
  apply keeps_bind; [apply keeps_get_latest_etags|]. intros old.
  apply keeps_bind; [apply keeps_check_for_updates|]. intros [|].
  - apply keeps_bind; [apply keeps_fetch_pages|]. intros d. apply keeps_ret.
  - apply keeps_ret.
Qed.
End Requests.

Lemma keeps_tocsv v path : files_blind I -> keeps I (tocsv v path).
Proof.
  intros Hfiles w Hw. unfold tocsv.
  destruct (writable w path); [|exact Hw].
  destruct (v _); simpl; now apply Hfiles.
Qed.

Lemma keeps_objects_create name path kind tag :
  row_blind kind I -> keeps I (objects_create name path kind tag).
Proof.
  intros Hrow w Hw. unfold objects_create.
  destruct tag; simpl; [|exact Hw]. now apply Hrow.
Qed.

Lemma keeps_save_data_to_csv v name path kind tag :
  files_blind I -> row_blind kind I ->
  keeps I (save_data_to_csv v name path kind tag).
Proof.
  intros Hfiles Hrow. unfold save_data_to_csv, _log_new_metadata.
  apply keeps_try.
  - apply keeps_bind; [now apply keeps_tocsv|]. intros _.
    apply keeps_bind; [now apply keeps_objects_create|]. intros _.
    apply keeps_ret.
  - intros e. apply keeps_ret.
Qed.
End Keeps.

Lemma objects_filter_app query ms ms' :
  objects_filter query (ms ++ ms') = objects_filter query ms ++ objects_filter query ms'.
Proof. unfold objects_filter. apply List.filter_app. Qed.

Lemma kind_rows_sent_blind rem kind ms : sent_blind (kind_rows_are rem kind ms).
Proof. intros w h Hw. exact Hw. Qed.

Lemma kind_rows_files_blind rem kind ms : files_blind (kind_rows_are rem kind ms).
Proof. intros w fs Hw. exact Hw. Qed.

Lemma kind_rows_row_blind rem kind ms other :
  other <> kind -> row_blind other (kind_rows_are rem kind ms).
Proof.
  intros Hne w m Hm [Hrem Hrows]. split; [exact Hrem|].
  unfold rows_of_kind in *. cbn [db with_row].
  rewrite objects_filter_app, Hrows. cbn.
  rewrite Hm. destruct (String.eqb_spec other kind); [contradiction|].
  apply app_nil_r.
Qed.

(** With an unchanged validator on a remote that honours it, the check
    of a listing never reports an update. *)
Lemma get_latest_data_unchanged fuel self query w e :
  honours_validators (remote w) ->
  current_validator (remote w) (endpoint self query) e ->
  stored_validator query (db w) = e ->
  (exists x h, get_latest_data fuel self query w = (Raises x, with_sent h w))
  \/ (exists h, get_latest_data fuel self query w = (Returns (Some e, None), with_sent h w)).
Proof.
  intros Hhon Hcur Hold.
  destruct (remote w (sent w ++ [mkRequest (endpoint self query) []])) as [r1|x] eqn:H1.
  - right. pose proof (Hcur _ _ H1) as He.
    destruct (Hhon _ _ _ _ H1 He) as (r2 & H2 & H304).
    eexists. rewrite <- Hold in H2.
    rewrite (get_latest_data_not_modified fuel self query w r1 r2 H1 H2 H304).
    rewrite He. reflexivity.
  - left. exists x. eexists. unfold get_latest_data, get_current_etag.
    erewrite bind_raises; [reflexivity|].
    erewrite bind_raises; [reflexivity|].
    now apply requests_get_fails.
Qed.

Lemma keeps_get_planets_data fuel self rem ms :
  honours_validators rem ->
  current_validator rem (endpoint self (planets_query self))
    (match latest_row ms with Some m => etag m | None => "" end) ->
  keeps (kind_rows_are rem (planets_query self) ms) (get_planets_data fuel self).
Proof.
  intros Hhon Hcur w [Hrem Hrows]. unfold get_planets_data.
  destruct (get_latest_data_unchanged fuel self (planets_query self) w
              (match latest_row ms with Some m => etag m | None => "" end))
    as [(x & h & Hrun) | (h & Hrun)].
  - now rewrite Hrem.
  - now rewrite Hrem.
  - unfold stored_validator. unfold rows_of_kind in Hrows. now rewrite Hrows.
  - rewrite (bind_raises _ _ _ _ _ Hrun). now split.
  - rewrite (bind_returns _ _ _ _ _ Hrun). cbn [snd table_truth].
    unfold bind at 1. cbn [ret].
    apply keeps_bind; [apply keeps_objects_latest|intros m; apply keeps_ret|].
    now split.
Qed.

Lemma keeps_get_people_data fuel self rem ms :
  people_query self <> planets_query self ->
  honours_validators rem ->
  current_validator rem (endpoint self (planets_query self))
    (match latest_row ms with Some m => etag m | None => "" end) ->
  keeps (kind_rows_are rem (planets_query self) ms) (get_people_data fuel self).
Proof.
  intros Hne Hhon Hcur. unfold get_people_data.
  apply keeps_bind; [apply keeps_get_latest_data, kind_rows_sent_blind|]. intros info.
  apply keeps_bind; [apply keeps_table_truth|]. intros [|].
  - apply keeps_bind.
    + unfold fix_planets_info_and_columns.
      apply keeps_bind; [now apply keeps_get_planets_data|]. intros pt.
      destruct (snd info); [apply keeps_ret | apply keeps_raise].
    + intros v. apply keeps_bind; [apply keeps_print_table|]. intros _.
      apply keeps_save_data_to_csv;
        [apply kind_rows_files_blind | now apply kind_rows_row_blind].
  - apply keeps_bind; [apply keeps_objects_latest|]. intros m.
    apply keeps_bind; [|intros _; apply keeps_ret].
    unfold _log_new_metadata. apply keeps_objects_create.
    now apply kind_rows_row_blind.
Qed.

(** ** The remote of the examples *)

Lemma demo_remote_last h rq : Demo.remote (h ++ [rq]) = Demo.remote [rq].
Proof. unfold Demo.remote. now rewrite last_snoc. Qed.

Lemma demo_remote_tag h u r e :
  Demo.remote (h ++ [mkRequest u []]) = Ok r ->
  headers_get (headers r) "ETag" = Some e -> e = "E1".
Proof.
  rewrite demo_remote_last. unfold Demo.remote. cbn.
  repeat match goal with |- context [if ?b then _ else _] => destruct b end;
    intros [= <-] He; vm_compute in He; congruence.
Qed.

Lemma demo_remote_honours : honours_validators Demo.remote.
Proof.
  intros h u e r Hr He. rewrite (demo_remote_tag h u r e Hr He).
  rewrite demo_remote_last. eexists. split; reflexivity.
Qed.

Lemma demo_remote_current u : current_validator Demo.remote u "E1".
Proof.
  intros h r. rewrite demo_remote_last. unfold Demo.remote. cbn.
  repeat match goal with |- context [if ?b then _ else _] => destruct b end;
    intros [= <-]; reflexivity.
Qed.

(** ** The properties *)



(** C2, kind by kind: on a remote that honours validators, for every kind
    whose stored validator is the one the remote reports, the check
    answers "no update"; a run then creates no row of the planets kind,
    and for the people kind it appends the one row that journals the
    reuse of the latest earlier snapshot. *)
Theorem C2_unchanged_validator_no_update fuel self w :
  honours_validators (remote w) ->
  (forall query r1,
      let h1 := sent w ++ [mkRequest (endpoint self query) []] in
      remote w h1 = Ok r1 ->
      headers_get (headers r1) "ETag" = Some (stored_validator query (db w)) ->
      fst (check_for_updates self query (stored_validator query (db w)) (with_sent h1 w))
      = Returns false)
  /\ (people_query self <> planets_query self ->
      current_validator (remote w) (endpoint self (planets_query self))
        (stored_validator (planets_query self) (db w)) ->
      rows_of_kind (planets_query self) (snd (start_starwars_data_ingestion fuel self w))
      = rows_of_kind (planets_query self) w)
  /\ (forall r1 prior,
      remote w (sent w ++ [mkRequest (endpoint self (people_query self)) []]) = Ok r1 ->
      headers_get (headers r1) "ETag" = Some (stored_validator (people_query self) (db w)) ->
      latest_row (objects_filter (people_query self) (db w)) = Some prior ->
      exists row,
        db (snd (start_starwars_data_ingestion fuel self w)) = db w ++ [row]
        /\ table_info_type row = people_query self
        /\ file_path row = file_path prior).
Proof.
  intros Hhon. split; [|split].
  - intros query r1 h1 H1 He.
    destruct (Hhon _ _ _ _ H1 He) as (r2 & H2 & H304).
    rewrite (check_for_updates_eq self query _ (with_sent h1 w) r2) by exact H2.
    rewrite H304. reflexivity.
  - intros Hne Hcur.
    apply (keeps_get_people_data fuel self (remote w)
             (rows_of_kind (planets_query self) w) Hne Hhon Hcur w).
    split; reflexivity.
  - intros r1 prior H1 He Hprior.
    destruct (Hhon _ _ _ _ H1 He) as (r2 & H2 & H304).
    unfold start_starwars_data_ingestion.
    rewrite (get_people_data_not_modified fuel self w r1 r2 _ prior H1 He H2 H304 Hprior).
    eexists. repeat split.
Qed.

Lemma C2_witness :
  rows_of_kind "planets" (snd (start_starwars_data_ingestion 3 Demo.etl Demo.later_run))
  = rows_of_kind "planets" Demo.later_run.
Proof.
  apply (proj1 (proj2 (C2_unchanged_validator_no_update 3 Demo.etl Demo.later_run
                         demo_remote_honours))).
  - discriminate.
  - apply demo_remote_current.
Defined.

(** C2 does not hold for the people kind: stored and current validator
    agree, the check reports no update, and the run still adds a people
    row. *)
Lemma C2_counterexample :
  stored_validator "people" (db Demo.later_run) = "E1"
  /\ fst (get_current_etag (endpoint Demo.etl "people") Demo.later_run) = Returns (Some "E1")
  /\ fst (get_latest_data 3 Demo.etl "people" Demo.later_run) = Returns (Some "E1", None)
  /\ rows_of_kind "people" (snd (start_starwars_data_ingestion 3 Demo.etl Demo.later_run))
     <> rows_of_kind "people" Demo.later_run.
Proof.
  repeat split; try (vm_compute; reflexivity).
  intros H. apply (f_equal length) in H. vm_compute in H. discriminate H.
Qed.

(** C4: when the listing is served as N pages of K records each, linked
    by their next links and ended by a null link, [get_latest_data]
    (given N iterations) returns the table of the N*K records in page
    order, having stopped at the null link. *)
Theorem C4_pagination_collects_all_pages fuel self query w r1 r2 pages N K h' :
  let target := endpoint self query in
  let h1 := sent w ++ [mkRequest target []] in
  let h2 := h1 ++ [mkRequest target [("If-None-Match", stored_validator query (db w))]] in
  remote w h1 = Ok r1 -> remote w h2 = Ok r2 -> status_code r2 = 200 ->
  serves_pages (remote w) h2 target pages h' ->
  length pages = N -> Forall (fun p => length p = K) pages -> (N <= fuel)%nat ->
  get_latest_data fuel self query w
  = (Returns (headers_get (headers r1) "ETag", Some (Petl.fromdicts (concat pages))),
     with_sent h' w)
  /\ length (concat pages) = (N * K)%nat
  /\ length (Petl.rows (Petl.fromdicts_table (concat pages))) = (N * K)%nat
  /\ Petl.rows (Petl.fromdicts_table (concat pages))
     = map (fun o => map (Petl.dict_get o) (Petl.header (Petl.fromdicts_table (concat pages))))
           (concat pages).
Proof.
  intros target h1 h2 H1 H2 H200 Hpages HN HK Hfuel.
  assert (Hlen : length (concat pages) = (N * K)%nat).
  { subst N. clear -HK. induction HK as [|p ps Hp _ IH]; [reflexivity|].
    cbn. rewrite length_app, IH, Hp. reflexivity. }
  split; [|split; [exact Hlen|split]].
  - unfold get_latest_data.
    rewrite (bind_returns _ _ _ _ _ (get_current_etag_ok _ _ _ H1)).
    rewrite (bind_returns _ _ _ _ _ (get_latest_etags_eq _ _)).
    rewrite (bind_returns _ _ _ true (with_sent h2 w)).
    + rewrite (bind_returns _ _ _ (concat pages) (with_sent h' w)); [reflexivity|].
      apply (fetch_pages_serves (remote w) h2 target pages h' Hpages fuel
               (with_sent h2 w) []); [reflexivity | reflexivity | lia].
    + rewrite (check_for_updates_eq self query _ _ r2) by exact H2.
      rewrite H200. reflexivity.
  - cbn. rewrite length_map. exact Hlen.
  - reflexivity.
Qed.

Lemma C4_witness :
  fst (get_latest_data 2 Demo.etl "people" Demo.first_run)
  = Returns (Some "E1", Some (Petl.fromdicts (concat [[Demo.luke]; [Demo.leia]])))
  /\ length (concat [[Demo.luke]; [Demo.leia]]) = (2 * 1)%nat.
Proof.
  pose proof (C4_pagination_collects_all_pages 2 Demo.etl "people" Demo.first_run
    (mkResponse 200 [("ETag", "E1")] (Ok (mkPage [Demo.luke] (Some "api/people/?page=2"))))
    (mkResponse 200 [("ETag", "E1")] (Ok (mkPage [] None)))
    [[Demo.luke]; [Demo.leia]] 2 1
    ((([] ++ [mkRequest "api/people" []]) ++ [mkRequest "api/people" [("If-None-Match", "")]])
       ++ [mkRequest "api/people" []] ++ [mkRequest "api/people/?page=2" []])) as H.
  destruct H as (Hrun & Hlen & _).
  - reflexivity.
  - reflexivity.
  - reflexivity.
  - eapply serves_next; [discriminate | reflexivity |].
    match goal with |- serves_pages _ ?h _ _ ?h' =>
      change h' with (h ++ [mkRequest "api/people/?page=2" []]) end.
    eapply serves_last; [discriminate | reflexivity].
  - reflexivity.
  - repeat constructor.
  - lia.
  - split; [|exact Hlen]. now rewrite Hrun.
Defined.

(** C5, with the exception the code raises: whatever status answers
    the conditional request, [check_for_updates] returns false exactly for 304 and true exactly
    for 200; for any other status it raises the [RuntimeError] of a bare
    [raise], which carries no status code. *)
Theorem C5_check_for_updates_by_status self query tag w r :
  remote w (sent w ++ [mkRequest (endpoint self query) [("If-None-Match", tag)]]) = Ok r ->
  let out := fst (check_for_updates self query tag w) in
  (out = Returns false <-> status_code r = 304)
  /\ (out = Returns true <-> status_code r = 200)
  /\ (out = Raises (RuntimeError "No active exception to reraise")
      <-> status_code r <> 304 /\ status_code r <> 200).
Proof.
  intros H out. subst out. rewrite (check_for_updates_eq self query tag w r H).
  cbn [fst].
  destruct (Z.eqb_spec (status_code r) 304) as [E304|N304];
    [|destruct (Z.eqb_spec (status_code r) 200) as [E200|N200]].
  - intuition (congruence || lia).
  - intuition (congruence || lia).
  - intuition (congruence || lia).
Qed.

Lemma C5_witness :
  fst (check_for_updates Demo.etl "people" "E1" Demo.later_run) = Returns false.
Proof.
  apply (proj1 (C5_check_for_updates_by_status Demo.etl "people" "E1" Demo.later_run
                  (mkResponse 304 [("ETag", "E1")] Demo.no_body) eq_refl)).
  reflexivity.
Defined.

(** C5 does not hold on a status 500: the exception raised is not one
    that carries the status code. *)
Lemma C5_counterexample :
  remote (Demo.world Demo.remote_500 [])
    [mkRequest (endpoint Demo.etl "people") [("If-None-Match", "")]]
  = Ok (mkResponse 500 [] Demo.no_body)
  /\ fst (check_for_updates Demo.etl "people" "" (Demo.world Demo.remote_500 []))
     = Raises (RuntimeError "No active exception to reraise")
  /\ fst (check_for_updates Demo.etl "people" "" (Demo.world Demo.remote_500 []))
     <> Raises (RemoteApiError 500).
Proof. repeat split. vm_compute. discriminate. Qed.

Lemma tocsv_store v path w o w1 :
  tocsv v path w = (o, w1) -> db w1 = db w /\ clock w1 = clock w.
Proof.
  unfold tocsv. destruct (writable w path).
  - destruct (v _); intros [= <- <-]; split; reflexivity.
  - intros [= <- <-]; split; reflexivity.
Qed.



(** C8 at a response without an [ETag] header: [get_current_etag]
    returns [None], not the empty string; with the header it returns the
    header's value. *)
Theorem C8_get_current_etag_without_header :
  remote (Demo.world Demo.remote_no_etag []) [mkRequest "api/people" []]
  = Ok (mkResponse 200 [("Content-Type", "application/json")]
          (Ok (mkPage [Demo.luke] (Some "api/people/?page=2"))))
  /\ fst (get_current_etag "api/people" (Demo.world Demo.remote_no_etag [])) = Returns None
  /\ fst (get_current_etag "api/people" (Demo.world Demo.remote_no_etag []))
     <> Returns (Some "")
  /\ fst (get_current_etag "api/people" (Demo.world Demo.remote [])) = Returns (Some "E1").
Proof. repeat split. vm_compute. discriminate. Qed.

(** ** Tables *)

Module PetlFacts.
Import Petl.

(** *** Sorting *)
Section SortFacts.
Context {A K : Type} (key : A -> K) (leb : K -> K -> bool).

Lemma insert_sorted_perm x l : Permutation (insert_sorted key leb x l) (x :: l).
Proof.
  induction l as [|y l IH]; simpl; [reflexivity|].
  destruct (leb (key x) (key y)); [reflexivity|].
  rewrite IH. apply perm_swap.
Qed.

Lemma sort_by_perm l : Permutation (sort_by key leb l) l.
Proof.
  induction l as [|x l IH]; simpl; [reflexivity|].
  rewrite insert_sorted_perm. now rewrite IH.
Qed.

Lemma sort_by_In x l : In x (sort_by key leb l) <-> In x l.
Proof.
  split; apply Permutation_in; [|symmetry]; apply sort_by_perm.
Qed.

Hypothesis leb_total : forall a b, leb a b = true \/ leb b a = true.
Hypothesis leb_trans : forall a b c, leb a b = true -> leb b c = true -> leb a c = true.

Lemma insert_sorted_sorted x l :
  StronglySorted (key_le key leb) l -> StronglySorted (key_le key leb) (insert_sorted key leb x l).
Proof.
  induction 1 as [|y l Hl IH Hy]; simpl.
  - repeat constructor.
  - destruct (leb (key x) (key y)) eqn:E.
    + constructor; [now constructor|].
      constructor; [exact E|].
      apply List.Forall_forall. intros z Hz.
      rewrite List.Forall_forall in Hy. unfold key_le in *. eauto.
    + constructor; [exact IH|].
      apply List.Forall_forall. intros z Hz.
      apply (Permutation_in _ (insert_sorted_perm x l)) in Hz.
      destruct Hz as [<-|Hz].
      * destruct (leb_total (key x) (key y)); [congruence|assumption].
      * rewrite List.Forall_forall in Hy. now apply Hy.
Qed.

Lemma sort_by_sorted l : StronglySorted (key_le key leb) (sort_by key leb l).
Proof.
  induction l as [|x l IH]; simpl; [constructor|].
  now apply insert_sorted_sorted.
Qed.

Lemma sorted_keys l :
  StronglySorted (key_le key leb) l ->
  StronglySorted (fun a b => leb a b = true) (map key l).
Proof.
  induction 1 as [|y l Hl IH Hy]; simpl; constructor; [exact IH|].
  apply List.Forall_map. exact Hy.
Qed.
End SortFacts.

(** *** The order on values *)

Lemma value_cmp_eq a b : value_cmp a b = Eq -> a = b.
Proof.
  destruct a, b; simpl; try discriminate; try reflexivity.
  - intros H. apply String_as_OT.cmp_eq in H. now subst.
  - intros H. apply Z.compare_eq in H. now subst.
Qed.

Lemma value_cmp_antisym a b : value_cmp a b = CompOpp (value_cmp b a).
Proof.
  destruct a, b; simpl; try reflexivity.
  - apply String_as_OT.cmp_antisym.
  - apply Z.compare_antisym.
Qed.

Lemma value_leb_total a b : value_leb a b = true \/ value_leb b a = true.
Proof.
  unfold value_leb. rewrite (value_cmp_antisym b a).
  destruct (value_cmp a b); simpl; auto.
Qed.

Lemma value_leb_antisym a b :
  value_leb a b = true -> value_leb b a = true -> a = b.
Proof.
  unfold value_leb. rewrite (value_cmp_antisym b a).
  destruct (value_cmp a b) eqn:E; simpl; try discriminate.
  intros _ _. now apply value_cmp_eq.
Qed.

Lemma string_le_trans a b c :
  String.compare a b <> Gt -> String.compare b c <> Gt -> String.compare a c <> Gt.
Proof.
  intros Hab Hbc.
  destruct (String.compare a b) eqn:E1; [| |congruence].
  - apply String_as_OT.cmp_eq in E1. now subst.
  - destruct (String.compare b c) eqn:E2; [| |congruence].
    + apply String_as_OT.cmp_eq in E2. subst. congruence.
    + apply String_as_OT.cmp_lt in E1, E2.
      pose proof (String_as_OT.lt_trans _ _ _ E1 E2) as E3.
      apply String_as_OT.cmp_lt in E3. unfold String_as_OT.cmp in E3. congruence.
Qed.

Lemma value_leb_trans a b c :
  value_leb a b = true -> value_leb b c = true -> value_leb a c = true.
Proof.
  unfold value_leb. destruct a, b, c; simpl; try congruence.
  - intros Hab Hbc.
    assert (String.compare s s1 <> Gt).
    { apply (string_le_trans s s0 s1).
      - destruct (String.compare s s0); congruence.
      - destruct (String.compare s0 s1); congruence. }
    destruct (String.compare s s1); congruence.
  - destruct (Z.compare_spec n n0), (Z.compare_spec n0 n1), (Z.compare_spec n n1);
      try congruence; lia.
Qed.

(** *** Counting runs of equal keys *)

Lemma group_count_head k ks :
  exists n g, group_count (k :: ks) = (k, n) :: g.
Proof.
  simpl. destruct (group_count ks) as [|[k' n'] g]; [eauto|].
  destruct (value_eqb k k'); eauto.
Qed.

Lemma value_eqb_true a b : value_eqb a b = true <-> a = b.
Proof. unfold value_eqb. apply bool_decide_eq_true. Qed.

Lemma occurrences_cons_eq k ks : occurrences k (k :: ks) = occurrences k ks + 1.
Proof. unfold occurrences. rewrite count_occ_cons_eq by reflexivity. lia. Qed.

Lemma occurrences_cons_neq k k' ks :
  k' <> k -> occurrences k (k' :: ks) = occurrences k ks.
Proof. intros H. unfold occurrences. now rewrite count_occ_cons_neq. Qed.

Lemma occurrences_absent k ks : ~ In k ks -> occurrences k ks = 0.
Proof.
  intros H. unfold occurrences.
  apply (count_occ_not_In value_eq_dec) in H. now rewrite H.
Qed.

Lemma group_count_sorted ks :
  StronglySorted (fun a b => value_leb a b = true) ks ->
  List.NoDup (map fst (group_count ks))
  /\ forall k n, In (k, n) (group_count ks) -> In k ks /\ n = occurrences k ks.
Proof.
  induction 1 as [|k0 ks Hs IH Hk0]; [split; [constructor|intros ? ? []]|].
  destruct IH as [Hnodup Hcount].
  cbn [group_count].
  destruct (group_count ks) as [|[k' n'] g] eqn:Eg.
  - assert (ks = []) as ->.
    { destruct ks as [|k1 ks1]; [reflexivity|].
      destruct (group_count_head k1 ks1) as (n & g & E). congruence. }
    split; [constructor; [intros []|constructor]|].
    intros k n [[= <- <-]|[]]. split; [now left|]. now rewrite occurrences_cons_eq.
  - destruct (value_eqb k0 k') eqn:E.
    + apply value_eqb_true in E. subst k'.
      split; [exact Hnodup|].
      intros k n [[= <- <-]|Hin].
      * split; [now left|]. rewrite occurrences_cons_eq.
        destruct (Hcount k0 n' (or_introl eq_refl)) as [_ ->]. reflexivity.
      * destruct (Hcount k n (or_intror Hin)) as [Hk ->].
        split; [now right|]. rewrite occurrences_cons_neq; [reflexivity|].
        intros ->. inversion Hnodup as [|? ? Hnot _]. apply Hnot.
        change k with (fst (k, occurrences k ks)). now apply in_map.
    + assert (Hfresh : ~ In k0 ks).
      { intros Hin. destruct ks as [|k1 ks1]; [destruct Hin|].
        destruct (group_count_head k1 ks1) as (n & g0 & Eh).
        rewrite Eh in Eg. injection Eg as <- _ _.
        inversion Hs as [|? ? _ Hk1]; subst.
        assert (value_leb k0 k1 = true).
        { rewrite List.Forall_forall in Hk0. apply Hk0. now left. }
        assert (value_leb k1 k0 = true).
        { destruct Hin as [->|Hin]; [assumption|].
          rewrite List.Forall_forall in Hk1. now apply Hk1. }
        assert (k0 = k1) by now apply value_leb_antisym.
        subst. unfold value_eqb in E. rewrite bool_decide_eq_false in E. now apply E. }
      split.
      * change (List.NoDup (k0 :: map fst ((k', n') :: g))).
        constructor; [|exact Hnodup].
        intros Hin. apply in_map_iff in Hin as ([k n] & <- & Hin).
        apply Hfresh. now apply (Hcount k n).
      * intros k n [[= <- <-]|Hin].
        -- split; [now left|]. rewrite occurrences_cons_eq, occurrences_absent by assumption.
           reflexivity.
        -- destruct (Hcount k n Hin) as [Hk ->]. split; [now right|].
           rewrite occurrences_cons_neq; [reflexivity|]. intros ->. now apply Hfresh.
Qed.

Lemma group_count_complete ks k :
  In k ks -> exists n, In (k, n) (group_count ks).
Proof.
  induction ks as [|k0 ks IH]; [intros []|].
  intros [->|Hin].
  - destruct (group_count_head k ks) as (n & g & E). exists n. rewrite E. now left.
  - destruct (IH Hin) as (n & Hn). cbn [group_count].
    destruct (group_count ks) as [|[k' n'] g]; [destruct Hn|].
    destruct (value_eqb k0 k') eqn:E.
    + apply value_eqb_true in E. subst k'.
      destruct Hn as [[= <- <-]|Hn]; [exists (n' + 1); now left|].
      exists n. now right.
    + exists n. now right.
Qed.

(** *** Repeated rows *)

Lemma drop_repeats_In x l : In x (drop_repeats l) <-> In x l.
Proof.
  induction l as [|y l IH]; [reflexivity|].
  cbn [drop_repeats]. destruct l as [|z l]; [reflexivity|].
  destruct (bool_decide (y = z)) eqn:E.
  - apply bool_decide_eq_true in E. subst z. rewrite IH.
    split; [now right|]. intros [<-|H]; [now left|exact H].
  - cbn [In]. rewrite IH. reflexivity.
Qed.

(** *** Fields *)

Lemma index_of_bound f hdr i : index_of f hdr = Some i -> (i < length hdr)%nat.
Proof.
  revert i. induction hdr as [|h hdr IH]; intros i; simpl; [discriminate|].
  destruct (String.eqb h f).
  - intros [= <-]. lia.
  - destruct (index_of f hdr); simpl; [|discriminate].
    intros [= <-]. specialize (IH _ eq_refl). lia.
Qed.

Lemma index_of_In f hdr : In f hdr -> exists i, index_of f hdr = Some i.
Proof.
  induction hdr as [|h hdr IH]; [intros []|]. intros Hin. simpl.
  destruct (String.eqb_spec h f); [eauto|].
  destruct Hin as [?|Hin]; [contradiction|].
  destruct (IH Hin) as (i & ->). simpl. eauto.
Qed.

Lemma index_of_app_l f hdr tl i :
  index_of f hdr = Some i -> index_of f (hdr ++ tl) = Some i.
Proof.
  revert i. induction hdr as [|h hdr IH]; intros i; simpl; [discriminate|].
  destruct (String.eqb h f); [auto|].
  destruct (index_of f hdr); simpl; [|discriminate].
  intros [= <-]. now rewrite (IH _ eq_refl).
Qed.

Lemma index_of_app_r f hdr tl :
  ~ In f hdr -> index_of f (hdr ++ f :: tl) = Some (length hdr).
Proof.
  induction hdr as [|h hdr IH]; intros Hnot; simpl.
  - now rewrite String.eqb_refl.
  - destruct (String.eqb_spec h f); [exfalso; apply Hnot; now left|].
    rewrite IH; [reflexivity|]. intros H. apply Hnot. now right.
Qed.

Lemma field_app_l i (r tl : row) :
  (i < length r)%nat -> field i (r ++ tl) = field i r.
Proof. intros H. unfold field. now apply app_nth1. Qed.

Lemma field_app_r (r tl : row) : field (length r) (r ++ tl) = field 0 tl.
Proof. unfold field. rewrite app_nth2 by lia. now rewrite Nat.sub_diag. Qed.

Lemma remove_nth_app {A} (l : list A) x tl :
  remove_nth (length l) (l ++ x :: tl) = l ++ tl.
Proof. induction l as [|y l IH]; simpl; [reflexivity|]. now rewrite IH. Qed.

(** *** Rows of a join *)

Lemma join_rows lkey rkey l r li ri :
  index_of lkey (header l) = Some li -> index_of rkey (header r) = Some ri ->
  exists t, join_tables lkey rkey l r = Ok t
    /\ header t = header l ++ remove_nth ri (header r)
    /\ forall x, In x (rows t) <->
         exists lr rr, In lr (rows l) /\ In rr (rows r)
           /\ field li lr = field ri rr /\ x = lr ++ remove_nth ri rr.
Proof.
  intros Hl Hr. unfold join_tables, asindex. rewrite Hl, Hr. cbn [rbind].
  eexists. split; [reflexivity|]. split; [reflexivity|].
  intros x. cbn [rows]. rewrite in_flat_map. split.
  - intros (lr & Hlr & Hx). apply in_map_iff in Hx as (rr & <- & Hrr).
    apply filter_In in Hrr as [Hrr Heq].
    apply sort_by_In in Hlr, Hrr. apply value_eqb_true in Heq.
    exists lr, rr. auto.
  - intros (lr & rr & Hlr & Hrr & Heq & ->).
    exists lr. split; [now apply sort_by_In|].
    apply in_map_iff. exists rr. split; [reflexivity|].
    apply filter_In. split; [now apply sort_by_In|]. now apply value_eqb_true.
Qed.

Lemma field_remove_nth_1 (r : row) : field 0 (remove_nth 1 r) = field 0 r.
Proof. destruct r as [|x [|y r]]; reflexivity. Qed.
End PetlFacts.

Import Petl PetlFacts.

Lemma convert_rename_columns rs :
  rbind (convert_table "edited" convert_datetime_value (mktable people_columns rs))
        (rename_table [("edited", "date"); ("homeworld_name", "homeworld")])
  = Ok (mktable snapshot_header
          (map (update_nth 7 (fun x => match convert_datetime_value x with
                                       | Ok y => y
                                       | Raise _ => VNone
                                       end)) rs)).
Proof. reflexivity. Qed.

(** The rows of the table expression of [fix_planets_info_and_columns],
    for any people table. *)
Lemma joined_people_rows people planets fs tp tpl :
  people fs = Ok tp -> planets fs = Ok tpl ->
  rectangular tp ->
  Forall (fun f => In f (header tp)) needed_fields ->
  ~ In "homeworld_name" (header tp) ->
  header tpl = ["homeworld_name"; "url"] ->
  exists out,
    joined_people people planets fs = Ok out
    /\ header out = snapshot_header
    /\ forall r, In r (rows out) <->
         exists person planet,
           In person (rows tp) /\ In planet (rows tpl)
           /\ named (header tp) "homeworld" person = field 1 planet
           /\ r = snapshot_row (header tp) person planet.
Proof.
  intros Hp Hpl Hrect Hfields Hfresh Hhdr.
  unfold needed_fields in Hfields.
  repeat match goal with
         | H : Forall _ (_ :: _) |- _ =>
             let Hin := fresh "Hin" in
             apply List.Forall_cons_iff in H as [Hin H];
             apply index_of_In in Hin as [? Hin]
         end.
  clear Hfields.
  rename Hin into I1, Hin0 into I2, Hin1 into I3, Hin2 into I4, Hin3 into I5,
    Hin4 into I6, Hin5 into I7, Hin6 into I8, Hin7 into I9.
  destruct (join_rows "homeworld" "url" tp tpl _ 1%nat I9) as (t & Ht & Hth & Htr).
  { now rewrite Hhdr. }
  rewrite Hhdr in Hth. cbn [remove_nth] in Hth.
  unfold joined_people, rename, convert, cut, vbind, join.
  rewrite Hp, Hpl. cbn [rbind]. rewrite Ht. cbn [rbind].
  unfold cut_table at 1. rewrite Hth. unfold people_columns at 1.
  cbn [asindices]. unfold asindex.
  rewrite (index_of_app_l _ _ _ _ I1), (index_of_app_l _ _ _ _ I2),
    (index_of_app_l _ _ _ _ I3), (index_of_app_l _ _ _ _ I4),
    (index_of_app_l _ _ _ _ I5), (index_of_app_l _ _ _ _ I6),
    (index_of_app_l _ _ _ _ I7), (index_of_app_l _ _ _ _ I8),
    (index_of_app_r _ _ _ Hfresh).
  cbn [rbind]. rewrite convert_rename_columns.
  eexists. split; [reflexivity|]. split; [reflexivity|].
  intros r. cbn [rows]. rewrite List.map_map, in_map_iff. split.
  - intros (y & <- & Hy). apply Htr in Hy as (lr & rr & Hlr & Hrr & Heq & ->).
    exists lr, rr. repeat split; try assumption.
    + unfold named. rewrite I9. exact Heq.
    + assert (Hlen : length lr = length (header tp)).
      { unfold rectangular in Hrect. rewrite List.Forall_forall in Hrect. now apply Hrect. }
      cbn [map update_nth]. unfold snapshot_row, named.
      rewrite I1, I2, I3, I4, I5, I6, I7, I8.
      rewrite !field_app_l by (rewrite Hlen; eapply index_of_bound; eassumption).
      rewrite <- Hlen, field_app_r, field_remove_nth_1. reflexivity.
  - intros (lr & rr & Hlr & Hrr & Heq & ->).
    assert (Hlen : length lr = length (header tp)).
    { unfold rectangular in Hrect. rewrite List.Forall_forall in Hrect. now apply Hrect. }
    eexists. split.
    2: { apply Htr. exists lr, rr. repeat split; try assumption.
         unfold named in Heq. now rewrite I9 in Heq. }
    cbn [map update_nth]. unfold snapshot_row, named.
    rewrite I1, I2, I3, I4, I5, I6, I7, I8.
    rewrite !field_app_l by (rewrite Hlen; eapply index_of_bound; eassumption).
    rewrite <- Hlen, field_app_r, field_remove_nth_1. reflexivity.
Qed.


Lemma field_dict_get o hdr f i :
  index_of f hdr = Some i -> field i (map (dict_get o) hdr) = dict_get o f.
Proof.
  revert i. induction hdr as [|h hdr IH]; intros i; simpl; [discriminate|].
  destruct (String.eqb_spec h f) as [->|Hne].
  - intros [= <-]. reflexivity.
  - destruct (index_of f hdr) as [i'|]; simpl; [|discriminate].
    intros [= <-]. now apply IH.
Qed.

Lemma named_dict_get o hdr f :
  In f hdr -> named hdr f (map (dict_get o) hdr) = dict_get o f.
Proof.
  intros Hin. destruct (index_of_In f hdr Hin) as (i & Hi).
  unfold named. rewrite Hi. now apply field_dict_get.
Qed.

Lemma fromdicts_rectangular data : rectangular (fromdicts_table data).
Proof.
  unfold rectangular. apply List.Forall_forall. intros r Hr.
  cbn [rows fromdicts_table] in Hr. apply in_map_iff in Hr as (o & <- & _).
  now rewrite length_map.
Qed.

Lemma snapshot_row_of_record o hdr planet :
  Forall (fun f => In f hdr) needed_fields ->
  snapshot_row hdr (map (dict_get o) hdr) planet = person_row o planet.
Proof.
  intros Hf. unfold needed_fields in Hf. rewrite List.Forall_forall in Hf.
  unfold snapshot_row, person_row.
  rewrite !named_dict_get by (apply Hf; cbn; tauto). reflexivity.
Qed.



Example join_sample :
  joined_people (fromdicts [Demo.luke; Demo.leia]) (fun _ => Ok Demo.planets_table) ∅
  = Ok (mktable snapshot_header
          [[VStr "Luke"; VStr "172"; VStr "77"; VStr "blond"; VStr "fair"; VStr "blue";
            VStr "19BBY"; VStr "2014-12-20"; VStr "Tatooine"]]).
Proof. vm_compute. reflexivity. Qed.


(** ** The grouped count *)


Lemma sequence_map {A B} (f : A -> result B) l l' :
  sequence (map f l) = Ok l' -> List.Forall2 (fun x y => f x = Ok y) l l'.
Proof.
  revert l'. induction l as [|x l IH]; intros l'; simpl.
  - intros [= <-]. constructor.
  - destruct (f x) as [y|e] eqn:E; simpl; [|discriminate].
    destruct (sequence (map f l)) as [ys|e]; simpl; [|discriminate].
    intros [= <-]. constructor; [exact E|]. now apply IH.
Qed.

Lemma asindices_length hdr spec ixs :
  asindices hdr spec = Ok ixs -> length ixs = length spec.
Proof.
  revert ixs. induction spec as [|f spec IH]; intros ixs; simpl.
  - now intros [= <-].
  - destruct (asindex hdr f); simpl; [|discriminate].
    destruct (asindices hdr spec); simpl; [|discriminate].
    intros [= <-]. simpl. now rewrite (IH _ eq_refl).
Qed.

Lemma cut_table_ok cols t sel :
  cut_table cols t = Ok sel ->
  header sel = cols /\ Forall (fun r => length r = length cols) (rows sel).
Proof.
  unfold cut_table. destruct (asindices (header t) cols) as [ixs|e] eqn:E; simpl; [|discriminate].
  intros [= <-]. split; [reflexivity|]. cbn [rows].
  apply List.Forall_forall. intros r Hr. apply in_map_iff in Hr as (r0 & <- & _).
  rewrite length_map. now apply asindices_length in E.
Qed.

Lemma concatenate_keyed r r1 :
  rmap (fun x => r ++ [x]) (concatenate r) = Ok r1 -> keyed r r1.
Proof.
  unfold keyed, concatenate, joined_text.
  destruct (texts r) as [ss|]; simpl; [|discriminate].
  intros [= <-]. eexists. split; reflexivity.
Qed.


Lemma occurrences_keyed li R0 R1 s :
  List.Forall2 keyed R0 R1 -> Forall (fun r => length r = li) R0 ->
  occurrences (VStr s) (map (field li) R1)
  = Z.of_nat (length (List.filter (fun r' => bool_decide (joined_text r' = Some s)) R0)).
Proof.
  induction 1 as [|r r1 R0 R1 Hk _ IH]; intros Hlen; [reflexivity|].
  apply List.Forall_cons_iff in Hlen as [Hr Hlen]. specialize (IH Hlen).
  destruct Hk as (s' & Hs' & ->). cbn [map List.filter].
  rewrite <- Hr, field_app_r. cbn [field nth]. rewrite Hs'.
  destruct (decide (s' = s)) as [->|Hne].
  - rewrite bool_decide_eq_true_2 by reflexivity.
    rewrite occurrences_cons_eq. cbn [length]. rewrite Hr, IH. lia.
  - rewrite bool_decide_eq_false_2 by congruence.
    rewrite occurrences_cons_neq by congruence. rewrite Hr. exact IH.
Qed.

Lemma occurrences_perm k l l' : Permutation l l' -> occurrences k l = occurrences k l'.
Proof.
  intros H. unfold occurrences. f_equal.
  now apply (proj1 (Permutation_count_occ value_eq_dec l l')).
Qed.

Lemma value_in_header cols : bool_decide ("value" ∈ cols ++ ["value"]) = true.
Proof. apply bool_decide_eq_true. apply elem_of_app. right. now left. Qed.

Lemma Forall2_in_r {A B} (R : A -> B -> Prop) l l' y :
  List.Forall2 R l l' -> In y l' -> exists x, In x l /\ R x y.
Proof.
  induction 1 as [|x y' l l' Hxy _ IH]; [intros []|].
  intros [<-|Hin]; [exists x; split; [now left|exact Hxy]|].
  destruct (IH Hin) as (x' & Hx' & HR). exists x'. split; [now right|exact HR].
Qed.

Lemma Forall2_in_l {A B} (R : A -> B -> Prop) l l' x :
  List.Forall2 R l l' -> In x l -> exists y, In y l' /\ R x y.
Proof.
  induction 1 as [|x' y l l' Hxy _ IH]; [intros []|].
  intros [<-|Hin]; [exists y; split; [now left|exact Hxy]|].
  destruct (IH Hin) as (y' & Hy' & HR). exists y'. split; [now right|exact HR].
Qed.

(** C10, away from the reserved name: when no selected column is called
    "concatenated", every row of the output of [get_calcualted_table] is a selected row
    followed by the number of input rows whose selected values, joined
    with single spaces, give the same text; and every selected row
    appears in the output with that number.  Rows that differ and whose
    joined texts agree are thus counted together. *)
Theorem C10_grouped_count fs path columns sel out :
  ~ In "concatenated" columns ->
  cut (fromcsv path) columns fs = Ok sel ->
  get_calcualted_table path columns fs = Ok out ->
  (forall r, In r (rows out) ->
     exists vals, In vals (rows sel)
                  /\ r = vals ++ [VInt (same_text_count (rows sel) vals)])
  /\ (forall vals, In vals (rows sel) ->
        In (vals ++ [VInt (same_text_count (rows sel) vals)]) (rows out)).
Proof.
  intros Hfresh Hsel Hout.
  assert (Hcut : header sel = columns
                 /\ Forall (fun r => length r = length columns) (rows sel)).
  { unfold cut, vbind in Hsel. destruct (fromcsv path fs) as [t|e]; [|discriminate].
    now apply cut_table_ok in Hsel. }
  destruct Hcut as [Hhdr Hlen].
  unfold get_calcualted_table, distinct, rename, cutout, join, aggregate_len, addfield in Hout.
  unfold vbind in Hout. rewrite Hsel in Hout. cbn [rbind] in Hout.
  unfold addfield_table in Hout.
  destruct (sequence _) as [R1|e] eqn:Hseq; [|discriminate].
  cbn [rbind] in Hout.
  apply sequence_map in Hseq.
  assert (Hkeyed : List.Forall2 keyed (rows sel) R1).
  { eapply List.Forall2_impl; [|exact Hseq]. intros r r1. apply concatenate_keyed. }
  clear Hseq. rewrite Hhdr in Hout.
  set (li := length columns) in *.
  assert (Hli : index_of "concatenated" (columns ++ ["concatenated"]) = Some li)
    by now apply index_of_app_r.
  unfold aggregate_len_table, asindex in Hout. cbn [header rows] in Hout.
  rewrite Hli in Hout. cbn [rbind] in Hout.
  match type of Hout with context [join_tables _ _ ?l ?r] =>
    destruct (join_rows "concatenated" "concatenated" l r li 0%nat Hli eq_refl)
      as (J & HJ & HJh & HJr) end.
  rewrite HJ in Hout. cbn [rbind header rows remove_nth] in Hout, HJh, HJr.
  unfold cutout_table, asindex in Hout. rewrite HJh in Hout.
  rewrite (index_of_app_l _ _ _ _ Hli) in Hout. cbn [rbind] in Hout.
  rewrite <- app_assoc in Hout. cbn [app] in Hout.
  unfold li in Hout at 1. rewrite remove_nth_app in Hout. fold li in Hout.
  unfold rename_table in Hout. cbn [header rows map fst check_fields] in Hout.
  rewrite value_in_header in Hout. cbn [rbind] in Hout.
  unfold distinct_table in Hout. injection Hout as <-. cbn [rows].
  (* the rows of the join, before the key is cut out *)
  assert (Hrows : forall x, In x (rows J) <->
            exists r s, In r (rows sel) /\ joined_text r = Some s
              /\ x = (r ++ [VStr s]) ++ [VInt (same_text_count (rows sel) r)]).
  { intros x. rewrite HJr. split.
    - intros (lr & rr & Hlr & Hrr & Heq & ->).
      apply in_map_iff in Hrr as ([k n] & <- & Hkn). cbn [fst snd field nth] in *.
      destruct (group_count_sorted _
                  (sorted_keys (field li) value_leb _
                     (sort_by_sorted (field li) value_leb value_leb_total value_leb_trans R1)))
        as [_ Hcount].
      destruct (Hcount k n Hkn) as [_ ->].
      rewrite (occurrences_perm k _ (map (field li) R1))
        by (apply Permutation_map, sort_by_perm).
      destruct (Forall2_in_r _ _ _ _ Hkeyed Hlr) as (r & Hr & (s & Hs & ->)).
      assert (Hrl : length r = li).
      { rewrite List.Forall_forall in Hlen. now apply Hlen. }
      rewrite <- Hrl, field_app_r in Heq. cbn [field nth] in Heq. subst k.
      rewrite (occurrences_keyed li (rows sel) R1 s Hkeyed Hlen).
      exists r, s. repeat split; try assumption.
      unfold same_text_count. now rewrite Hs.
    - intros (r & s & Hr & Hs & ->).
      destruct (Forall2_in_l _ _ _ _ Hkeyed Hr) as (r1 & Hr1 & (s' & Hs' & ->)).
      assert (s' = s) as -> by congruence.
      assert (Hrl : length r = li).
      { rewrite List.Forall_forall in Hlen. now apply Hlen. }
      assert (Hk : In (VStr s) (map (field li) (sort_by (field li) value_leb R1))).
      { apply in_map_iff. exists (r ++ [VStr s]). split.
        - now rewrite <- Hrl, field_app_r.
        - now apply sort_by_In. }
      destruct (group_count_complete _ _ Hk) as (n & Hn).
      destruct (group_count_sorted _
                  (sorted_keys (field li) value_leb _
                     (sort_by_sorted (field li) value_leb value_leb_total value_leb_trans R1)))
        as [_ Hcount].
      destruct (Hcount _ n Hn) as [_ Hn'].
      rewrite (occurrences_perm _ _ (map (field li) R1)) in Hn'
        by (apply Permutation_map, sort_by_perm).
      rewrite (occurrences_keyed li (rows sel) R1 s Hkeyed Hlen) in Hn'.
      exists (r ++ [VStr s]), [VStr s; VInt n]. repeat split.
      + exact Hr1.
      + apply in_map_iff. exists (VStr s, n). split; [reflexivity|exact Hn].
      + now rewrite <- Hrl, field_app_r.
      + cbn [remove_nth]. do 3 f_equal. unfold same_text_count. now rewrite Hs. }
  assert (Hcutout : forall r s c,
            In r (rows sel) ->
            remove_nth li ((r ++ [VStr s]) ++ [VInt c]) = r ++ [VInt c]).
  { intros r s c Hr.
    assert (Hrl : length r = li).
    { rewrite List.Forall_forall in Hlen. now apply Hlen. }
    rewrite <- app_assoc. cbn [app]. rewrite <- Hrl. apply remove_nth_app. }
  split.
  - intros r Hr. apply drop_repeats_In, sort_by_In, in_map_iff in Hr as (x & <- & Hx).
    apply Hrows in Hx as (r0 & s & Hr0 & Hs & ->).
    exists r0. split; [exact Hr0|]. now apply Hcutout.
  - intros vals Hvals.
    destruct (Forall2_in_l _ _ _ _ Hkeyed Hvals) as (r1 & _ & (s & Hs & _)).
    apply drop_repeats_In, sort_by_In, in_map_iff.
    exists ((vals ++ [VStr s]) ++ [VInt (same_text_count (rows sel) vals)]).
    split; [now apply Hcutout|]. apply Hrows. exists vals, s. auto.
Qed.

Lemma C10_witness :
  In ([VStr "a b"; VStr "c"] ++ [VInt (same_text_count (rows Demo.ambiguous_selection) [VStr "a b"; VStr "c"])])
     (rows Demo.ambiguous_grouped)
  /\ In ([VStr "a"; VStr "b c"] ++ [VInt (same_text_count (rows Demo.ambiguous_selection) [VStr "a"; VStr "b c"])])
     (rows Demo.ambiguous_grouped).
Proof.
  assert (H1 : ~ In "concatenated" ["a"; "b"]).
  { intros H. repeat destruct H as [H|H]; try discriminate H. exact H. }
  assert (H2 : cut (fromcsv "f.csv") ["a"; "b"] (Demo.disk Demo.ambiguous_file) = Ok Demo.ambiguous_selection)
    by (vm_compute; reflexivity).
  assert (H3 : get_calcualted_table "f.csv" ["a"; "b"] (Demo.disk Demo.ambiguous_file)
               = Ok Demo.ambiguous_grouped) by (vm_compute; reflexivity).
  split.
  - apply (proj2 (C10_grouped_count _ _ _ _ _ H1 H2 H3)). vm_compute. tauto.
  - apply (proj2 (C10_grouped_count _ _ _ _ _ H1 H2 H3)). vm_compute. tauto.
Defined.

Example ambiguous_rows_counted_together :
  same_text_count (rows Demo.ambiguous_selection) [VStr "a b"; VStr "c"] = 2
  /\ same_text_count (rows Demo.ambiguous_selection) [VStr "a"; VStr "b c"] = 2.
Proof. split; vm_compute; reflexivity. Qed.

Lemma C10_counterexample :
  cut (fromcsv "f.csv") ["concatenated"; "x"] (Demo.disk Demo.clashing_file) = Ok Demo.clashing_selection
  /\ get_calcualted_table "f.csv" ["concatenated"; "x"] (Demo.disk Demo.clashing_file)
     = Ok Demo.clashing_grouped
  /\ same_text_count (rows Demo.clashing_selection) [VStr "k"; VStr "1"] = 1
  /\ same_text_count (rows Demo.clashing_selection) [VStr "k"; VStr "2"] = 1
  /\ ~ (forall r, In r (rows Demo.clashing_grouped) ->
          exists vals, In vals (rows Demo.clashing_selection)
                       /\ r = vals ++ [VInt (same_text_count (rows Demo.clashing_selection) vals)]).
Proof.
  repeat split; try (vm_compute; reflexivity).
  intros H. destruct (H [VStr "1"; VStr "k 1"; VInt 2]) as (vals & Hin & Heq).
  - now left.
  - cbn in Hin. destruct Hin as [<-|[<-|[]]]; discriminate Heq.
Qed.

Lemma fromcsv_same_file path (fs1 fs2 : gmap string csv) :
  fs1 !! path = fs2 !! path -> fromcsv path fs1 = fromcsv path fs2.
Proof. intros H. unfold fromcsv, csv in *. now rewrite H. Qed.

(** C9: two runs of [get_calcualted_table] on the same file (the same
    content under the path, whatever else is on disk) with the same
    columns end alike: both fail with the same error, or both return
    tables with the same header and the same set of rows. *)
Theorem C9_grouped_count_repeatable path columns (fs1 fs2 : gmap string csv) :
  fs1 !! path = fs2 !! path ->
  match get_calcualted_table path columns fs1, get_calcualted_table path columns fs2 with
  | Ok t1, Ok t2 =>
      header t1 = header t2 /\ forall r, In r (rows t1) <-> In r (rows t2)
  | Raise e1, Raise e2 => e1 = e2
  | _, _ => False
  end.
Proof.
  intros Hsame.
  assert (Heq : get_calcualted_table path columns fs1 = get_calcualted_table path columns fs2).
  { unfold get_calcualted_table, distinct, rename, cutout, join, aggregate_len, addfield,
      cut, vbind.
    now rewrite (fromcsv_same_file path fs1 fs2 Hsame). }
  rewrite Heq. destruct (get_calcualted_table path columns fs2); [|reflexivity].
  split; [reflexivity|]. intros r. reflexivity.
Qed.

Lemma C9_witness :
  match get_calcualted_table "f.csv" ["a"; "b"] (Demo.disk Demo.ambiguous_file),
        get_calcualted_table "f.csv" ["a"; "b"]
          (<["other.csv" := Demo.planets_file]> (Demo.disk Demo.ambiguous_file)) with
  | Ok t1, Ok t2 =>
      header t1 = header t2 /\ forall r, In r (rows t1) <-> In r (rows t2)
  | Raise e1, Raise e2 => e1 = e2
  | _, _ => False
  end.
Proof.
  apply (C9_grouped_count_repeatable "f.csv" ["a"; "b"]). vm_compute. reflexivity.
Defined.

(** * Further properties of the code *)

(** ** The pipeline *)

Lemma latest_fold ms : forall acc,
  match foldl (fun best m =>
           match best with
           | None => Some m
           | Some b => if date b <=? date m then Some m else Some b
           end) acc ms with
  | None => acc = None /\ ms = []
  | Some m => (acc = Some m \/ In m ms)
              /\ (forall b, acc = Some b -> date b <= date m)
              /\ (forall m', In m' ms -> date m' <= date m)
  end.
Proof.
  induction ms as [|x ms IH]; intros acc.
  - simpl. destruct acc as [b|]; [|now split].
    split; [now left|]. split; [intros ? [= <-]; lia|intros ? []].
  - cbn [foldl]. 
    set (acc' := match acc with None => Some x | Some b => if date b <=? date x then Some x else Some b end).
    specialize (IH acc'). destruct (foldl _ acc' ms) as [m|].
    + destruct IH as (Hin & Hacc & Hall).
      assert (Hx : date x <= date m /\ (forall b, acc = Some b -> date b <= date m)
                   /\ (acc = Some m \/ In m (x :: ms))).
      { subst acc'. destruct acc as [b|].
        - destruct (Z.leb_spec (date b) (date x)).
          + specialize (Hacc x eq_refl). split; [lia|]. split.
            * intros ? [= <-]. lia.
            * destruct Hin as [[= <-]|Hin]; [right; now left|right; now right].
          + specialize (Hacc b eq_refl). split; [lia|]. split.
            * intros ? [= <-]. lia.
            * destruct Hin as [[= <-]|Hin]; [now left|right; now right].
        - specialize (Hacc x eq_refl). split; [lia|]. split; [discriminate|].
          destruct Hin as [[= <-]|Hin]; [right; now left|right; now right]. }
      destruct Hx as (Hx & Hb & Hm). split; [exact Hm|]. split; [exact Hb|].
      intros m' [<-|Hm']; [exact Hx|now apply Hall].
    + destruct IH as [Hacc' _]. subst acc'. destruct acc as [b|]; [|discriminate].
      destruct (date b <=? date x); discriminate.
Qed.

Lemma latest_row_none ms : latest_row ms = None <-> ms = [].
Proof.
  unfold latest_row. split.
  - intros H. pose proof (latest_fold ms None) as Hf. rewrite H in Hf. tauto.
  - intros ->. reflexivity.
Qed.

Lemma latest_row_greatest ms m :
  latest_row ms = Some m -> In m ms /\ forall m', In m' ms -> date m' <= date m.
Proof.
  unfold latest_row. intros H. pose proof (latest_fold ms None) as Hf.
  rewrite H in Hf. destruct Hf as ([Hd|Hin] & _ & Hall); [discriminate|]. now split.
Qed.

(** X1: [get_latest_etags] never raises and changes nothing.  It returns
    the validator of a row of the asked kind whose date no row of that
    kind exceeds, and the empty string when the table holds no row of
    that kind. *)
Theorem get_latest_etags_latest_or_empty query w :
  exists tag,
    get_latest_etags query w = (Returns tag, w)
    /\ ((rows_of_kind query w = [] /\ tag = "")
        \/ (exists m, In m (db w) /\ table_info_type m = query /\ tag = etag m
              /\ forall m', In m' (db w) -> table_info_type m' = query -> date m' <= date m)).
Proof.
  exists (stored_validator query (db w)). split; [apply get_latest_etags_eq|].
  unfold stored_validator, rows_of_kind.
  destruct (latest_row (objects_filter query (db w))) as [m|] eqn:E.
  - right. exists m. apply latest_row_greatest in E as [Hin Hall].
    unfold objects_filter in *. apply filter_In in Hin as [Hin Hk].
    apply String.eqb_eq in Hk. repeat split; try assumption.
    intros m' Hm' Hk'. apply Hall. apply filter_In. split; [exact Hm'|].
    now apply String.eqb_eq.
  - left. apply latest_row_none in E. now split.
Qed.

Lemma only_requests_refl w : only_requests w w.
Proof. repeat split. exists []. now rewrite app_nil_r. Qed.

Section Reads.
Context (w0 : World).

Lemma reads_requests_get u hs : keeps (only_requests w0) (requests_get u hs).
Proof.
  intros w (Hr & Hd & Hc & Hf & Hw & more & Hs). unfold requests_get.
  destruct (remote w _); cbn; repeat split; try assumption;
    exists (more ++ [mkRequest u hs]); rewrite Hs; now rewrite app_assoc.
Qed.

Lemma reads_fetch_pages fuel target data :
  keeps (only_requests w0) (fetch_pages fuel target data).
Proof.
  revert target data. induction fuel as [|fuel IH]; intros [[|c u]|] data;
    try apply keeps_ret.
  - intros w Hw. exact Hw.
  - cbn [fetch_pages]. apply keeps_bind; [apply reads_requests_get|].
    intros r. apply keeps_bind; [apply keeps_of_result|].
    intros p. apply IH.
Qed.

Lemma reads_get_latest_data fuel self query :
  keeps (only_requests w0) (get_latest_data fuel self query).
Proof.
  unfold get_latest_data.
  apply keeps_bind.
  { unfold get_current_etag. apply keeps_bind; [apply reads_requests_get|].
    intros r. apply keeps_ret. }
  intros tag.
  apply keeps_bind; [apply keeps_get_latest_etags|]. intros old.
  apply keeps_bind.
  { unfold check_for_updates. apply keeps_bind; [apply reads_requests_get|].
    intros r. destruct (_ =? 304); [apply keeps_ret|].
    destruct (negb _); [apply keeps_raise | apply keeps_ret]. }
  intros [|].
  - apply keeps_bind; [apply reads_fetch_pages|]. intros d. apply keeps_ret.
  - apply keeps_ret.
Qed.
End Reads.

(** X2: whatever the remote answers and however it ends,
    [get_latest_data] only sends requests: the remote, the table of
    metadata, the clock and the files are as before, and the log of
    requests has only grown. *)
Theorem get_latest_data_only_requests fuel self query w :
  only_requests w (snd (get_latest_data fuel self query w)).
Proof. apply reads_get_latest_data, only_requests_refl. Qed.

Lemma get_latest_data_updated fuel self query w r1 r2 pages h' :
  let target := endpoint self query in
  let h1 := sent w ++ [mkRequest target []] in
  let h2 := h1 ++ [mkRequest target [("If-None-Match", stored_validator query (db w))]] in
  remote w h1 = Ok r1 -> remote w h2 = Ok r2 -> status_code r2 = 200 ->
  serves_pages (remote w) h2 target pages h' -> (length pages <= fuel)%nat ->
  get_latest_data fuel self query w
  = (Returns (headers_get (headers r1) "ETag", Some (Petl.fromdicts (concat pages))),
     with_sent h' w).
Proof.
  intros target h1 h2 H1 H2 H200 Hpages Hfuel.
  unfold get_latest_data.
  rewrite (bind_returns _ _ _ _ _ (get_current_etag_ok _ _ _ H1)).
  rewrite (bind_returns _ _ _ _ _ (get_latest_etags_eq _ _)).
  rewrite (bind_returns _ _ _ true (with_sent h2 w)).
  - rewrite (bind_returns _ _ _ (concat pages) (with_sent h' w)); [reflexivity|].
    apply (fetch_pages_serves (remote w) h2 target pages h' Hpages fuel
             (with_sent h2 w) []); [reflexivity | reflexivity | lia].
  - rewrite (check_for_updates_eq self query _ _ r2) by exact H2.
    rewrite H200. reflexivity.
Qed.

(** The requests a listing costs when it is served as pages. *)
Lemma serves_pages_log rem h u pages h' :
  serves_pages rem h u pages h' ->
  exists more, h' = h ++ mkRequest u [] :: more /\ length (mkRequest u [] :: more) = length pages
               /\ Forall (fun rq => request_headers rq = []) more.
Proof.
  induction 1 as [h u st hd rs Hu Hrem | h u st hd rs u' rest h' Hu Hrem Hrest IH].
  - exists []. repeat split. constructor.
  - destruct IH as (more & -> & Hlen & Hplain).
    exists (mkRequest u' [] :: more). rewrite <- app_assoc. repeat split.
    + cbn in *. lia.
    + constructor; [reflexivity|exact Hplain].
Qed.

(** X3: when the conditional request is answered 200 and the listing is
    served as N pages, an update costs N + 2 requests: the plain request
    that reads the validator, the conditional one, then the first page
    once more, followed by the other pages. *)
Theorem update_requests_first_page_again fuel self query w r1 r2 pages h' :
  let target := endpoint self query in
  let h1 := sent w ++ [mkRequest target []] in
  let h2 := h1 ++ [mkRequest target [("If-None-Match", stored_validator query (db w))]] in
  remote w h1 = Ok r1 -> remote w h2 = Ok r2 -> status_code r2 = 200 ->
  serves_pages (remote w) h2 target pages h' -> (length pages <= fuel)%nat ->
  exists more,
    sent (snd (get_latest_data fuel self query w))
    = sent w ++ [mkRequest target [];
                 mkRequest target [("If-None-Match", stored_validator query (db w))];
                 mkRequest target []] ++ more
    /\ length (sent (snd (get_latest_data fuel self query w)))
       = (length (sent w) + 2 + length pages)%nat.
Proof.
  intros target h1 h2 H1 H2 H200 Hpages Hfuel.
  rewrite (get_latest_data_updated fuel self query w r1 r2 pages h' H1 H2 H200 Hpages Hfuel).
  cbn [snd sent with_sent].
  destruct (serves_pages_log _ _ _ _ _ Hpages) as (more & -> & Hlen & _).
  exists more. subst h2 h1. split.
  - rewrite <- !app_assoc. reflexivity.
  - rewrite !length_app. cbn [length] in *. lia.
Qed.

Lemma update_requests_witness :
  exists more,
    sent (snd (get_latest_data 2 Demo.etl "people" Demo.first_run))
    = [] ++ [mkRequest "api/people" []; mkRequest "api/people" [("If-None-Match", "")];
             mkRequest "api/people" []] ++ more
    /\ length (sent (snd (get_latest_data 2 Demo.etl "people" Demo.first_run)))
       = (0 + 2 + 2)%nat.
Proof.
  apply (update_requests_first_page_again 2 Demo.etl "people" Demo.first_run
           (mkResponse 200 [("ETag", "E1")]
              (Ok (mkPage [Demo.luke] (Some "api/people/?page=2"))))
           (mkResponse 200 [("ETag", "E1")] (Ok (mkPage [] None)))
           Cases.people_pages
           [mkRequest "api/people" []; mkRequest "api/people" [("If-None-Match", "")];
            mkRequest "api/people" []; mkRequest "api/people/?page=2" []]).
  - reflexivity.
  - reflexivity.
  - reflexivity.
  - eapply serves_next; [discriminate | reflexivity |].
    match goal with |- serves_pages _ ?h ?u _ ?h' =>
      change h' with (h ++ [mkRequest u []]) end.
    eapply serves_last; [discriminate | reflexivity].
  - cbn. lia.
Defined.

(** X4: the loop of [get_latest_data] has no guard of its own.  On a
    listing whose page links back to itself, no bound on the number of
    iterations lets it finish. *)
Theorem cyclic_listing_exhausts_any_bound fuel u data w :
  u <> "" ->
  (forall h, exists st hd rs,
      remote w (h ++ [mkRequest u []]) = Ok (mkResponse st hd (Ok (mkPage rs (Some u))))) ->
  fst (fetch_pages fuel (Some u) data w) = OutOfFuel.
Proof.
  intros Hu Hcycle. revert data w Hcycle.
  induction fuel as [|fuel IH]; intros data w Hcycle;
    (destruct u as [|c u]; [contradiction|]); [reflexivity|].
  cbn [fetch_pages].
  destruct (Hcycle (sent w)) as (st & hd & rs & Hrem).
  rewrite (bind_returns _ _ _ _ _ (requests_get_ok _ _ _ _ Hrem)).
  cbn [json of_result bind ret next results]. apply IH. exact Hcycle.
Qed.

Lemma cyclic_listing_witness :
  fst (fetch_pages 1000 (Some "api/loop") [] (Demo.world Cases.remote_cycle [])) = OutOfFuel.
Proof.
  apply (cyclic_listing_exhausts_any_bound 1000 "api/loop" []
           (Demo.world Cases.remote_cycle [])).
  - discriminate.
  - intros h. do 3 eexists. reflexivity.
Defined.

(** X5: if fetching the people listing raises (a transport error, a
    status other than 200 and 304, a page that is not JSON), the run
    raises the same exception, and has neither added a row nor touched a
    file. *)
Theorem fetch_failure_aborts_run fuel self w e w1 :
  get_latest_data fuel self (people_query self) w = (Raises e, w1) ->
  get_people_data fuel self w = (Raises e, w1)
  /\ db w1 = db w /\ files w1 = files w.
Proof.
  intros H. split.
  - unfold get_people_data. now rewrite (bind_raises _ _ _ _ _ H).
  - pose proof (reads_get_latest_data w fuel self (people_query self) w
                  (only_requests_refl w)) as Hr.
    rewrite H in Hr. cbn in Hr. destruct Hr as (_ & Hd & _ & Hf & _). now split.
Qed.

Lemma fetch_failure_aborts_run_witness :
  get_people_data 1 Demo.etl (Demo.world Demo.remote_500 [])
  = (Raises (RuntimeError "No active exception to reraise"),
     with_sent [mkRequest "api/people" []; mkRequest "api/people" [("If-None-Match", "")]]
       (Demo.world Demo.remote_500 []))
  /\ db (with_sent [mkRequest "api/people" []; mkRequest "api/people" [("If-None-Match", "")]]
           (Demo.world Demo.remote_500 [])) = db (Demo.world Demo.remote_500 [])
  /\ files (with_sent [mkRequest "api/people" []; mkRequest "api/people" [("If-None-Match", "")]]
              (Demo.world Demo.remote_500 [])) = files (Demo.world Demo.remote_500 []).
Proof.
  apply (fetch_failure_aborts_run 1 Demo.etl (Demo.world Demo.remote_500 [])).
  reflexivity.
Defined.


(** X6: when the people listing is reported not modified and the table
    holds no people row, the run raises [DoesNotExist] after its two
    requests, and nothing else has changed. *)
Theorem not_modified_without_history fuel self w r1 r2 :
  let query := people_query self in
  let target := endpoint self query in
  let h1 := sent w ++ [mkRequest target []] in
  let h2 := h1 ++ [mkRequest target [("If-None-Match", stored_validator query (db w))]] in
  remote w h1 = Ok r1 -> remote w h2 = Ok r2 -> status_code r2 = 304 ->
  rows_of_kind query w = [] ->
  get_people_data fuel self w = (Raises DoesNotExist, with_sent h2 w).
Proof.
  intros query target h1 h2 H1 H2 H304 Hnone. unfold get_people_data.
  rewrite (bind_returns _ _ _ _ _
             (get_latest_data_not_modified fuel self query w r1 r2 H1 H2 H304)).
  cbn [snd fst table_truth]. unfold bind at 1. cbn [ret].
  unfold bind, objects_latest. cbn [db with_sent]. fold query.
  unfold rows_of_kind in Hnone. now rewrite Hnone.
Qed.

Lemma not_modified_without_history_witness :
  get_people_data 1 Demo.etl (Demo.world Cases.remote_unchanged [])
  = (Raises DoesNotExist,
     with_sent [mkRequest "api/people" []; mkRequest "api/people" [("If-None-Match", "")]]
       (Demo.world Cases.remote_unchanged [])).
Proof.
  apply (not_modified_without_history 1 Demo.etl (Demo.world Cases.remote_unchanged [])
           (mkResponse 200 [("ETag", "E1")]
              (Ok (mkPage [Demo.luke] (Some "api/people/?page=2"))))
           (mkResponse 304 [("ETag", "E1")] Demo.no_body));
    reflexivity.
Defined.

(** X7: when the people listing is reported not modified by a remote
    that sends no [ETag] header, the row that would journal the reuse is
    refused by the database: the run raises [IntegrityError] and appends
    nothing. *)
Theorem not_modified_without_validator fuel self w r1 r2 prior :
  let query := people_query self in
  let target := endpoint self query in
  let h1 := sent w ++ [mkRequest target []] in
  let h2 := h1 ++ [mkRequest target [("If-None-Match", stored_validator query (db w))]] in
  remote w h1 = Ok r1 -> headers_get (headers r1) "ETag" = None ->
  remote w h2 = Ok r2 -> status_code r2 = 304 ->
  latest_row (objects_filter query (db w)) = Some prior ->
  exists msg,
    get_people_data fuel self w = (Raises (IntegrityError msg), with_sent h2 w).
Proof.
  intros query target h1 h2 H1 He H2 H304 Hprior. unfold get_people_data.
  rewrite (bind_returns _ _ _ _ _
             (get_latest_data_not_modified fuel self query w r1 r2 H1 H2 H304)).
  cbn [snd fst table_truth]. unfold bind at 1. cbn [ret].
  unfold bind, objects_latest, _log_new_metadata, objects_create, ret.
  cbn [db with_sent]. fold query. rewrite Hprior, He. eexists. reflexivity.
Qed.

Lemma not_modified_without_validator_witness :
  exists msg,
    get_people_data 1 Demo.etl (Demo.world Demo.remote_no_etag Demo.earlier_rows)
    = (Raises (IntegrityError msg),
       with_sent [mkRequest "api/people" []; mkRequest "api/people" [("If-None-Match", "E1")]]
         (Demo.world Demo.remote_no_etag Demo.earlier_rows)).
Proof.
  apply (not_modified_without_validator 1 Demo.etl
           (Demo.world Demo.remote_no_etag Demo.earlier_rows)
           (mkResponse 200 [("Content-Type", "application/json")]
              (Ok (mkPage [Demo.luke] (Some "api/people/?page=2"))))
           (mkResponse 304 [("Content-Type", "application/json")] Demo.no_body)
           (mkMetadata "old.csv" "dir/old.csv" 1 "E1" "people"));
    reflexivity.
Defined.

(** X8: [save_data_to_csv] never raises, whatever the table, the path
    and the validator: it returns the message of success, or the message
    built from the error. *)
Theorem save_data_to_csv_never_raises table name path kind tag w :
  exists msg w1,
    save_data_to_csv table name path kind tag w = (Returns msg, w1)
    /\ (msg = name +:+ " saved successfully "
        \/ exists e, msg = "An error occurred while trying to save CSV file " +:+ exn_str e).
Proof.
  unfold save_data_to_csv, try_except, _log_new_metadata, bind, tocsv, objects_create, ret.
  destruct (writable w path); [|eauto 6].
  destruct (table _); [|eauto 6].
  destruct tag; eauto 6.
Qed.

(** X9: a write without a validator ([None], as [get_current_etag]
    returns it when the header is absent) leaves the CSV file written and
    no row for it: the database refuses the row, and the message returned
    is the one for an error. *)
Theorem save_without_validator_writes_file_only table name path kind w t :
  writable w path = true ->
  table (<[path := []]> (files w)) = Ok t ->
  exists msg,
    save_data_to_csv table name path kind None w
    = (Returns ("An error occurred while trying to save CSV file "
                +:+ exn_str (IntegrityError msg)),
       with_files (<[path := Petl.to_csv t]> (files w)) w).
Proof.
  intros Hw Ht.
  unfold save_data_to_csv, try_except, _log_new_metadata, bind, tocsv, objects_create, ret.
  rewrite Hw, Ht. eexists. reflexivity.
Qed.

Lemma save_without_validator_witness :
  exists msg,
    save_data_to_csv (fromcsv "dir/planets_info.csv") "out.csv" "dir/out.csv" "people" None
      Demo.later_run
    = (Returns ("An error occurred while trying to save CSV file "
                +:+ exn_str (IntegrityError msg)),
       with_files (<["dir/out.csv" := to_csv Demo.planets_table]> (files Demo.later_run))
         Demo.later_run).
Proof.
  apply (save_without_validator_writes_file_only (fromcsv "dir/planets_info.csv") "out.csv"
           "dir/out.csv" "people" Demo.later_run Demo.planets_table).
  - reflexivity.
  - vm_compute. reflexivity.
Defined.

Lemma latest_row_snoc ms m :
  Forall (fun m' => date m' <= date m) ms -> latest_row (ms ++ [m]) = Some m.
Proof.
  intros H. unfold latest_row. rewrite foldl_app. cbn [foldl].
  pose proof (latest_fold ms None) as Hf. unfold latest_row in *.
  destruct (foldl _ None ms) as [b|]; [|reflexivity].
  destruct Hf as ([Hd|Hin] & _); [discriminate|].
  rewrite List.Forall_forall in H. specialize (H b Hin).
  destruct (Z.leb_spec (date b) (date m)); [reflexivity|lia].
Qed.

(** X10: if every row so far was stamped before the current time, then
    after a write that succeeded the row just created is the latest of
    its kind, [get_latest_etags] returns the validator just stored, and
    every row is again stamped before the current time. *)
Theorem saved_snapshot_is_latest table name path kind tag w w0 :
  dates_below_clock w ->
  tocsv table path w = (Returns tt, w0) ->
  let w1 := snd (save_data_to_csv table name path kind (Some tag) w) in
  objects_latest kind w1 = (Returns (mkMetadata name path (clock w) tag kind), w1)
  /\ get_latest_etags kind w1 = (Returns tag, w1)
  /\ dates_below_clock w1.
Proof.
  intros Hinv Hcsv w1. subst w1.
  unfold save_data_to_csv, try_except, _log_new_metadata.
  destruct (tocsv_store _ _ _ _ _ Hcsv) as [Hdb Hclock].
  rewrite (bind_returns _ _ _ _ _ Hcsv).
  unfold objects_create, bind, ret. cbn [snd].
  assert (Hl : latest_row (objects_filter kind (db w ++ [mkMetadata name path (clock w) tag kind]))
               = Some (mkMetadata name path (clock w) tag kind)).
  { rewrite objects_filter_app. cbn. rewrite String.eqb_refl.
    apply latest_row_snoc. apply List.Forall_forall. intros m' Hm'.
    unfold objects_filter in Hm'. apply filter_In in Hm' as [Hm' _].
    unfold dates_below_clock in Hinv. rewrite List.Forall_forall in Hinv.
    specialize (Hinv m' Hm'). cbn. lia. }
  split; [|split].
  - unfold objects_latest. cbn [db with_row]. rewrite Hdb, Hclock, Hl. reflexivity.
  - rewrite get_latest_etags_eq. unfold stored_validator. cbn [db with_row].
    rewrite Hdb, Hclock, Hl. reflexivity.
  - unfold dates_below_clock in *. cbn [db with_row clock]. rewrite Hdb, Hclock.
    apply List.Forall_app. split.
    + eapply List.Forall_impl; [|exact Hinv]. cbn. intros m Hm. lia.
    + constructor; [cbn; lia|constructor].
Qed.

Lemma saved_snapshot_is_latest_witness :
  get_latest_etags "people"
    (snd (save_data_to_csv (Petl.fromcsv "dir/planets_info.csv") "out.csv" "dir/out.csv"
            "people" (Some "E2") Demo.later_run))
  = (Returns "E2",
     snd (save_data_to_csv (Petl.fromcsv "dir/planets_info.csv") "out.csv" "dir/out.csv"
            "people" (Some "E2") Demo.later_run)).
Proof.
  apply (saved_snapshot_is_latest (Petl.fromcsv "dir/planets_info.csv") "out.csv" "dir/out.csv"
           "people" "E2" Demo.later_run
           (with_files (<["dir/out.csv" := Demo.planets_file]> (files Demo.later_run))
              Demo.later_run)).
  - repeat constructor.
  - reflexivity.
Defined.

Lemma journal_grows_refl w : journal_grows w w [].
Proof. repeat split; [now rewrite app_nil_r | cbn; lia | constructor]. Qed.

Lemma journal_grows_trans w1 w2 w3 n1 n2 :
  journal_grows w1 w2 n1 -> journal_grows w2 w3 n2 ->
  journal_grows w1 w3 (n1 ++ n2).
Proof.
  intros (Hd1 & Hc1 & Hf1) (Hd2 & Hc2 & Hf2). repeat split.
  - now rewrite Hd2, Hd1, app_assoc.
  - rewrite Hc2, Hc1, length_app. lia.
  - apply List.Forall_app. split.
    + eapply List.Forall_impl; [|exact Hf1]. cbn. intros m Hm. lia.
    + eapply List.Forall_impl; [|exact Hf2]. cbn. intros m Hm. lia.
Qed.

Lemma journals_weaken {A} (P Q : list Metadata -> Prop) (c : M A) :
  (forall new, P new -> Q new) -> journals P c -> journals Q c.
Proof. intros HPQ Hc w. destruct (Hc w) as (new & Hg & HP). eauto. Qed.

Lemma journals_bind {A B} (P Q R : list Metadata -> Prop) (c : M A) (k : A -> M B) :
  journals P c -> (forall a, journals Q (k a)) ->
  (forall l, P l -> R l) -> (forall l1 l2, P l1 -> Q l2 -> R (l1 ++ l2)) ->
  journals R (bind c k).
Proof.
  intros Hc Hk HPR HPQR w. destruct (Hc w) as (n1 & Hg1 & HP). unfold bind.
  destruct (c w) as [[a| |] w1]; cbn [snd] in *; [|eauto|eauto].
  destruct (Hk a w1) as (n2 & Hg2 & HQ). exists (n1 ++ n2).
  split; [now apply (journal_grows_trans w w1)|auto].
Qed.

Lemma journals_try {A} (P Q R : list Metadata -> Prop) (c : M A) (h : exn -> M A) :
  journals P c -> (forall e, journals Q (h e)) ->
  (forall l, P l -> R l) -> (forall l1 l2, P l1 -> Q l2 -> R (l1 ++ l2)) ->
  journals R (try_except c h).
Proof.
  intros Hc Hh HPR HPQR w. destruct (Hc w) as (n1 & Hg1 & HP). unfold try_except.
  destruct (c w) as [[a| |] w1]; cbn [snd] in *; [eauto| |eauto].
  destruct (Hh e w1) as (n2 & Hg2 & HQ). exists (n1 ++ n2).
  split; [now apply (journal_grows_trans w w1)|auto].
Qed.

(** A computation that first leaves the table alone. *)
Lemma journals_after {A B} (Q : list Metadata -> Prop) (c : M A) (k : A -> M B) :
  journals (eq []) c -> (forall a, journals Q (k a)) -> Q [] -> journals Q (bind c k).
Proof.
  intros Hc Hk HQ. apply (journals_bind (eq []) Q Q); try assumption.
  - now intros l <-.
  - now intros l1 l2 <-.
Qed.

(** A computation that leaves the table alone afterwards. *)
Lemma journals_before {A B} (P : list Metadata -> Prop) (c : M A) (k : A -> M B) :
  journals P c -> (forall a, journals (eq []) (k a)) -> journals P (bind c k).
Proof.
  intros Hc Hk. apply (journals_bind P (eq []) P); try assumption; [auto|].
  intros l1 l2 HP <-. now rewrite app_nil_r.
Qed.

Lemma journals_none {A} (c : M A) :
  (forall w, db (snd (c w)) = db w /\ clock (snd (c w)) = clock w) -> journals (eq []) c.
Proof.
  intros H w. exists []. destruct (H w) as [Hd Hc]. split; [|reflexivity].
  repeat split; [now rewrite app_nil_r | cbn; lia | constructor].
Qed.

Lemma journals_ret {A} (a : A) : journals (eq []) (ret a).
Proof. now apply journals_none. Qed.

Lemma journals_raise {A} e : journals (eq []) (@raise A e).
Proof. now apply journals_none. Qed.

Lemma journals_get_latest_data fuel self query :
  journals (eq []) (get_latest_data fuel self query).
Proof.
  apply journals_none. intros w.
  destruct (reads_get_latest_data w fuel self query w (only_requests_refl w))
    as (_ & Hd & Hc & _).
  now split.
Qed.

Lemma journals_objects_latest query : journals (eq []) (objects_latest query).
Proof.
  apply journals_none. intros w. unfold objects_latest. destruct (latest_row _); now split.
Qed.

Lemma journals_table_truth t : journals (eq []) (table_truth t).
Proof.
  apply journals_none. intros w. destruct t as [v|]; [|now split].
  cbn. destruct (v _); now split.
Qed.

Lemma journals_print_table v : journals (eq []) (print_table v).
Proof.
  apply journals_none. intros w. unfold print_table. destruct (v _); now split.
Qed.

Lemma journals_tocsv v path : journals (eq []) (tocsv v path).
Proof.
  apply journals_none. intros w. destruct (tocsv v path w) as [o w1] eqn:E.
  now apply tocsv_store in E.
Qed.

Lemma at_most_one_nil kind : at_most_one kind [].
Proof. split; [cbn; lia|constructor]. Qed.

Lemma journals_objects_create name path kind tag :
  journals (at_most_one kind) (objects_create name path kind tag).
Proof.
  intros w. unfold objects_create. destruct tag as [e|]; cbn [snd].
  - exists [mkMetadata name path (clock w) e kind]. split.
    + repeat split; cbn; try lia. constructor; [cbn; lia|constructor].
    + split; [cbn; lia|]. constructor; [reflexivity|constructor].
  - exists []. split; [apply journal_grows_refl|apply at_most_one_nil].
Qed.

Lemma journals_save_data_to_csv v name path kind tag :
  journals (at_most_one kind) (save_data_to_csv v name path kind tag).
Proof.
  unfold save_data_to_csv, _log_new_metadata.
  apply (journals_try (at_most_one kind) (eq []) (at_most_one kind)).
  - apply journals_after; [apply journals_tocsv| |apply at_most_one_nil]. intros _.
    apply journals_before; [apply journals_objects_create|]. intros _. apply journals_ret.
  - intros e. apply journals_ret.
  - auto.
  - intros l1 l2 H <-. now rewrite app_nil_r.
Qed.

Lemma journals_get_planets_data fuel self :
  journals (at_most_one (planets_query self)) (get_planets_data fuel self).
Proof.
  unfold get_planets_data.
  apply journals_after; [apply journals_get_latest_data| |apply at_most_one_nil]. intros info.
  apply journals_after; [apply journals_table_truth| |apply at_most_one_nil]. intros fresh.
  assert (Hcached : journals (at_most_one (planets_query self))
                      (meta <- objects_latest (planets_query self) ;;
                       ret (Petl.fromcsv (file_path meta)))).
  { apply journals_after; [apply journals_objects_latest| |apply at_most_one_nil].
    intros m. apply (journals_weaken (eq [])); [|apply journals_ret].
    intros l <-. apply at_most_one_nil. }
  destruct fresh; [|exact Hcached]. destruct (snd info) as [table|]; [|exact Hcached].
  apply journals_before; [apply journals_save_data_to_csv|]. intros _. apply journals_ret.
Qed.

(** The rows a run appends: at most one of the planets kind, then at
    most one of the people kind. *)
Lemma journals_get_people_data fuel self :
  journals (fun new => exists qs ps,
              new = qs ++ ps /\ at_most_one (planets_query self) qs
              /\ at_most_one (people_query self) ps)
    (get_people_data fuel self).
Proof.
  unfold get_people_data.
  assert (Hnil : exists qs ps : list Metadata,
             [] = qs ++ ps /\ at_most_one (planets_query self) qs
             /\ at_most_one (people_query self) ps).
  { exists [], []. repeat split; try constructor; cbn; lia. }
  apply journals_after; [apply journals_get_latest_data| |exact Hnil]. intros info.
  apply journals_after; [apply journals_table_truth| |exact Hnil]. intros [|].
  - apply (journals_bind (at_most_one (planets_query self)) (at_most_one (people_query self))).
    + unfold fix_planets_info_and_columns.
      apply journals_before; [apply journals_get_planets_data|]. intros pt.
      destruct (snd info); [apply journals_ret | apply journals_raise].
    + intros v. apply journals_after; [apply journals_print_table| |apply at_most_one_nil].
      intros _. apply journals_save_data_to_csv.
    + intros l Hl. exists l, []. rewrite app_nil_r. repeat split; try apply Hl.
      * cbn; lia.
      * constructor.
    + intros l1 l2 H1 H2. exists l1, l2. auto.
  - apply journals_after; [apply journals_objects_latest| |exact Hnil]. intros m.
    apply (journals_weaken (at_most_one (people_query self))).
    + intros l Hl. exists [], l. repeat split; try apply Hl; try constructor. cbn; lia.
    + apply journals_before; [|intros _; apply journals_ret].
      unfold _log_new_metadata. apply journals_objects_create.
Qed.

(** X11: a run never removes or changes a row of metadata.  Whatever
    happens, it appends at most one planets row and then at most one
    people row, each stamped no earlier than the start of the run. *)
Theorem ingestion_appends_planets_then_people fuel self w :
  exists qs ps,
    db (snd (start_starwars_data_ingestion fuel self w)) = db w ++ qs ++ ps
    /\ (length qs <= 1)%nat /\ (length ps <= 1)%nat
    /\ Forall (fun m => table_info_type m = planets_query self) qs
    /\ Forall (fun m => table_info_type m = people_query self) ps
    /\ Forall (fun m => clock w <= date m) (qs ++ ps).
Proof.
  destruct (journals_get_people_data fuel self w)
    as (new & (Hd & Hc & Hf) & qs & ps & -> & [Hq1 Hq2] & [Hp1 Hp2]).
  exists qs, ps. repeat split; try assumption.
  eapply List.Forall_impl; [|exact Hf]. cbn. intros m H. lia.
Qed.

Lemma journal_grows_dates w w' new :
  journal_grows w w' new -> dates_below_clock w -> dates_below_clock w'.
Proof.
  intros (Hd & Hc & Hf) Hw. unfold dates_below_clock in *. rewrite Hd.
  apply List.Forall_app. split.
  - eapply List.Forall_impl; [|exact Hw]. cbn. intros m Hm. lia.
  - eapply List.Forall_impl; [|exact Hf]. cbn. intros m Hm. lia.
Qed.

(** X12: if every row was stamped before the current time, this still
    holds after a run, however the run ends. *)
Theorem ingestion_keeps_dates_below_clock fuel self w :
  dates_below_clock w ->
  dates_below_clock (snd (start_starwars_data_ingestion fuel self w)).
Proof.
  intros Hw. destruct (journals_get_people_data fuel self w) as (new & Hg & _).
  exact (journal_grows_dates _ _ _ Hg Hw).
Qed.

Lemma dates_below_clock_witness :
  dates_below_clock (snd (start_starwars_data_ingestion 3 Demo.etl Demo.later_run)).
Proof.
  apply (ingestion_keeps_dates_below_clock 3 Demo.etl Demo.later_run).
  repeat constructor.
Defined.


Lemma rename_planets rs :
  rename_table [("name", "homeworld_name")] (mktable ["name"; "url"] rs)
  = Ok (mktable ["homeworld_name"; "url"] rs).
Proof. reflexivity. Qed.

Lemma fromdicts_rows data :
  rows (fromdicts_table data)
  = map (fun o => map (dict_get o) (header (fromdicts_table data))) data.
Proof. reflexivity. Qed.

Lemma planets_view_table data fs :
  In "name" (header (fromdicts_table data)) ->
  In "url" (header (fromdicts_table data)) ->
  planets_view data fs = Ok (planets_table_of data).
Proof.
  intros Hn Hu. apply index_of_In in Hn as (i & Hi), Hu as (j & Hj).
  unfold planets_view, rename, cut, vbind, fromdicts. cbn [rbind].
  unfold cut_table. cbn [asindices]. unfold asindex. rewrite Hi, Hj. cbn [rbind].
  rewrite rename_planets. unfold planets_table_of. do 2 f_equal.
  rewrite fromdicts_rows, List.map_map. apply map_ext. intros o.
  cbn [map]. unfold planet_row.
  now rewrite (field_dict_get o _ _ _ Hi), (field_dict_get o _ _ _ Hj).
Qed.

(** The run of [get_planets_data] when the planets have changed. *)
Lemma get_planets_data_updated fuel self w r1 r2 e pages h' :
  let query := planets_query self in
  let target := endpoint self query in
  let h1 := sent w ++ [mkRequest target []] in
  let h2 := h1 ++ [mkRequest target [("If-None-Match", stored_validator query (db w))]] in
  let data := concat pages in
  remote w h1 = Ok r1 -> headers_get (headers r1) "ETag" = Some e ->
  remote w h2 = Ok r2 -> status_code r2 = 200 ->
  serves_pages (remote w) h2 target pages h' -> (length pages <= fuel)%nat ->
  In "name" (header (fromdicts_table data)) ->
  In "url" (header (fromdicts_table data)) ->
  writable w planets_file_path = true ->
  get_planets_data fuel self w
  = (Returns (planets_view data),
     mkWorld (remote w) h'
       (db w ++ [mkMetadata planets_file_name planets_file_path (clock w) e query])
       (clock w + 1)
       (<[planets_file_path := to_csv (planets_table_of data)]> (files w))
       (writable w)).
Proof.
  intros query target h1 h2 data H1 He H2 H200 Hpages Hfuel Hn Hu Hw.
  unfold get_planets_data.
  rewrite (bind_returns _ _ _ _ _
             (get_latest_data_updated fuel self query w r1 r2 pages h' H1 H2 H200 Hpages Hfuel)).
  cbn [snd fst]. unfold bind at 1. cbn [table_truth with_sent files fromdicts].
  replace (0 <? 1 + Z.of_nat (length (rows (fromdicts_table (concat pages))))) with true
    by (symmetry; apply Z.ltb_lt; lia).
  fold (planets_view (concat pages)). fold data. fold planets_file_name planets_file_path.
  unfold save_data_to_csv, try_except, _log_new_metadata, bind, tocsv, objects_create, ret.
  cbn [writable with_sent files]. rewrite Hw.
  rewrite (planets_view_table data _ Hn Hu). rewrite He. reflexivity.
Qed.

(** X13: when the planets listing has changed, [get_planets_data]
    fetches every page, writes [planets_info.csv] with the columns
    [homeworld_name] and [url] and one line for each planet (its [name]
    and its [url]), records one planets row with the validator just
    fetched, and returns that table. *)
Theorem get_planets_data_fresh fuel self w r1 r2 e pages h' :
  let query := planets_query self in
  let target := endpoint self query in
  let h1 := sent w ++ [mkRequest target []] in
  let h2 := h1 ++ [mkRequest target [("If-None-Match", stored_validator query (db w))]] in
  let data := concat pages in
  remote w h1 = Ok r1 -> headers_get (headers r1) "ETag" = Some e ->
  remote w h2 = Ok r2 -> status_code r2 = 200 ->
  serves_pages (remote w) h2 target pages h' -> (length pages <= fuel)%nat ->
  In "name" (header (fromdicts_table data)) ->
  In "url" (header (fromdicts_table data)) ->
  writable w planets_file_path = true ->
  get_planets_data fuel self w
  = (Returns (planets_view data),
     mkWorld (remote w) h'
       (db w ++ [mkMetadata planets_file_name planets_file_path (clock w) e query])
       (clock w + 1)
       (<[planets_file_path := to_csv (planets_table_of data)]> (files w))
       (writable w))
  /\ forall fs, planets_view data fs = Ok (planets_table_of data).
Proof.
  intros query target h1 h2 data H1 He H2 H200 Hpages Hfuel Hn Hu Hw.
  split; [|intros fs; now apply planets_view_table].
  now apply (get_planets_data_updated fuel self w r1 r2 e pages h').
Qed.

Lemma get_planets_data_fresh_witness :
  get_planets_data 1 Demo.etl Demo.first_run
  = (Returns (planets_view [Demo.tatooine]),
     mkWorld Demo.remote
       [mkRequest "api/planets" []; mkRequest "api/planets" [("If-None-Match", "")];
        mkRequest "api/planets" []]
       [mkMetadata planets_file_name planets_file_path 2 "E1" "planets"]
       3
       (<[planets_file_path := to_csv (planets_table_of [Demo.tatooine])]>
          (files Demo.first_run))
       (fun _ => true))
  /\ forall fs, planets_view [Demo.tatooine] fs = Ok (planets_table_of [Demo.tatooine]).
Proof.
  apply (get_planets_data_fresh 1 Demo.etl Demo.first_run
           (mkResponse 200 [("ETag", "E1")] (Ok (mkPage [Demo.tatooine] None)))
           (mkResponse 200 [("ETag", "E1")] (Ok (mkPage [] None)))
           "E1" Cases.planets_pages).
  - reflexivity.
  - reflexivity.
  - reflexivity.
  - reflexivity.
  - match goal with |- serves_pages _ ?h ?u _ ?h' =>
      change h' with (h ++ [mkRequest u []]) end.
    eapply serves_last; [discriminate | reflexivity].
  - cbn. lia.
  - vm_compute. tauto.
  - vm_compute. tauto.
  - reflexivity.
Defined.

(** The planets are reported not modified and were never stored. *)
Lemma get_planets_data_without_history fuel self w r1 r2 :
  let query := planets_query self in
  let target := endpoint self query in
  let h1 := sent w ++ [mkRequest target []] in
  let h2 := h1 ++ [mkRequest target [("If-None-Match", stored_validator query (db w))]] in
  remote w h1 = Ok r1 -> remote w h2 = Ok r2 -> status_code r2 = 304 ->
  rows_of_kind query w = [] ->
  get_planets_data fuel self w = (Raises DoesNotExist, with_sent h2 w).
Proof.
  intros query target h1 h2 H1 H2 H304 Hnone. unfold get_planets_data.
  rewrite (bind_returns _ _ _ _ _
             (get_latest_data_not_modified fuel self query w r1 r2 H1 H2 H304)).
  cbn [snd fst table_truth]. unfold bind at 1. cbn [ret].
  unfold bind, objects_latest. cbn [db with_sent]. fold query.
  unfold rows_of_kind in Hnone. now rewrite Hnone.
Qed.

Lemma get_planets_data_cached fuel self w r1 r2 m :
  let query := planets_query self in
  let target := endpoint self query in
  let h1 := sent w ++ [mkRequest target []] in
  let h2 := h1 ++ [mkRequest target [("If-None-Match", stored_validator query (db w))]] in
  remote w h1 = Ok r1 -> remote w h2 = Ok r2 -> status_code r2 = 304 ->
  latest_row (objects_filter query (db w)) = Some m ->
  get_planets_data fuel self w = (Returns (fromcsv (file_path m)), with_sent h2 w).
Proof.
  intros query target h1 h2 H1 H2 H304 Hm. unfold get_planets_data.
  rewrite (bind_returns _ _ _ _ _
             (get_latest_data_not_modified fuel self query w r1 r2 H1 H2 H304)).
  cbn [snd fst table_truth]. unfold bind at 1. cbn [ret].
  unfold bind, objects_latest, ret. cbn [db with_sent]. fold query.
  now rewrite Hm.
Qed.


(** The rows of the snapshot, from the records of the people listing. *)
Lemma joined_people_of_records data planets fs tpl :
  planets fs = Ok tpl ->
  header tpl = ["homeworld_name"; "url"] ->
  Forall (fun f => In f (header (fromdicts_table data))) needed_fields ->
  ~ In "homeworld_name" (header (fromdicts_table data)) ->
  exists out,
    joined_people (fromdicts data) planets fs = Ok out
    /\ header out = snapshot_header
    /\ forall r, In r (rows out) <->
         exists person planet,
           In person data /\ In planet (rows tpl)
           /\ dict_get person "homeworld" = field 1 planet
           /\ r = person_row person planet.
Proof.
  intros Hpl Hhdr Hfields Hfresh.
  destruct (joined_people_rows (fromdicts data) planets fs (fromdicts_table data) tpl
              eq_refl Hpl (fromdicts_rectangular data) Hfields Hfresh Hhdr)
    as (out & Hout & Hh & Hrows).
  exists out. split; [exact Hout|]. split; [exact Hh|].
  assert (Hhome : In "homeworld" (header (fromdicts_table data))).
  { unfold needed_fields in Hfields. rewrite List.Forall_forall in Hfields.
    apply Hfields. cbn. tauto. }
  intros r. rewrite Hrows. split.
  - intros (p & planet & Hp & Hplanet & Heq & ->).
    rewrite fromdicts_rows in Hp. apply in_map_iff in Hp as (o & <- & Ho).
    exists o, planet. repeat split; try assumption.
    + now rewrite named_dict_get in Heq.
    + now apply snapshot_row_of_record.
  - intros (o & planet & Ho & Hplanet & Heq & ->).
    exists (map (dict_get o) (header (fromdicts_table data))), planet.
    repeat split; try assumption.
    + rewrite fromdicts_rows. apply in_map_iff. exists o. now split.
    + now rewrite named_dict_get.
    + symmetry. now apply snapshot_row_of_record.
Qed.

(** X14: an [edited] value that [convert_datetime] rejects does not
    abort the snapshot: [etl.convert] swallows the error, and the
    person's row comes out with [None] as its date. *)
Theorem unparsable_edited_gives_empty_date data planets fs tpl person planet e :
  planets fs = Ok tpl ->
  header tpl = ["homeworld_name"; "url"] ->
  Forall (fun f => In f (header (fromdicts_table data))) needed_fields ->
  ~ In "homeworld_name" (header (fromdicts_table data)) ->
  In person data -> In planet (rows tpl) ->
  dict_get person "homeworld" = field 1 planet ->
  convert_datetime_value (dict_get person "edited") = Raise e ->
  exists out,
    joined_people (fromdicts data) planets fs = Ok out
    /\ In [dict_get person "name"; dict_get person "height"; dict_get person "mass";
           dict_get person "hair_color"; dict_get person "skin_color";
           dict_get person "eye_color"; dict_get person "birth_year";
           VNone; field 0 planet] (rows out).
Proof.
  intros Hpl Hhdr Hfields Hfresh Hperson Hplanet Hhome Hbad.
  destruct (joined_people_of_records data planets fs tpl Hpl Hhdr Hfields Hfresh)
    as (out & Hout & _ & Hrows).
  exists out. split; [exact Hout|]. apply Hrows. exists person, planet.
  repeat split; try assumption. unfold person_row. now rewrite Hbad.
Qed.

Lemma unparsable_edited_witness :
  exists out,
    joined_people (fromdicts [Cases.undated]) (fun _ => Ok Demo.planets_table) ∅ = Ok out
    /\ In [VStr "Luke"; VStr "172"; VStr "77"; VStr "blond"; VStr "fair"; VStr "blue";
           VStr "19BBY"; VNone; VStr "Tatooine"] (rows out).
Proof.
  apply (unparsable_edited_gives_empty_date [Cases.undated] (fun _ => Ok Demo.planets_table) ∅
           Demo.planets_table Cases.undated [VStr "Tatooine"; VStr "u1"]
           (ValueError "time data does not match format")).
  - reflexivity.
  - reflexivity.
  - unfold needed_fields.
    repeat (apply List.Forall_cons; [vm_compute; tauto|]). apply List.Forall_nil.
  - vm_compute. intros H. repeat destruct H as [H|H]; try discriminate H. exact H.
  - now left.
  - now left.
  - reflexivity.
  - vm_compute. reflexivity.
Defined.

Lemma people_updated_then fuel self w r1 r2 pages h' :
  let query := people_query self in
  let target := endpoint self query in
  let h1 := sent w ++ [mkRequest target []] in
  let h2 := h1 ++ [mkRequest target [("If-None-Match", stored_validator query (db w))]] in
  remote w h1 = Ok r1 -> remote w h2 = Ok r2 -> status_code r2 = 200 ->
  serves_pages (remote w) h2 target pages h' -> (length pages <= fuel)%nat ->
  get_people_data fuel self w
  = (planets_table <- get_planets_data fuel self ;;
     sw_data <- ret (joined_people (fromdicts (concat pages)) planets_table) ;;
     print_table sw_data ;;;
     save_data_to_csv sw_data (CSV_FILE_NAME self) (CSV_FILE_PATH self) query
       (headers_get (headers r1) "ETag")) (with_sent h' w).
Proof.
  intros query target h1 h2 H1 H2 H200 Hpages Hfuel. unfold get_people_data.
  rewrite (bind_returns _ _ _ _ _
             (get_latest_data_updated fuel self query w r1 r2 pages h' H1 H2 H200 Hpages Hfuel)).
  cbn [snd fst]. unfold bind at 1. cbn [table_truth with_sent files fromdicts].
  replace (0 <? 1 + Z.of_nat (length (rows (fromdicts_table (concat pages))))) with true
    by (symmetry; apply Z.ltb_lt; lia).
  unfold fix_planets_info_and_columns. cbn [snd].
  unfold bind. destruct (get_planets_data fuel self (with_sent h' w)) as [[v| |] w1]; reflexivity.
Qed.

(** X15: a run in which both listings have changed fetches the people,
    then the planets, writes the planets file and the people snapshot,
    and appends two rows, the planets row first.  The snapshot has the
    nine columns, and its rows are those made from a person and a planet
    whose [url] is the person's [homeworld]. *)
Theorem updated_run_writes_both_snapshots fuel self w r1 r2 e1 ppages h3 r3 r4 e3 qpages h6 :
  let people := people_query self in
  let planets := planets_query self in
  let h1 := sent w ++ [mkRequest (endpoint self people) []] in
  let h2 := h1 ++ [mkRequest (endpoint self people)
                     [("If-None-Match", stored_validator people (db w))]] in
  let h4 := h3 ++ [mkRequest (endpoint self planets) []] in
  let h5 := h4 ++ [mkRequest (endpoint self planets)
                     [("If-None-Match", stored_validator planets (db w))]] in
  let pdata := concat ppages in
  let qdata := concat qpages in
  remote w h1 = Ok r1 -> headers_get (headers r1) "ETag" = Some e1 ->
  remote w h2 = Ok r2 -> status_code r2 = 200 ->
  serves_pages (remote w) h2 (endpoint self people) ppages h3 ->
  remote w h4 = Ok r3 -> headers_get (headers r3) "ETag" = Some e3 ->
  remote w h5 = Ok r4 -> status_code r4 = 200 ->
  serves_pages (remote w) h5 (endpoint self planets) qpages h6 ->
  (length ppages <= fuel)%nat -> (length qpages <= fuel)%nat ->
  Forall (fun f => In f (header (fromdicts_table pdata))) needed_fields ->
  ~ In "homeworld_name" (header (fromdicts_table pdata)) ->
  In "name" (header (fromdicts_table qdata)) ->
  In "url" (header (fromdicts_table qdata)) ->
  writable w planets_file_path = true ->
  writable w (CSV_FILE_PATH self) = true ->
  exists out,
    get_people_data fuel self w
    = (Returns (CSV_FILE_NAME self +:+ " saved successfully "),
       mkWorld (remote w) h6
         (db w ++ [mkMetadata planets_file_name planets_file_path (clock w) e3 planets;
                   mkMetadata (CSV_FILE_NAME self) (CSV_FILE_PATH self) (clock w + 1) e1 people])
         (clock w + 2)
         (<[CSV_FILE_PATH self := to_csv out]>
            (<[planets_file_path := to_csv (planets_table_of qdata)]> (files w)))
         (writable w))
    /\ header out = snapshot_header
    /\ forall r, In r (rows out) <->
         exists person planet,
           In person pdata /\ In planet qdata
           /\ dict_get person "homeworld" = dict_get planet "url"
           /\ r = person_row person (planet_row planet).
Proof.
  intros people planets h1 h2 h4 h5 pdata qdata H1 He1 H2 H200 Hpp H3 He3 H4 H200' Hqp
    Hfp Hfq Hfields Hfresh Hn Hu Hwq Hwp.
  destruct (joined_people_of_records pdata (planets_view qdata) ∅ (planets_table_of qdata)
              (planets_view_table qdata ∅ Hn Hu) eq_refl Hfields Hfresh)
    as (out & Hout & Hh & Hrows).
  assert (Hany : forall fs, joined_people (fromdicts pdata) (planets_view qdata) fs = Ok out).
  { intros fs. rewrite <- Hout. unfold joined_people, rename, convert, cut, join, vbind.
    now rewrite !(planets_view_table qdata _ Hn Hu). }
  exists out. split; [|split; [exact Hh|]].
  - rewrite (people_updated_then fuel self w r1 r2 ppages h3 H1 H2 H200 Hpp Hfp).
    pose proof (get_planets_data_updated fuel self (with_sent h3 w) r3 r4 e3 qpages h6
                  H3 He3 H4 H200' Hqp Hfq Hn Hu Hwq) as Hplanets.
    cbn [with_sent remote db clock files writable sent] in Hplanets.
    rewrite (bind_returns _ _ _ _ _ Hplanets). fold pdata qdata.
    unfold bind at 1. unfold ret at 1.
    unfold bind at 1. unfold print_table at 1. rewrite Hany.
    unfold save_data_to_csv, try_except, _log_new_metadata, bind, tocsv, objects_create, ret.
    cbn [writable files]. rewrite Hwp, Hany, He1.
    unfold with_row, with_files. cbn [files db clock remote sent writable].
    rewrite <- app_assoc. cbn [app].
    replace (clock w + 1 + 1) with (clock w + 2) by lia. reflexivity.
  - intros r. rewrite Hrows. split.
    + intros (person & planet & Hp & Hq & Heq & ->).
      cbn [rows planets_table_of] in Hq. apply in_map_iff in Hq as (q & <- & Hq).
      exists person, q. repeat split; assumption.
    + intros (person & q & Hp & Hq & Heq & ->).
      exists person, (planet_row q). repeat split; try assumption.
      cbn [rows planets_table_of]. apply in_map_iff. exists q. now split.
Qed.

Lemma updated_run_witness :
  exists out,
    get_people_data 2 Demo.etl Demo.first_run
    = (Returns ("out.csv" +:+ " saved successfully "),
       mkWorld Demo.remote
         [mkRequest "api/people" []; mkRequest "api/people" [("If-None-Match", "")];
          mkRequest "api/people" []; mkRequest "api/people/?page=2" [];
          mkRequest "api/planets" []; mkRequest "api/planets" [("If-None-Match", "")];
          mkRequest "api/planets" []]
         [mkMetadata planets_file_name planets_file_path 2 "E1" "planets";
          mkMetadata "out.csv" "dir/out.csv" 3 "E1" "people"]
         4
         (<["dir/out.csv" := to_csv out]>
            (<[planets_file_path := to_csv (planets_table_of [Demo.tatooine])]>
               (files Demo.first_run)))
         (fun _ => true))
    /\ header out = snapshot_header
    /\ forall r, In r (rows out) <->
         exists person planet,
           In person [Demo.luke; Demo.leia] /\ In planet [Demo.tatooine]
           /\ dict_get person "homeworld" = dict_get planet "url"
           /\ r = person_row person (planet_row planet).
Proof.
  apply (updated_run_writes_both_snapshots 2 Demo.etl Demo.first_run
           (mkResponse 200 [("ETag", "E1")]
              (Ok (mkPage [Demo.luke] (Some "api/people/?page=2"))))
           (mkResponse 200 [("ETag", "E1")] (Ok (mkPage [] None)))
           "E1" Cases.people_pages
           [mkRequest "api/people" []; mkRequest "api/people" [("If-None-Match", "")];
            mkRequest "api/people" []; mkRequest "api/people/?page=2" []]
           (mkResponse 200 [("ETag", "E1")] (Ok (mkPage [Demo.tatooine] None)))
           (mkResponse 200 [("ETag", "E1")] (Ok (mkPage [] None)))
           "E1" Cases.planets_pages
           [mkRequest "api/people" []; mkRequest "api/people" [("If-None-Match", "")];
            mkRequest "api/people" []; mkRequest "api/people/?page=2" [];
            mkRequest "api/planets" []; mkRequest "api/planets" [("If-None-Match", "")];
            mkRequest "api/planets" []]).
  - reflexivity.
  - reflexivity.
  - reflexivity.
  - reflexivity.
  - eapply serves_next; [discriminate | reflexivity |].
    match goal with |- serves_pages _ ?h ?u _ ?h' =>
      change h' with (h ++ [mkRequest u []]) end.
    eapply serves_last; [discriminate | reflexivity].
  - reflexivity.
  - reflexivity.
  - reflexivity.
  - reflexivity.
  - match goal with |- serves_pages _ ?h ?u _ ?h' =>
      change h' with (h ++ [mkRequest u []]) end.
    eapply serves_last; [discriminate | reflexivity].
  - cbn. lia.
  - cbn. lia.
  - unfold needed_fields.
    repeat (apply List.Forall_cons; [vm_compute; tauto|]). apply List.Forall_nil.
  - vm_compute. intros H. repeat destruct H as [H|H]; try discriminate H. exact H.
  - vm_compute. tauto.
  - vm_compute. tauto.
  - reflexivity.
  - reflexivity.
Defined.

(** X16: when the people have changed, the planets have not, and the
    file of the latest planets row is missing, the run raises
    [FileNotFoundError]: the table is printed before it is saved, outside
    the [try] of [save_data_to_csv].  No row is appended and no file is
    written. *)
Theorem missing_planets_file_aborts_before_saving fuel self w r1 r2 ppages h3 r3 r4 m :
  let people := people_query self in
  let planets := planets_query self in
  let h1 := sent w ++ [mkRequest (endpoint self people) []] in
  let h2 := h1 ++ [mkRequest (endpoint self people)
                     [("If-None-Match", stored_validator people (db w))]] in
  let h4 := h3 ++ [mkRequest (endpoint self planets) []] in
  let h5 := h4 ++ [mkRequest (endpoint self planets)
                     [("If-None-Match", stored_validator planets (db w))]] in
  remote w h1 = Ok r1 -> remote w h2 = Ok r2 -> status_code r2 = 200 ->
  serves_pages (remote w) h2 (endpoint self people) ppages h3 ->
  (length ppages <= fuel)%nat ->
  remote w h4 = Ok r3 -> remote w h5 = Ok r4 -> status_code r4 = 304 ->
  latest_row (objects_filter planets (db w)) = Some m ->
  files w !! file_path m = None ->
  get_people_data fuel self w = (Raises (FileNotFoundError (file_path m)), with_sent h5 w).
Proof.
  intros people planets h1 h2 h4 h5 H1 H2 H200 Hpp Hfp H3 H4 H304 Hm Hmissing.
  rewrite (people_updated_then fuel self w r1 r2 ppages h3 H1 H2 H200 Hpp Hfp).
  rewrite (bind_returns _ _ _ _ _
             (get_planets_data_cached fuel self (with_sent h3 w) r3 r4 m H3 H4 H304 Hm)).
  unfold bind at 1. unfold ret at 1. unfold bind at 1. unfold print_table at 1.
  unfold joined_people, rename, convert, cut, join, vbind, fromdicts, fromcsv.
  cbn [files with_sent rbind]. unfold csv in *. rewrite Hmissing. reflexivity.
Qed.

Lemma missing_planets_file_witness :
  get_people_data 2 Demo.etl Cases.lost_planets_file
  = (Raises (FileNotFoundError "dir/gone.csv"),
     with_sent
       [mkRequest "api/people" []; mkRequest "api/people" [("If-None-Match", "")];
        mkRequest "api/people" []; mkRequest "api/people/?page=2" [];
        mkRequest "api/planets" []; mkRequest "api/planets" [("If-None-Match", "E1")]]
       Cases.lost_planets_file).
Proof.
  apply (missing_planets_file_aborts_before_saving 2 Demo.etl Cases.lost_planets_file
           (mkResponse 200 [("ETag", "E1")]
              (Ok (mkPage [Demo.luke] (Some "api/people/?page=2"))))
           (mkResponse 200 [("ETag", "E1")] (Ok (mkPage [] None)))
           Cases.people_pages
           [mkRequest "api/people" []; mkRequest "api/people" [("If-None-Match", "")];
            mkRequest "api/people" []; mkRequest "api/people/?page=2" []]
           (mkResponse 200 [("ETag", "E1")] (Ok (mkPage [Demo.tatooine] None)))
           (mkResponse 304 [("ETag", "E1")] Demo.no_body)
           (mkMetadata "planets_info.csv" "dir/gone.csv" 0 "E1" "planets")).
  - reflexivity.
  - reflexivity.
  - reflexivity.
  - eapply serves_next; [discriminate | reflexivity |].
    match goal with |- serves_pages _ ?h ?u _ ?h' =>
      change h' with (h ++ [mkRequest u []]) end.
    eapply serves_last; [discriminate | reflexivity].
  - cbn. lia.
  - reflexivity.
  - reflexivity.
  - reflexivity.
  - reflexivity.
  - vm_compute. reflexivity.
Defined.

(** X17: when the people have changed and the planets are reported not
    modified although no planets row was ever stored, the run raises
    [DoesNotExist] and writes nothing. *)
Theorem updated_people_without_planets_history fuel self w r1 r2 ppages h3 r3 r4 :
  let people := people_query self in
  let planets := planets_query self in
  let h1 := sent w ++ [mkRequest (endpoint self people) []] in
  let h2 := h1 ++ [mkRequest (endpoint self people)
                     [("If-None-Match", stored_validator people (db w))]] in
  let h4 := h3 ++ [mkRequest (endpoint self planets) []] in
  let h5 := h4 ++ [mkRequest (endpoint self planets)
                     [("If-None-Match", stored_validator planets (db w))]] in
  remote w h1 = Ok r1 -> remote w h2 = Ok r2 -> status_code r2 = 200 ->
  serves_pages (remote w) h2 (endpoint self people) ppages h3 ->
  (length ppages <= fuel)%nat ->
  remote w h4 = Ok r3 -> remote w h5 = Ok r4 -> status_code r4 = 304 ->
  rows_of_kind planets w = [] ->
  get_people_data fuel self w = (Raises DoesNotExist, with_sent h5 w).
Proof.
  intros people planets h1 h2 h4 h5 H1 H2 H200 Hpp Hfp H3 H4 H304 Hnone.
  rewrite (people_updated_then fuel self w r1 r2 ppages h3 H1 H2 H200 Hpp Hfp).
  erewrite bind_raises; [reflexivity|].
  apply (get_planets_data_without_history fuel self (with_sent h3 w) r3 r4 H3 H4 H304 Hnone).
Qed.

Lemma updated_people_without_planets_history_witness :
  get_people_data 2 Demo.etl (Demo.world Cases.remote_planets_unchanged [])
  = (Raises DoesNotExist,
     with_sent
       [mkRequest "api/people" []; mkRequest "api/people" [("If-None-Match", "")];
        mkRequest "api/people" []; mkRequest "api/people/?page=2" [];
        mkRequest "api/planets" []; mkRequest "api/planets" [("If-None-Match", "")]]
       (Demo.world Cases.remote_planets_unchanged [])).
Proof.
  apply (updated_people_without_planets_history 2 Demo.etl
           (Demo.world Cases.remote_planets_unchanged [])
           (mkResponse 200 [("ETag", "E1")]
              (Ok (mkPage [Demo.luke] (Some "api/people/?page=2"))))
           (mkResponse 200 [("ETag", "E1")] (Ok (mkPage [] None)))
           Cases.people_pages
           [mkRequest "api/people" []; mkRequest "api/people" [("If-None-Match", "")];
            mkRequest "api/people" []; mkRequest "api/people/?page=2" []]
           (mkResponse 200 [("ETag", "E1")] (Ok (mkPage [Demo.tatooine] None)))
           (mkResponse 304 [("ETag", "E1")] Demo.no_body)).
  - reflexivity.
  - reflexivity.
  - reflexivity.
  - eapply serves_next; [discriminate | reflexivity |].
    match goal with |- serves_pages _ ?h ?u _ ?h' =>
      change h' with (h ++ [mkRequest u []]) end.
    eapply serves_last; [discriminate | reflexivity].
  - cbn. lia.
  - reflexivity.
  - reflexivity.
  - reflexivity.
  - reflexivity.
Defined.


Lemma snapshot_saved sw_data name path kind e w out :
  (forall fs, sw_data fs = Ok out) -> writable w path = true ->
  (print_table sw_data ;;; save_data_to_csv sw_data name path kind (Some e)) w
  = (Returns (name +:+ " saved successfully "),
     mkWorld (remote w) (sent w) (db w ++ [mkMetadata name path (clock w) e kind])
       (clock w + 1) (<[path := to_csv out]> (files w)) (writable w)).
Proof.
  intros Hany Hw.
  unfold bind at 1. unfold print_table at 1. rewrite Hany.
  unfold save_data_to_csv, try_except, _log_new_metadata, bind, tocsv, objects_create, ret.
  rewrite Hw, Hany. reflexivity.
Qed.

(** X18: a planets file that cannot be written goes unnoticed: the
    message of the failed write is dropped, the run still writes the
    people snapshot from the planets it fetched and reports success, and
    no planets row is recorded. *)
Theorem unwritable_planets_file_goes_unnoticed
    fuel self w r1 r2 e1 ppages h3 r3 r4 qpages h6 :
  let people := people_query self in
  let planets := planets_query self in
  let h1 := sent w ++ [mkRequest (endpoint self people) []] in
  let h2 := h1 ++ [mkRequest (endpoint self people)
                     [("If-None-Match", stored_validator people (db w))]] in
  let h4 := h3 ++ [mkRequest (endpoint self planets) []] in
  let h5 := h4 ++ [mkRequest (endpoint self planets)
                     [("If-None-Match", stored_validator planets (db w))]] in
  let pdata := concat ppages in
  let qdata := concat qpages in
  remote w h1 = Ok r1 -> headers_get (headers r1) "ETag" = Some e1 ->
  remote w h2 = Ok r2 -> status_code r2 = 200 ->
  serves_pages (remote w) h2 (endpoint self people) ppages h3 ->
  remote w h4 = Ok r3 ->
  remote w h5 = Ok r4 -> status_code r4 = 200 ->
  serves_pages (remote w) h5 (endpoint self planets) qpages h6 ->
  (length ppages <= fuel)%nat -> (length qpages <= fuel)%nat ->
  Forall (fun f => In f (header (fromdicts_table pdata))) needed_fields ->
  ~ In "homeworld_name" (header (fromdicts_table pdata)) ->
  In "name" (header (fromdicts_table qdata)) ->
  In "url" (header (fromdicts_table qdata)) ->
  writable w planets_file_path = false ->
  writable w (CSV_FILE_PATH self) = true ->
  exists out,
    joined_people (fromdicts pdata) (planets_view qdata) (files w) = Ok out
    /\ get_people_data fuel self w
       = (Returns (CSV_FILE_NAME self +:+ " saved successfully "),
          mkWorld (remote w) h6
            (db w ++ [mkMetadata (CSV_FILE_NAME self) (CSV_FILE_PATH self) (clock w) e1 people])
            (clock w + 1)
            (<[CSV_FILE_PATH self := to_csv out]> (files w))
            (writable w)).
Proof.
  intros people planets h1 h2 h4 h5 pdata qdata H1 He1 H2 H200 Hpp H3 H4 H200' Hqp
    Hfp Hfq Hfields Hfresh Hn Hu Hwq Hwp.
  destruct (joined_people_of_records pdata (planets_view qdata) ∅ (planets_table_of qdata)
              (planets_view_table qdata ∅ Hn Hu) eq_refl Hfields Hfresh)
    as (out & Hout & _ & _).
  assert (Hany : forall fs, joined_people (fromdicts pdata) (planets_view qdata) fs = Ok out).
  { intros fs. rewrite <- Hout. unfold joined_people, rename, convert, cut, join, vbind.
    now rewrite !(planets_view_table qdata _ Hn Hu). }
  exists out. split; [apply Hany|].
  rewrite (people_updated_then fuel self w r1 r2 ppages h3 H1 H2 H200 Hpp Hfp).
  assert (Hplanets : get_planets_data fuel self (with_sent h3 w)
                     = (Returns (planets_view qdata), with_sent h6 w)).
  { unfold get_planets_data.
    rewrite (bind_returns _ _ _ _ _
               (get_latest_data_updated fuel self planets (with_sent h3 w) r3 r4 qpages h6
                  H3 H4 H200' Hqp Hfq)).
    cbn [snd fst]. unfold bind at 1. cbn [table_truth with_sent files fromdicts].
    replace (0 <? 1 + Z.of_nat (length (rows (fromdicts_table (concat qpages))))) with true
      by (symmetry; apply Z.ltb_lt; lia).
    fold (planets_view (concat qpages)). fold qdata. fold planets_file_name planets_file_path.
    unfold save_data_to_csv, try_except, _log_new_metadata, bind, tocsv, objects_create, ret.
    cbn [writable with_sent files]. rewrite Hwq. reflexivity. }
  rewrite (bind_returns _ _ _ _ _ Hplanets). fold pdata.
  unfold bind at 1. unfold ret at 1. rewrite He1.
  rewrite (snapshot_saved _ _ _ _ e1 _ out Hany) by exact Hwp.
  reflexivity.
Qed.

Lemma unwritable_planets_file_witness :
  exists out,
    joined_people (fromdicts [Demo.luke; Demo.leia]) (planets_view [Demo.tatooine]) ∅ = Ok out
    /\ get_people_data 2 Demo.etl Cases.read_only_planets
       = (Returns ("out.csv" +:+ " saved successfully "),
          mkWorld Demo.remote
            [mkRequest "api/people" []; mkRequest "api/people" [("If-None-Match", "")];
             mkRequest "api/people" []; mkRequest "api/people/?page=2" [];
             mkRequest "api/planets" []; mkRequest "api/planets" [("If-None-Match", "")];
             mkRequest "api/planets" []]
            [mkMetadata "out.csv" "dir/out.csv" 2 "E1" "people"]
            3
            (<["dir/out.csv" := to_csv out]> ∅)
            (writable Cases.read_only_planets)).
Proof.
  apply (unwritable_planets_file_goes_unnoticed 2 Demo.etl Cases.read_only_planets
           (mkResponse 200 [("ETag", "E1")]
              (Ok (mkPage [Demo.luke] (Some "api/people/?page=2"))))
           (mkResponse 200 [("ETag", "E1")] (Ok (mkPage [] None)))
           "E1" Cases.people_pages
           [mkRequest "api/people" []; mkRequest "api/people" [("If-None-Match", "")];
            mkRequest "api/people" []; mkRequest "api/people/?page=2" []]
           (mkResponse 200 [("ETag", "E1")] (Ok (mkPage [Demo.tatooine] None)))
           (mkResponse 200 [("ETag", "E1")] (Ok (mkPage [] None)))
           Cases.planets_pages
           [mkRequest "api/people" []; mkRequest "api/people" [("If-None-Match", "")];
            mkRequest "api/people" []; mkRequest "api/people/?page=2" [];
            mkRequest "api/planets" []; mkRequest "api/planets" [("If-None-Match", "")];
            mkRequest "api/planets" []]).
  - reflexivity.
  - reflexivity.
  - reflexivity.
  - reflexivity.
  - eapply serves_next; [discriminate | reflexivity |].
    match goal with |- serves_pages _ ?h ?u _ ?h' =>
      change h' with (h ++ [mkRequest u []]) end.
    eapply serves_last; [discriminate | reflexivity].
  - reflexivity.
  - reflexivity.
  - reflexivity.
  - match goal with |- serves_pages _ ?h ?u _ ?h' =>
      change h' with (h ++ [mkRequest u []]) end.
    eapply serves_last; [discriminate | reflexivity].
  - cbn. lia.
  - cbn. lia.
  - unfold needed_fields.
    repeat (apply List.Forall_cons; [vm_compute; tauto|]). apply List.Forall_nil.
  - vm_compute. intros H. repeat destruct H as [H|H]; try discriminate H. exact H.
  - vm_compute. tauto.
  - vm_compute. tauto.
  - reflexivity.
  - reflexivity.
Defined.


(** ** Timestamps *)

Module DatetimeMore.
Import PyStr Datetime Timestamp DatetimeFacts.



Lemma re_m_val a b :
  is_digit a = true -> is_digit b = true ->
  re_m (String a (String b EmptyString)) = true ->
  1 <= 10 * digit_val a + digit_val b <= 12.
Proof. intros Ha Hb Hv. simpl in Hv. field_arith. Qed.

Lemma re_d_val a b :
  is_digit a = true -> is_digit b = true ->
  re_d (String a (String b EmptyString)) = true ->
  1 <= 10 * digit_val a + digit_val b <= 31.
Proof. intros Ha Hb Hv. simpl in Hv. field_arith. Qed.




Lemma regex_match_ok s g : regex_match s = Some g -> groups_ok g = true.
Proof.
  unfold regex_match. destruct (split_groups s) as [g'|]; cbn; [|discriminate].
  destruct (groups_ok g') eqn:E; [|discriminate]. now intros [= <-].
Qed.




(** *** The date that comes out *)

Lemma is_digit_digit_char n : is_digit (digit_char n) = true.
Proof.
  unfold digit_char, is_digit, in_range.
  assert (0 <= n mod 10 < 10) by (apply Z.mod_pos_bound; lia).
  rewrite N_ascii_embedding by lia.
  change (N_of_ascii "0") with 48%N. change (N_of_ascii "9") with 57%N.
  apply andb_true_iff. split; apply N.leb_le; lia.
Qed.

Lemma digit_val_digit_char n : digit_val (digit_char n) = n mod 10.
Proof.
  unfold digit_char, digit_val.
  assert (0 <= n mod 10 < 10) by (apply Z.mod_pos_bound; lia).
  rewrite N_ascii_embedding by lia. lia.
Qed.

Lemma int_two_digits n : 0 <= n <= 99 -> int (two_digits n) = n.
Proof.
  intros Hn. unfold two_digits. rewrite int2 by apply is_digit_digit_char.
  rewrite !digit_val_digit_char. Z.div_mod_to_equations. lia.
Qed.

Lemma two_digit_two_digits n : two_digit (two_digits n) = true.
Proof. unfold two_digits. cbn. now rewrite !is_digit_digit_char. Qed.

Lemma int_one_digit a : is_digit a = true -> int (String a EmptyString) = digit_val a.
Proof. intros Ha. unfold int. rewrite (digit_not_blank a Ha). reflexivity. Qed.

Lemma re_m_range s : re_m s = true -> 1 <= int s <= 12.
Proof.
  destruct s as [|a [|b [|]]]; intros H; simpl in H; try discriminate H.
  - assert (Ha : is_digit a = true) by (clear -H; field_arith).
    rewrite int_one_digit by assumption. field_arith.
  - assert (Ha : is_digit a = true) by (clear -H; split_bools; one_char a).
    assert (Hb : is_digit b = true) by (clear -H; split_bools; one_char b).
    rewrite int2 by assumption. apply re_m_val; assumption.
Qed.

Lemma int_blank b : int (String " " (String b EmptyString)) = digit_val b.
Proof. reflexivity. Qed.

Lemma re_d_range s : re_d s = true -> 1 <= int s <= 31.
Proof.
  destruct s as [|a [|b [|]]]; intros H; simpl in H; try discriminate H.
  - assert (Ha : is_digit a = true) by (clear -H; field_arith).
    rewrite int_one_digit by assumption. field_arith.
  - destruct (is_char " " a) eqn:Hblank.
    + unfold is_char in Hblank. apply Ascii.eqb_eq in Hblank. subst a.
      rewrite int_blank. clear -H. cbn in H. field_arith.
    + assert (Ha : is_digit a = true).
      { clear -H Hblank. split_bools; first [congruence | one_char a]. }
      assert (Hb : is_digit b = true) by (clear -H; split_bools; one_char b).
      rewrite int2 by assumption. apply re_d_val; try assumption.
      simpl. rewrite Hblank. exact H.
Qed.

Lemma re_Y_range s : re_Y s = true -> 0 <= int s <= 9999.
Proof.
  intros H. destruct (re_Y_inv s H) as (a & b & c & d & -> & Ha & Hb & Hc & Hd).
  rewrite int4 by assumption.
  pose proof (digit_val_range a Ha). pose proof (digit_val_range b Hb).
  pose proof (digit_val_range c Hc). pose proof (digit_val_range d Hd). lia.
Qed.

Lemma strftime_Y_four y :
  1000 <= y ->
  strftime_Y y = String (digit_char (y / 1000)) (String (digit_char (y / 100)) (two_digits y)).
Proof.
  intros Hy. unfold strftime_Y.
  repeat match goal with |- context [?x <? ?y] => destruct (Z.ltb_spec x y); [lia|] end.
  reflexivity.
Qed.

Lemma length_append a b : String.length (a +:+ b) = (String.length a + String.length b)%nat.
Proof. induction a as [|c a IH]; [reflexivity|]. rewrite append_String. cbn. now rewrite IH. Qed.

Lemma strftime_date_short t :
  year t < 1000 -> (String.length (strftime_date t) < 10)%nat.
Proof.
  intros Hy. unfold strftime_date. rewrite !length_append. unfold strftime_Y, two_digits.
  repeat match goal with |- context [?x <? ?y] => destruct (Z.ltb_spec x y) end;
    try lia; cbn; lia.
Qed.

Lemma int_strftime_Y y : 1000 <= y <= 9999 -> int (strftime_Y y) = y.
Proof.
  intros Hy. rewrite strftime_Y_four by lia. unfold two_digits.
  rewrite int4 by apply is_digit_digit_char.
  rewrite !digit_val_digit_char. Z.div_mod_to_equations. lia.
Qed.

(** X20: the date [convert_datetime] returns is a date it accepts.  A
    result of ten characters, completed to the timestamp of its midnight,
    is converted to itself. *)
Theorem convert_datetime_result_converts_to_itself s d :
  convert_datetime s = Ok d -> String.length d = 10%nat ->
  convert_datetime (d +:+ "T00:00:00.0Z") = Ok d.
Proof.
  intros Hconv Hlen. unfold convert_datetime, strptime in Hconv.
  destruct (regex_match s) as [g|] eqn:E; [|discriminate].
  pose proof (regex_match_ok s g E) as Hok.
  unfold groups_ok in Hok. repeat (apply andb_true_iff in Hok as [Hok ?]).
  pose proof (re_Y_range _ Hok) as Hy.
  pose proof (re_m_range _ ltac:(eassumption)) as Hm.
  pose proof (re_d_range _ ltac:(eassumption)) as Hd.
  unfold validate in Hconv.
  repeat match type of Hconv with context [?x <? ?y] =>
           destruct (Z.ltb_spec x y); [discriminate|] end.
  cbn [rmap rbind] in Hconv. injection Hconv as <-.
  destruct (Z.lt_ge_cases (year (of_groups g)) 1000) as [Hsmall|Hbig].
  { apply strftime_date_short in Hsmall. lia. }
  unfold of_groups in *. cbn [year month day second] in *.
  set (y := int (gY g)) in *. set (m := int (gm g)) in *. set (dd := int (gd g)) in *.
  clearbody y m dd. clear E Hlen.
  set (g' := mkgroups (strftime_Y y) (two_digits m) (two_digits dd) "00" "00" "00" "0").
  assert (Htext : strftime_date (mkdatetime y m dd (int (gH g)) (int (gM g)) (int (gS g))
                                   (fraction (gf g))) +:+ "T00:00:00.0Z"
                  = iso_text g').
  { unfold iso_text, g', strftime_date. cbn [year month day].
    rewrite strftime_Y_four by lia. reflexivity. }
  rewrite Htext.
  rewrite (convert_iso g').
  - f_equal. unfold iso_text, g', strftime_date, date_prefix. cbn [year month day].
    rewrite strftime_Y_four by lia. reflexivity.
  - unfold iso_shape, g'. cbn [gY gm gd gH gM gS gf].
    rewrite !two_digit_two_digits. rewrite strftime_Y_four by lia.
    unfold two_digits. cbn [re_Y]. rewrite !is_digit_digit_char. reflexivity.
  - unfold names_instant, of_groups, g'.
    cbn [gY gm gd gH gM gS gf year month day hour minute second].
    rewrite int_strftime_Y, !int_two_digits by lia.
    change (int "00") with 0.
    repeat (apply andb_true_iff; split); apply Z.leb_le; lia.
  - unfold of_groups, g'. cbn [gY year]. rewrite int_strftime_Y by lia. lia.
Qed.

Lemma convert_datetime_result_witness :
  convert_datetime ("2014-01-09" +:+ "T00:00:00.0Z") = Ok "2014-01-09".
Proof.
  apply (convert_datetime_result_converts_to_itself "2014-1-9T3:5:1.6Z" "2014-01-09");
    reflexivity.
Defined.
End DatetimeMore.


(** ** The grouped count *)

Lemma value_cmp_refl a : value_cmp a a = Eq.
Proof.
  destruct a; simpl; [reflexivity| |apply Z.compare_refl].
  destruct (String.compare s s) eqn:E; [reflexivity| |].
  - apply String_as_OT.cmp_lt in E. apply String_as_OT.lt_not_eq in E.
    exfalso. apply E. reflexivity.
  - pose proof (String_as_OT.cmp_antisym s s) as H. unfold String_as_OT.cmp in H.
    rewrite E in H. discriminate H.
Qed.

Lemma value_cmp_lt_leb a b :
  value_cmp a b = Lt <-> value_leb a b = true /\ a <> b.
Proof.
  unfold value_leb. split.
  - intros H. rewrite H. split; [reflexivity|]. intros ->.
    rewrite value_cmp_refl in H. discriminate.
  - intros [Hle Hne]. destruct (value_cmp a b) eqn:E; [|reflexivity|discriminate].
    now apply value_cmp_eq in E.
Qed.

Lemma value_cmp_lt_trans a b c :
  value_cmp a b = Lt -> value_cmp b c = Lt -> value_cmp a c = Lt.
Proof.
  rewrite !value_cmp_lt_leb. intros [Hab Nab] [Hbc Nbc]. split.
  - eapply value_leb_trans; eassumption.
  - intros ->. apply Nab. now apply value_leb_antisym.
Qed.

Lemma row_leb_refl a : row_leb a a = true.
Proof. induction a as [|x a IH]; simpl; [reflexivity|]. now rewrite value_cmp_refl. Qed.

Lemma row_leb_total a b : row_leb a b = true \/ row_leb b a = true.
Proof.
  revert b. induction a as [|x a IH]; intros [|y b]; simpl; auto.
  rewrite (value_cmp_antisym y x). destruct (value_cmp x y); simpl; auto.
Qed.

Lemma row_leb_antisym a b : row_leb a b = true -> row_leb b a = true -> a = b.
Proof.
  revert b. induction a as [|x a IH]; intros [|y b]; simpl; try discriminate; [reflexivity|].
  rewrite (value_cmp_antisym y x). destruct (value_cmp x y) eqn:E; simpl; try discriminate.
  intros Hab Hba. apply value_cmp_eq in E. subst y. f_equal. now apply IH.
Qed.

Lemma row_leb_trans a b c :
  row_leb a b = true -> row_leb b c = true -> row_leb a c = true.
Proof.
  revert b c. induction a as [|x a IH]; intros [|y b] [|z c]; simpl; try discriminate; auto.
  destruct (value_cmp x y) eqn:Exy; try discriminate.
  - apply value_cmp_eq in Exy. subst y.
    destruct (value_cmp x z); auto. apply IH.
  - intros _. destruct (value_cmp y z) eqn:Eyz; try discriminate.
    + apply value_cmp_eq in Eyz. subst z. now rewrite Exy.
    + now rewrite (value_cmp_lt_trans x y z Exy Eyz).
Qed.

(** *** Sorted lists without repeats *)

Lemma drop_repeats_cons x l :
  drop_repeats (x :: l)
  = match l with
    | y :: _ => if bool_decide (x = y) then drop_repeats l else x :: drop_repeats l
    | [] => [x]
    end.
Proof. reflexivity. Qed.

Lemma drop_repeats_head x l : exists l', drop_repeats (x :: l) = x :: l'.
Proof.
  revert x. induction l as [|y l IH]; intros x; [now exists []|].
  rewrite drop_repeats_cons. destruct (bool_decide (x = y)) eqn:E; [|eauto].
  apply bool_decide_eq_true in E. subst y. apply IH.
Qed.

(** After a sort on the whole row, [drop_repeats] leaves rows in
    strictly increasing order. *)
Lemma drop_repeats_sorted l :
  StronglySorted (fun a b => row_leb a b = true) l ->
  StronglySorted (fun a b => row_leb a b = true /\ a <> b) (drop_repeats l).
Proof.
  induction 1 as [|x l Hl IH Hx]; [constructor|].
  rewrite drop_repeats_cons. destruct l as [|y l]; [repeat constructor|].
  destruct (bool_decide (x = y)) eqn:E; [exact IH|].
  apply bool_decide_eq_false in E.
  constructor; [exact IH|]. apply List.Forall_forall. intros z Hz.
  apply (proj1 (drop_repeats_In _ _)) in Hz. rewrite List.Forall_forall in Hx.
  split; [now apply Hx|]. intros <-.
  apply E. apply row_leb_antisym; [apply Hx; now left|].
  destruct Hz as [<-|Hz]; [apply row_leb_refl|].
  inversion Hl as [|? ? _ Hy]; subst. rewrite List.Forall_forall in Hy. now apply Hy.
Qed.

Lemma strictly_sorted_nodup (l : list row) :
  StronglySorted (fun a b => row_leb a b = true /\ a <> b) l -> List.NoDup l.
Proof.
  induction 1 as [|x l Hl IH Hx]; constructor; [|exact IH].
  intros Hin. rewrite List.Forall_forall in Hx. now destruct (Hx x Hin).
Qed.

(** Two strictly increasing lists with the same elements are equal. *)
Lemma strictly_sorted_unique (l l' : list row) :
  StronglySorted (fun a b => row_leb a b = true /\ a <> b) l ->
  StronglySorted (fun a b => row_leb a b = true /\ a <> b) l' ->
  (forall x, In x l <-> In x l') -> l = l'.
Proof.
  intros Hl. revert l'. induction Hl as [|x l Hl IH Hx]; intros l' Hl' Hsame.
  - destruct l' as [|y l']; [reflexivity|]. exfalso. apply (Hsame y). now left.
  - destruct Hl' as [|y l' Hl' Hy].
    { exfalso. apply (Hsame x). now left. }
    rewrite List.Forall_forall in Hx, Hy.
    assert (x = y) as <-.
    { destruct (proj1 (Hsame x) (or_introl eq_refl)) as [->|Hx']; [reflexivity|].
      destruct (proj2 (Hsame y) (or_introl eq_refl)) as [->|Hy']; [reflexivity|].
      apply row_leb_antisym; [now apply Hx|now apply Hy]. }
    f_equal. apply IH; [exact Hl'|]. intros z. split; intros Hz.
    + destruct (proj1 (Hsame z) (or_intror Hz)) as [<-|Hz']; [|exact Hz'].
      now destruct (Hx x Hz).
    + destruct (proj2 (Hsame z) (or_intror Hz)) as [<-|Hz']; [|exact Hz'].
      now destruct (Hy x Hz).
Qed.

Lemma distinct_rows_sorted rs :
  StronglySorted (fun a b => row_leb a b = true /\ a <> b)
    (drop_repeats (sort_by id row_leb rs)).
Proof.
  apply drop_repeats_sorted.
  exact (sort_by_sorted id row_leb row_leb_total row_leb_trans rs).
Qed.

(** [distinct] depends only on the set of rows. *)
Lemma distinct_rows_same_set rs rs' :
  (forall x, In x rs <-> In x rs') ->
  drop_repeats (sort_by id row_leb rs) = drop_repeats (sort_by id row_leb rs').
Proof.
  intros Hsame. apply strictly_sorted_unique; try apply distinct_rows_sorted.
  intros x. now rewrite !drop_repeats_In, !sort_by_In.
Qed.


Lemma get_calcualted_table_steps path columns fs :
  get_calcualted_table path columns fs
  = rbind (rbind (rbind (fromcsv path fs) (cut_table columns))
             (addfield_table "concatenated" concatenate))
      grouped_from_keyed.
Proof.
  unfold get_calcualted_table, distinct, rename, cutout, join, aggregate_len, addfield, cut,
    vbind, grouped_from_keyed.
  destruct (fromcsv path fs) as [t|e]; [|reflexivity]. cbn [rbind].
  destruct (cut_table columns t) as [sel|e]; [|reflexivity]. cbn [rbind].
  destruct (addfield_table "concatenated" concatenate sel) as [t1|e]; reflexivity.
Qed.

Lemma index_of_Some_In f hdr i : index_of f hdr = Some i -> In f hdr.
Proof.
  revert i. induction hdr as [|h hdr IH]; intros i; simpl; [discriminate|].
  destruct (String.eqb_spec h f); [now left|].
  destruct (index_of f hdr); simpl; [|discriminate]. intros _. right. eauto.
Qed.

Lemma index_of_None f hdr : ~ In f hdr -> index_of f hdr = None.
Proof.
  intros H. destruct (index_of f hdr) eqn:E; [|reflexivity].
  exfalso. apply H. eapply index_of_Some_In; eassumption.
Qed.


Lemma remove_nth_app_l {A} i (l tl : list A) :
  (i < length l)%nat -> remove_nth i (l ++ tl) = remove_nth i l ++ tl.
Proof.
  revert i. induction l as [|x l IH]; intros i Hi; [simpl in Hi; lia|].
  destruct i as [|i]; simpl; [reflexivity|]. rewrite IH; [reflexivity|simpl in Hi; lia].
Qed.

(** The steps after the key never fail. *)
Lemma grouped_from_keyed_ok t li :
  index_of "concatenated" (header t) = Some li ->
  exists J,
    join_tables "concatenated" "concatenated" t
      (mktable ["concatenated"; "value"]
         (map (fun kn => [fst kn; VInt (snd kn)])
            (group_count (map (field li) (sort_by (field li) value_leb (rows t))))))
    = Ok J
    /\ grouped_from_keyed t
       = Ok (mktable (map (rename_field [("value", "count")])
                        (remove_nth li (header t) ++ ["value"]))
               (drop_repeats (sort_by id row_leb (map (remove_nth li) (rows J))))).
Proof.
  intros Hli. unfold grouped_from_keyed, aggregate_len_table, asindex.
  rewrite Hli. cbn [rbind].
  unfold join_tables, asindex. cbn [header]. rewrite Hli. cbn [index_of String.eqb Ascii.eqb Bool.eqb].
  cbn [rbind rows remove_nth].
  eexists. split; [reflexivity|].
  unfold cutout_table, asindex. cbn [header rows].
  rewrite (index_of_app_l _ _ _ _ Hli). cbn [rbind].
  rewrite (remove_nth_app_l li) by (eapply index_of_bound; eassumption).
  unfold rename_table. cbn [header rows map fst check_fields].
  rewrite bool_decide_eq_true_2; [reflexivity|].
  apply elem_of_app. right. now left.
Qed.

(** Two sorted lists of keys with the same members, as often, are equal. *)
Lemma sorted_keys_unique (l l' : list value) :
  StronglySorted (fun a b => value_leb a b = true) l ->
  StronglySorted (fun a b => value_leb a b = true) l' ->
  Permutation l l' -> l = l'.
Proof.
  intros Hl. revert l'. induction Hl as [|x l Hl IH Hx]; intros l' Hl' Hp.
  - apply Permutation_nil in Hp. now subst.
  - destruct Hl' as [|y l' Hl' Hy].
    { symmetry in Hp. apply Permutation_nil in Hp. discriminate. }
    rewrite List.Forall_forall in Hx, Hy.
    assert (x = y) as <-.
    { assert (Hxin : In x (y :: l')) by (eapply Permutation_in; [exact Hp|now left]).
      assert (Hyin : In y (x :: l)) by (eapply Permutation_in; [symmetry; exact Hp|now left]).
      destruct Hxin as [->|Hx']; [reflexivity|].
      destruct Hyin as [->|Hy']; [reflexivity|].
      apply value_leb_antisym; [now apply Hx|now apply Hy]. }
    f_equal. apply IH; [exact Hl'|]. now apply Permutation_cons_inv in Hp.
Qed.

Lemma sorted_keys_of_permuted li (rs rs' : list row) :
  Permutation rs rs' ->
  map (field li) (sort_by (field li) value_leb rs)
  = map (field li) (sort_by (field li) value_leb rs').
Proof.
  intros Hp. apply sorted_keys_unique.
  - apply sorted_keys, sort_by_sorted; [apply value_leb_total|apply value_leb_trans].
  - apply sorted_keys, sort_by_sorted; [apply value_leb_total|apply value_leb_trans].
  - apply Permutation_map. rewrite !sort_by_perm. exact Hp.
Qed.

(** The steps after the key do not look at the order of the rows. *)
Lemma grouped_from_keyed_permuted t t' :
  header t = header t' -> Permutation (rows t) (rows t') ->
  grouped_from_keyed t = grouped_from_keyed t'.
Proof.
  intros Hh Hp.
  destruct (index_of "concatenated" (header t)) as [li|] eqn:Hli.
  - destruct (grouped_from_keyed_ok t li Hli) as (J & HJ & ->).
    pose proof Hli as Hli'. rewrite Hh in Hli'.
    destruct (grouped_from_keyed_ok t' li Hli') as (J' & HJ' & ->).
    rewrite Hh. f_equal. f_equal.
    apply distinct_rows_same_set.
    rewrite <- (sorted_keys_of_permuted li _ _ Hp) in HJ'.
    match type of HJ with join_tables _ _ _ ?r = _ =>
      destruct (join_rows "concatenated" "concatenated" t r li 0%nat Hli eq_refl)
        as (J0 & HJ0 & _ & Hrows);
      destruct (join_rows "concatenated" "concatenated" t' r li 0%nat Hli' eq_refl)
        as (J0' & HJ0' & _ & Hrows')
    end.
    assert (J0 = J) as -> by congruence. assert (J0' = J') as -> by congruence.
    intros x. rewrite !in_map_iff. split.
    + intros (y & <- & Hy). exists y. split; [reflexivity|].
      apply Hrows'. apply Hrows in Hy as (lr & rr & Hlr & Hrest).
      exists lr, rr. split; [|exact Hrest]. eapply Permutation_in; eassumption.
    + intros (y & <- & Hy). exists y. split; [reflexivity|].
      apply Hrows. apply Hrows' in Hy as (lr & rr & Hlr & Hrest).
      exists lr, rr. split; [|exact Hrest].
      eapply Permutation_in; [symmetry|]; eassumption.
  - unfold grouped_from_keyed, aggregate_len_table, asindex.
    rewrite <- Hh, Hli. reflexivity.
Qed.

(** [sequence] over a permuted list, when every failure is the same
    exception. *)
Lemma sequence_permuted {A B} (f : A -> result B) e0 l l' :
  (forall x e, f x = Raise e -> e = e0) ->
  Permutation l l' ->
  match sequence (map f l), sequence (map f l') with
  | Ok a, Ok b => Permutation a b
  | Raise e, Raise e' => e = e'
  | _, _ => False
  end.
Proof.
  intros Hf. 
  induction 1 as [|x l l' Hp IH|x y l|l l' l'' Hp1 IH1 Hp2 IH2].
  - constructor.
  - cbn [map sequence]. destruct (f x) as [y|e]; cbn [rbind]; [|reflexivity].
    destruct (sequence (map f l)), (sequence (map f l')); cbn [rbind]; try assumption.
    now constructor.
  - cbn [map sequence]. destruct (f x) as [a|e] eqn:Ex, (f y) as [b|e'] eqn:Ey; cbn [rbind].
    + destruct (sequence (map f l)); cbn [rbind]; [apply perm_swap|reflexivity].
    + reflexivity.
    + reflexivity.
    + now rewrite (Hf _ _ Ex), (Hf _ _ Ey).
  - destruct (sequence (map f l)), (sequence (map f l')), (sequence (map f l''));
      try contradiction; try congruence.
    etransitivity; eassumption.
Qed.

Lemma concatenate_error r e :
  rmap (fun x => r ++ [x]) (concatenate r) = Raise e ->
  e = TypeError "sequence item: expected str instance".
Proof. unfold concatenate. destruct (texts r); cbn; [discriminate|]. now intros [= <-]. Qed.

(** X21: the grouped count does not depend on the order of the lines of
    the file: two files with the same header whose lines are a
    permutation of each other give the same result, table or error. *)
Theorem grouped_count_ignores_line_order path columns (fs fs' : gmap string csv) h ls ls' :
  fs !! path = Some (h :: ls) -> fs' !! path = Some (h :: ls') ->
  Permutation ls ls' ->
  get_calcualted_table path columns fs = get_calcualted_table path columns fs'.
Proof.
  intros Hfs Hfs' Hp. rewrite !get_calcualted_table_steps.
  unfold fromcsv, csv in *. rewrite Hfs, Hfs'. cbn [rbind].
  unfold cut_table. cbn [header rows].
  destruct (asindices h columns) as [ixs|e]; [|reflexivity]. cbn [rbind].
  unfold addfield_table. cbn [header rows].
  pose proof (sequence_permuted (fun r => rmap (fun x => r ++ [x]) (concatenate r))
                (TypeError "sequence item: expected str instance")
                (map (fun r => map (fun i => field i r) ixs) (map (map VStr) ls))
                (map (fun r => map (fun i => field i r) ixs) (map (map VStr) ls'))
                concatenate_error) as Hseq.
  destruct (sequence _) as [R|e], (sequence _) as [R'|e'];
    cbn [rbind]; try (exfalso; apply Hseq; now do 2 apply Permutation_map);
    specialize (Hseq ltac:(now do 2 apply Permutation_map)).
  - now apply grouped_from_keyed_permuted.
  - now subst.
Qed.

Lemma grouped_count_ignores_line_order_witness :
  get_calcualted_table "f.csv" ["a"; "b"] (Demo.disk Demo.ambiguous_file)
  = get_calcualted_table "f.csv" ["a"; "b"] (Demo.disk Cases.shuffled_file).
Proof.
  apply (grouped_count_ignores_line_order "f.csv" ["a"; "b"]
           (Demo.disk Demo.ambiguous_file) (Demo.disk Cases.shuffled_file)
           ["a"; "b"; "c"]
           [["a b"; "c"; "x"]; ["a"; "b c"; "y"]; ["q"; "r"; "z"]]
           [["q"; "r"; "z"]; ["a"; "b c"; "y"]; ["a b"; "c"; "x"]]).
  - vm_compute. reflexivity.
  - vm_compute. reflexivity.
  - eapply perm_trans; [apply perm_swap|].
    eapply perm_trans; [apply perm_skip, perm_swap|].
    eapply perm_trans; [apply perm_swap|]. apply Permutation_refl.
Defined.














(** X23: the rows of the grouped count are in strictly increasing order,
    so no row occurs twice; when no selected column is called
    [concatenated] or [value], its header is the selected columns
    followed by [count]. *)
Theorem grouped_count_rows_increase path columns fs out :
  get_calcualted_table path columns fs = Ok out ->
  strictly_increasing (rows out)
  /\ List.NoDup (rows out)
  /\ (~ In "concatenated" columns -> ~ In "value" columns ->
      header out = columns ++ ["count"]).
Proof.
  rewrite get_calcualted_table_steps.
  destruct (fromcsv path fs) as [t|e]; [|discriminate]. cbn [rbind].
  unfold cut_table. destruct (asindices (header t) columns) as [ixs|e]; [|discriminate].
  cbn [rbind]. unfold addfield_table. cbn [header rows].
  destruct (sequence _) as [R|e]; [|discriminate]. cbn [rbind].
  destruct (index_of_In "concatenated" (columns ++ ["concatenated"])) as (li & Hli).
  { apply in_or_app. right. now left. }
  destruct (grouped_from_keyed_ok (mktable (columns ++ ["concatenated"]) R) li Hli)
    as (J & _ & ->).
  intros [= <-]. cbn [rows header].
  split; [apply distinct_rows_sorted|].
  split; [apply strictly_sorted_nodup, distinct_rows_sorted|].
  intros Hfresh Hvalue.
  rewrite (index_of_app_r "concatenated" columns [] Hfresh) in Hli.
  injection Hli as <-. rewrite remove_nth_app, app_nil_r.
  rewrite List.map_app. cbn [map rename_field find fst snd String.eqb Ascii.eqb Bool.eqb].
  f_equal. rewrite <- (map_id columns) at 2. apply map_ext_in.
  intros f Hf. unfold rename_field. cbn [find fst].
  destruct (String.eqb_spec "value" f) as [<-|_]; [contradiction|reflexivity].
Qed.

Lemma grouped_count_rows_increase_witness :
  strictly_increasing (rows Demo.ambiguous_grouped)
  /\ List.NoDup (rows Demo.ambiguous_grouped)
  /\ (~ In "concatenated" ["a"; "b"] -> ~ In "value" ["a"; "b"] ->
      header Demo.ambiguous_grouped = ["a"; "b"] ++ ["count"]).
Proof.
  apply (grouped_count_rows_increase "f.csv" ["a"; "b"] (Demo.disk Demo.ambiguous_file)).
  vm_compute. reflexivity.
Defined.







(** ** The views *)

Example split_columns :
  PySplit.split "&?columns=" "name&?columns=height&?columns=mass" = ["name"; "height"; "mass"].
Proof. reflexivity. Qed.

Example split_nothing : PySplit.split "&?columns=" "" = [""].
Proof. reflexivity. Qed.

Example split_leading_separator : PySplit.split "&?columns=" "&?columns=name" = [""; "name"].
Proof. reflexivity. Qed.

Example split_does_not_overlap : PySplit.split "aa" "aaa" = [""; "a"].
Proof. reflexivity. Qed.

Example querydict_get_last_value :
  querydict_get [("offset", "10"); ("columns", "name"); ("offset", "20")] "offset" "0" = "20".
Proof. reflexivity. Qed.

Lemma objects_filter_kind query ms :
  Forall (fun m => table_info_type m = query) ms -> objects_filter query ms = ms.
Proof.
  induction 1 as [|m ms Hm _ IH]; [reflexivity|].
  unfold objects_filter in *. cbn. rewrite Hm, String.eqb_refl. now f_equal.
Qed.

Lemma objects_filter_other query other ms :
  other <> query ->
  Forall (fun m => table_info_type m = other) ms -> objects_filter query ms = [].
Proof.
  intros Hne. induction 1 as [|m ms Hm _ IH]; [reflexivity|].
  unfold objects_filter in *. cbn. rewrite Hm.
  destruct (String.eqb_spec other query); [contradiction|exact IH].
Qed.

(** X26: when [DownloadDataView.get] returns, the datasets it hands to
    the template are the people rows of the table as the request left
    it: the people rows there were, in their order, followed by at most
    one new row.  Without a message (no download was asked for) nothing
    has changed. *)
Theorem download_view_lists_every_dataset now fuel GET w message datasets w' :
  download_data_view_get now fuel GET w = (Returns (message, datasets), w') ->
  datasets = rows_of_kind "people" w'
  /\ (exists new, datasets = rows_of_kind "people" w ++ new /\ (length new <= 1)%nat)
  /\ (message = None -> w' = w).
Proof.
  unfold download_data_view_get, bind.
  destruct (querydict_contains GET "download_data"
            && String.eqb (querydict_get GET "download_data" "") "true").
  - set (ETL := mkStarwarsEtl _ _ _ _ _).
    destruct (journals_get_people_data fuel ETL w)
      as (new & (Hdb & _ & _) & qs & ps & -> & Hqs & Hpp).
    destruct Hqs as [_ Hq], Hpp as [Hps Hp].
    change (get_people_data fuel ETL w) with (start_starwars_data_ingestion fuel ETL w) in Hdb.
    destruct (start_starwars_data_ingestion fuel ETL w) as [[msg| |] w1]; try discriminate.
    cbn [snd] in Hdb. cbn [ret]. intros [= <- <- <-].
    split; [reflexivity|]. split; [|discriminate].
    exists ps. split; [|exact Hps].
    rewrite Hdb, !objects_filter_app.
    rewrite (objects_filter_other "people" "planets" qs) by (discriminate || exact Hq).
    now rewrite (objects_filter_kind "people" ps Hp).
  - cbn [ret]. intros [= <- <- <-]. split; [reflexivity|]. split; [|reflexivity].
    exists []. split; [now rewrite app_nil_r|cbn; lia].
Qed.

Lemma download_view_witness :
  [mkMetadata "old.csv" "dir/old.csv" 1 "E1" "people"]
  = rows_of_kind "people" Demo.later_run
  /\ (exists new,
        [mkMetadata "old.csv" "dir/old.csv" 1 "E1" "people"]
        = rows_of_kind "people" Demo.later_run ++ new /\ (length new <= 1)%nat)
  /\ (@None string = None -> Demo.later_run = Demo.later_run).
Proof.
  apply (download_view_lists_every_dataset
           (Datetime.mkdatetime 2023 4 5 6 7 8 0) 3 [("page", "1")] Demo.later_run).
  reflexivity.
Defined.










